(** * llm-router-system: duplicate detection, reprocessing policy and routing

    A shallow embedding of the decision logic of the repository:

    - [DuplicateDetectionManager] (duplicate-detection-manager.js): content
      fingerprints, the in-memory map of processing records, the
      reprocessing policy;
    - [IntelligentRouter] (src/utils/intelligent-router.js): complexity
      scoring, classification, the ordered routing rules, the optimizer;
    - [RouterController.processBatch]: the batch loop;
    - [LocalModelManager], [CloudModelManager], [WorkflowEngine] and
      [PerformanceMonitor]: what they return and the state they keep.

    Modelling conventions.

    - A JavaScript string is a Rocq [string], that is a sequence of bytes.
      The character classes [\s], [\d], [\w] and [toLowerCase] are the ASCII
      ones, so the model is the code on ASCII text; [crypto]'s UTF-8 encoding
      of a string is then the string itself.
    - A JavaScript number is an exact rational ([Q]), a counter a [nat] or
      [Z]; a literal such as [0.7] is [7 # 10]. The rounding of the doubles
      is not modelled.
    - An object is a record whose optional fields are [option]s: [None] is a
      field that is absent ([undefined]), or [null] where the code treats
      both alike. A number that the code reads with [<] is a [Nullable]:
      there [null] counts for 0, while [undefined] is below nothing.
    - A [Map] is a [gmap]; a method that mutates [this] takes the state and
      returns the new one.
    - [new Date().toISOString()] is an explicit argument [now]. Logging is
      not modelled. *)

From Stdlib Require Import String Ascii NArith ZArith QArith Qminmax Qround List Lia Bool.
From stdpp Require Import gmap strings pretty sorting.
Import ListNotations.

Local Open Scope string_scope.

(** ** JavaScript string primitives *)

Module Js.

Definition code (c : ascii) : N := N_of_ascii c.

(** [\s]: tab, line feed, vertical tab, form feed, carriage return, space. *)
Definition is_space (c : ascii) : bool :=
  ((9 <=? code c) && (code c <=? 13) || (code c =? 32))%N.

(** [\d] *)
Definition is_digit (c : ascii) : bool :=
  ((48 <=? code c) && (code c <=? 57))%N.

Definition is_upper (c : ascii) : bool :=
  ((65 <=? code c) && (code c <=? 90))%N.

Definition is_lower (c : ascii) : bool :=
  ((97 <=? code c) && (code c <=? 122))%N.

(** [\w]: letters, digits and the underscore. *)
Definition is_word (c : ascii) : bool :=
  is_upper c || is_lower c || is_digit c || (code c =? 95)%N.

Definition lower_char (c : ascii) : ascii :=
  if is_upper c then ascii_of_N (code c + 32) else c.

Definition upper_char (c : ascii) : ascii :=
  if is_lower c then ascii_of_N (code c - 32) else c.

(** [s.toLowerCase()] *)
Fixpoint toLowerCase (s : string) : string :=
  match s with
  | EmptyString => EmptyString
  | String c s' => String (lower_char c) (toLowerCase s')
  end.

(** [!s] for a string that may be absent: [undefined], [null] and the empty
    string are falsy. *)
Definition falsy (s : option string) : bool :=
  match s with
  | None => true
  | Some s => String.eqb s ""
  end.

(** [s.substring(n)] *)
Fixpoint drop (n : nat) (s : string) : string :=
  match n, s with
  | O, _ => s
  | S n', String _ s' => drop n' s'
  | S _, EmptyString => EmptyString
  end.

(** [s.substring(0, n)] *)
Fixpoint take (n : nat) (s : string) : string :=
  match n, s with
  | S n', String c s' => String c (take n' s')
  | _, _ => EmptyString
  end.

(** The longest prefix of [s] whose characters satisfy [f], and the rest:
    what a greedy [[class]*] consumes. *)
Fixpoint span (f : ascii -> bool) (s : string) : string * string :=
  match s with
  | EmptyString => (EmptyString, EmptyString)
  | String c s' =>
      if f c then let (a, b) := span f s' in (String c a, b)
      else (EmptyString, s)
  end.

(** Leftmost match of a pattern: [m] tries the pattern at the start of its
    argument, [search] tries every position from left to right. *)
Fixpoint search {A} (m : string -> option A) (s : string) : option A :=
  match m s with
  | Some a => Some a
  | None =>
      match s with
      | EmptyString => None
      | String _ s' => search m s'
      end
  end.

(** [s.includes(k)] *)
Definition includes (k s : string) : bool :=
  match search (fun t => if String.prefix k t then Some tt else None) s with
  | Some _ => true
  | None => false
  end.

(** [s.replace(/\s+/g, ' ')]: every maximal run of white space becomes one
    space. [in_run] tells that the previous character was white space. *)
Fixpoint collapse_from (in_run : bool) (s : string) : string :=
  match s with
  | EmptyString => EmptyString
  | String c s' =>
      if is_space c
      then (if in_run then collapse_from true s'
            else String " " (collapse_from true s'))
      else String c (collapse_from false s')
  end.

Definition collapse_spaces (s : string) : string := collapse_from false s.

Fixpoint trimStart (s : string) : string :=
  match s with
  | EmptyString => EmptyString
  | String c s' => if is_space c then trimStart s' else s
  end.

Fixpoint trimEnd (s : string) : string :=
  match s with
  | EmptyString => EmptyString
  | String c s' =>
      match trimEnd s' with
      | EmptyString => if is_space c then EmptyString else String c EmptyString
      | r => String c r
      end
  end.

(** [s.trim()] *)
Definition trim (s : string) : string := trimEnd (trimStart s).

(** [s.split(sep)[0]] for a one-character separator. *)
Fixpoint before (sep : ascii) (s : string) : string :=
  match s with
  | EmptyString => EmptyString
  | String c s' => if Ascii.eqb c sep then EmptyString else String c (before sep s')
  end.

(** [l.join(sep)] *)
Definition join (sep : string) (l : list string) : string := String.concat sep l.

(** [l.sort()] on strings: the default order compares code units. Any
    sorting algorithm gives the same list, equal strings being identical. *)
Fixpoint insert_sorted (x : string) (l : list string) : list string :=
  match l with
  | [] => [x]
  | y :: l' => if String.leb x y then x :: l else y :: insert_sorted x l'
  end.

Definition sort (l : list string) : list string :=
  fold_right insert_sorted [] l.

(** Every character of [s] satisfies [f]. *)
Fixpoint all_chars (f : ascii -> bool) (s : string) : bool :=
  match s with
  | EmptyString => true
  | String c s' => f c && all_chars f s'
  end.

(** [s.at(-1)] *)
Fixpoint last_char (s : string) : option ascii :=
  match s with
  | EmptyString => None
  | String c EmptyString => Some c
  | String _ s' => last_char s'
  end.

(** A template literal prints [null] as the four letters. *)
Definition template (s : option string) : string :=
  match s with
  | Some s => s
  | None => "null"
  end.

(** [a || b] on strings that may be absent. *)
Definition or_else (a b : option string) : option string :=
  if falsy a then b else a.

End Js.

(** ** The digests of node's [crypto] module

    [crypto.createHash(alg).update(s).digest('hex')] for [sha256] (FIPS
    180-4) and [md5] (RFC 1321), on the bytes of [s]. Words are numbers below
    [2^32]. *)

Module Digest.

Local Open Scope N_scope.

Definition w32 (x : N) : N := x mod 2 ^ 32.
Definition add32 (x y : N) : N := w32 (x + y).
Definition not32 (x : N) : N := N.lxor x (2 ^ 32 - 1).
Definition rotr (n x : N) : N := N.lor (N.shiftr x n) (w32 (N.shiftl x (32 - n))).
Definition rotl (n x : N) : N := N.lor (w32 (N.shiftl x n)) (N.shiftr x (32 - n)).

Definition bytes_of_string (s : string) : list N :=
  List.map N_of_ascii (list_ascii_of_string s).

(** The [k] low bytes of [x], most significant first. *)
Fixpoint be_bytes (k : nat) (x : N) : list N :=
  match k with
  | O => []
  | S k' => N.shiftr x (8 * N.of_nat k') mod 256 :: be_bytes k' x
  end.

Definition le_bytes (k : nat) (x : N) : list N := List.rev (be_bytes k x).

Definition be_word (bs : list N) : N :=
  List.fold_left (fun acc b => acc * 256 + b) bs 0.

Definition le_word (bs : list N) : N := be_word (List.rev bs).

(** Consecutive chunks of [k] elements. *)
Fixpoint chunks_from {A} (fuel k : nat) (l : list A) : list (list A) :=
  match fuel, l with
  | S fuel', _ :: _ => List.firstn k l :: chunks_from fuel' k (List.skipn k l)
  | _, _ => []
  end.

Definition chunks {A} (k : nat) (l : list A) : list (list A) :=
  chunks_from (List.length l) k l.

(** Both digests pad with the byte 128, then zeros up to 56 modulo 64,
    then the bit length on 8 bytes. *)
Definition pad_zeros (len : nat) : nat := ((119 - len mod 64) mod 64)%nat.

Definition padded (length_bytes : N -> list N) (msg : list N) : list N :=
  msg ++ 128 :: List.repeat 0 (pad_zeros (List.length msg))
      ++ length_bytes (8 * N.of_nat (List.length msg)).

Definition hex_digit (n : N) : ascii :=
  ascii_of_N (if n <? 10 then 48 + n else 87 + n).

Fixpoint hex (bs : list N) : string :=
  match bs with
  | [] => EmptyString
  | b :: bs' => String (hex_digit (b / 16)) (String (hex_digit (b mod 16)) (hex bs'))
  end.

(** *** SHA-256 *)

Definition is_prime (p : N) : bool :=
  (1 <? p) && List.forallb (fun d => negb (p mod d =? 0))
                (List.map N.of_nat (List.seq 2 (N.to_nat p - 2))).

(** The first sixty-four primes, 2 to 311. *)
Definition primes64 : list N :=
  Eval vm_compute in List.filter is_prime (List.map N.of_nat (List.seq 2 310)).

(** The largest [r] below [2^b] with [pow r <= n], bit by bit. *)
Fixpoint int_root (pow : N -> N) (b : nat) (n r : N) : N :=
  match b with
  | O => r
  | S b' =>
      let c := r + 2 ^ N.of_nat b' in
      int_root pow b' n (if pow c <=? n then c else r)
  end.

(** The round constants: the first 32 bits of the fractional parts of the
    cube roots of the primes. *)
Definition sha256_K : list N :=
  Eval vm_compute in
    List.map (fun p => w32 (int_root (fun c => c * c * c) 40 (p * 2 ^ 96) 0)) primes64.

(** The initial state: the same for the square roots of the first eight. *)
Definition sha256_init : list N :=
  Eval vm_compute in
    List.map (fun p => w32 (N.sqrt (p * 2 ^ 64))) (List.firstn 8 primes64).

Definition big_sigma0 (x : N) : N := N.lxor (N.lxor (rotr 2 x) (rotr 13 x)) (rotr 22 x).
Definition big_sigma1 (x : N) : N := N.lxor (N.lxor (rotr 6 x) (rotr 11 x)) (rotr 25 x).
Definition small_sigma0 (x : N) : N := N.lxor (N.lxor (rotr 7 x) (rotr 18 x)) (N.shiftr x 3).
Definition small_sigma1 (x : N) : N := N.lxor (N.lxor (rotr 17 x) (rotr 19 x)) (N.shiftr x 10).
Definition choose (x y z : N) : N := N.lxor (N.land x y) (N.land (not32 x) z).
Definition majority (x y z : N) : N :=
  N.lxor (N.lxor (N.land x y) (N.land x z)) (N.land y z).

Definition schedule_next (W : list N) : list N :=
  let t := List.length W in
  let at_ k := List.nth (t - k) W 0 in
  W ++ [add32 (add32 (small_sigma1 (at_ 2%nat)) (at_ 7%nat))
              (add32 (small_sigma0 (at_ 15%nat)) (at_ 16%nat))].

Definition sha256_schedule (block : list N) : list N :=
  Nat.iter 48 schedule_next (List.map be_word (chunks 4 block)).

Definition sha256_round (st : list N) (kw : N * N) : list N :=
  match st with
  | [a; b; c; d; e; f; g; h] =>
      let t1 := add32 (add32 (add32 h (big_sigma1 e)) (choose e f g))
                      (add32 (fst kw) (snd kw)) in
      let t2 := add32 (big_sigma0 a) (majority a b c) in
      [add32 t1 t2; a; b; c; add32 d t1; e; f; g]
  | _ => st
  end.

Definition add_words (x y : list N) : list N :=
  List.map (fun p => add32 (fst p) (snd p)) (List.combine x y).

Definition sha256_block (st block : list N) : list N :=
  add_words st
    (List.fold_left sha256_round (List.combine sha256_K (sha256_schedule block)) st).

Definition sha256_bytes (msg : list N) : list N :=
  List.concat
    (List.map (be_bytes 4)
       (List.fold_left sha256_block (chunks 64 (padded (be_bytes 8) msg)) sha256_init)).

Definition sha256_hex (s : string) : string := hex (sha256_bytes (bytes_of_string s)).

(** *** MD5 *)

(** [floor (2^32 * |sin (i + 1)|)] for [i] from 0 to 63. *)
Definition md5_K : list N :=
  [ 3614090360; 3905402710; 606105819; 3250441966; 4118548399; 1200080426;
    2821735955; 4249261313; 1770035416; 2336552879; 4294925233; 2304563134;
    1804603682; 4254626195; 2792965006; 1236535329; 4129170786; 3225465664;
    643717713; 3921069994; 3593408605; 38016083; 3634488961; 3889429448;
    568446438; 3275163606; 4107603335; 1163531501; 2850285829; 4243563512;
    1735328473; 2368359562; 4294588738; 2272392833; 1839030562; 4259657740;
    2763975236; 1272893353; 4139469664; 3200236656; 681279174; 3936430074;
    3572445317; 76029189; 3654602809; 3873151461; 530742520; 3299628645;
    4096336452; 1126891415; 2878612391; 4237533241; 1700485571; 2399980690;
    4293915773; 2240044497; 1873313359; 4264355552; 2734768916; 1309151649;
    4149444226; 3174756917; 718787259; 3951481745 ].

Definition md5_init : list N := [1732584193; 4023233417; 2562383102; 271733878].

Definition md5_shift (i : nat) : N :=
  List.nth (i mod 4)
    (List.nth (i / 16) [[7; 12; 17; 22]; [5; 9; 14; 20]; [4; 11; 16; 23]; [6; 10; 15; 21]] [])
    0.

Definition md5_round (M : list N) (st : list N) (i : nat) : list N :=
  match st with
  | [a; b; c; d] =>
      let '(f, g) :=
        match (i / 16)%nat with
        | 0%nat => (N.lor (N.land b c) (N.land (not32 b) d), i)
        | 1%nat => (N.lor (N.land d b) (N.land (not32 d) c), ((5 * i + 1) mod 16)%nat)
        | 2%nat => (N.lxor (N.lxor b c) d, ((3 * i + 5) mod 16)%nat)
        | _ => (N.lxor c (N.lor b (not32 d)), ((7 * i) mod 16)%nat)
        end in
      let x := add32 (add32 f a) (add32 (List.nth i md5_K 0) (List.nth g M 0)) in
      [d; add32 b (rotl (md5_shift i) x); b; c]
  | _ => st
  end.

Definition md5_block (st block : list N) : list N :=
  add_words st
    (List.fold_left (md5_round (List.map le_word (chunks 4 block))) (List.seq 0 64) st).

Definition md5_bytes (msg : list N) : list N :=
  List.concat
    (List.map (le_bytes 4)
       (List.fold_left md5_block (chunks 64 (padded (le_bytes 8) msg)) md5_init)).

Definition md5_hex (s : string) : string := hex (md5_bytes (bytes_of_string s)).

End Digest.

(** ** DuplicateDetectionManager: the data *)

#[local] Set Warnings "-register-all".

(** A JSON value: the payload a model returns. *)
Inductive JsValue : Type :=
| JsNull
| JsBool (b : bool)
| JsNum (q : Q)
| JsStr (s : string)
| JsArr (items : list JsValue)
| JsObj (fields : list (string * JsValue)).

(** Whether a value is truthy. *)
Definition truthy (v : JsValue) : bool :=
  match v with
  | JsNull => false
  | JsBool b => b
  | JsNum q => negb (Qeq_bool q 0)
  | JsStr s => negb (String.eqb s "")
  | JsArr _ => true
  | JsObj _ => true
  end.

(** The argument of [generateContentFingerprint] and [checkIfProcessed]. *)
Record ContentItem : Type := {
  url : option string;
  title : option string;
  content : option string;
  tags : option (list string)
}.

(** [fingerprintData] *)
Record Metadata : Type := {
  post_id : option string;
  video_id : option string;
  meta_title : string;
  meta_content_hash : string;
  meta_tags : list string;
  normalized_url : string
}.

Record Fingerprint : Type := {
  primary_fingerprint : string;
  secondary_fingerprint : string;
  metadata : Metadata
}.

(** A value that may be [null]. *)
Inductive Nullable (A : Type) : Type :=
| Null
| Value (a : A).

Arguments Null {A}.
Arguments Value {A} a.

(** A value of the [processedContent] map. The map holds what
    [markAsProcessing], [markAsCompleted] and [forceReprocess] write, and
    what [checkDatabase] would return: the record has every field any of
    them writes or [shouldReprocess] and [checkIfProcessed] read. *)
Record ProcessingRecord : Type := {
  content_hash : option string;
  content_id : option string;
  processing_status : option string;
  status : option string;
  started_processing : option string;
  last_processed : option string;
  quality_score : option (Nullable Q);
  processing_version : option string;
  result : option JsValue;
  force_reprocess_flag : option bool;
  error_count : option (Nullable Z);
  content_metadata : option Metadata;
  original_content : option ContentItem;
  reprocess_reason : option string
}.

(** The object literal [{}]: no field is set. *)
Definition empty_record : ProcessingRecord := {|
  content_hash := None; content_id := None; processing_status := None;
  status := None; started_processing := None; last_processed := None;
  quality_score := None; processing_version := None; result := None;
  force_reprocess_flag := None; error_count := None; content_metadata := None;
  original_content := None; reprocess_reason := None
|}.

(** What [shouldReprocess] returns. *)
Record ReprocessDecision : Type := {
  should_reprocess : bool;
  reason : string
}.

(** What [checkIfProcessed] returns: the fields of the duplicate answer, or
    [fingerprint] and [should_process]. *)
Record DuplicateCheck : Type := {
  is_duplicate : bool;
  dup_processing_status : option string;
  dup_last_processed : option string;
  dup_quality_score : option (Nullable Q);
  dup_should_reprocess : option ReprocessDecision;
  cached_result : option JsValue;
  fingerprint : option Fingerprint;
  should_process : option bool
}.

(** [this.processedContent] *)
Abbreviation Store := (gmap string ProcessingRecord).

(** ** DuplicateDetectionManager: fingerprints *)

(** [/\/posts\/(\d+)/] at the start of [s]: the digits captured. *)
Definition match_post_path (s : string) : option string :=
  if String.prefix "/posts/" s
  then let (digits, _) := Js.span Js.is_digit (Js.drop 7 s) in
       if String.eqb digits "" then None else Some digits
  else None.

(** [/patreon\.com\/([^\/]+)\/posts/] at the start of [s]: the creator
    captured. The class excludes the slash, so the greedy run ends at the
    first slash and giving characters back cannot help. *)
Definition match_creator_posts (s : string) : option string :=
  if String.prefix "patreon.com/" s
  then let (creator, rest) :=
         Js.span (fun c => negb (Ascii.eqb c "/")) (Js.drop 12 s) in
       if String.eqb creator "" then None
       else if String.prefix "/posts" rest then Some creator else None
  else None.

Definition extractPatreonPostId (url : option string) : option string :=
  if Js.falsy url then None
  else
    let u := default "" url in
    match Js.search match_post_path u with
    | Some id => Some id
    | None =>
        match Js.search match_creator_posts u with
        | Some creator => Some (creator +:+ "_filtered")
        | None => Some (Js.take 8 (Digest.md5_hex u))
        end
    end.

(** [prefix([^chars]+)] at the start of [s], for the three video patterns.
    In the source the class is written [[^\\s]]: inside a regular-expression
    literal that is "neither a backslash nor the letter s". *)
Definition match_after (prefix : string) (excluded : list ascii) (s : string)
  : option string :=
  if String.prefix prefix s
  then let (id, _) :=
         Js.span (fun c => negb (existsb (Ascii.eqb c) excluded))
                 (Js.drop (String.length prefix) s) in
       if String.eqb id "" then None else Some id
  else None.

Definition extractVideoId (content : option string) : option string :=
  if Js.falsy content then None
  else
    let c := default "" content in
    match Js.search (match_after "youtube.com/live/" ["\"; "s"]%char) c with
    | Some id => Some id
    | None =>
        match Js.search (match_after "youtube.com/watch?v=" ["&"; "\"; "s"]%char) c with
        | Some id => Some id
        | None => Js.search (match_after "youtu.be/" ["\"; "s"]%char) c
        end
    end.

Definition extractAndNormalizeTags (tags : list string) : list string :=
  Js.sort (List.map (fun tag => Js.trim (Js.toLowerCase tag)) tags).

Definition normalizeUrl (url : option string) : string :=
  if Js.falsy url then ""
  else Js.toLowerCase (Js.before "?" (default "" url)).

(** The four ways [ hours? ago] and [ minutes? ago] can read. *)
Definition relative_time_units : list string :=
  [" hours ago"; " hour ago"; " minutes ago"; " minute ago"].

(** [/\d+ hours? ago|\d+ minutes? ago/] at the start of [s]: the length of
    the match. The digits are followed by a space, so the greedy [\d+] never
    gives a digit back. *)
Definition match_relative_time (s : string) : option nat :=
  let (digits, rest) := Js.span Js.is_digit s in
  if String.eqb digits "" then None
  else
    match List.find (fun unit => String.prefix unit rest) relative_time_units with
    | Some unit => Some (String.length digits + String.length unit)
    | None => None
    end.

(** [s.replace(/\d+ hours? ago|\d+ minutes? ago/g, '')]: the matches are
    found from left to right and do not overlap; [skip] counts the
    characters of the current match that are still to be dropped. *)
Fixpoint strip_from (skip : nat) (s : string) : string :=
  match s with
  | EmptyString => EmptyString
  | String c s' =>
      match skip with
      | S k => strip_from k s'
      | O =>
          match match_relative_time s with
          | Some (S k) => strip_from k s'
          | _ => String c (strip_from 0 s')
          end
      end
  end.

Definition strip_relative_time (s : string) : string := strip_from 0 s.

(** The constant [normalized] of [createContentHash]. *)
Definition normalizeContent (content : string) : string :=
  Js.toLowerCase (Js.trim (strip_relative_time (Js.collapse_spaces content))).

Definition createContentHash (content : option string) : string :=
  if Js.falsy content then ""
  else Digest.sha256_hex (normalizeContent (default "" content)).

Definition normalizeText (text : option string) : string :=
  if Js.falsy text then ""
  else Js.toLowerCase (Js.trim (Js.collapse_spaces (default "" text))).

Definition createSecondaryFingerprint (data : Metadata) : string :=
  Digest.md5_hex
    (default "" (Js.or_else (video_id data) (Some "")) +:+ "|"
       +:+ Js.join "," (meta_tags data) +:+ "|" +:+ normalized_url data).

(** [primaryData] *)
Definition primaryData (data : Metadata) : string :=
  Js.template (post_id data) +:+ "|" +:+ meta_title data +:+ "|"
    +:+ meta_content_hash data.

Definition fingerprintData (c : ContentItem) : Metadata := {|
  post_id := extractPatreonPostId (url c);
  video_id := extractVideoId (content c);
  meta_title := normalizeText (title c);
  meta_content_hash := createContentHash (content c);
  meta_tags := extractAndNormalizeTags (default [] (tags c));
  normalized_url := normalizeUrl (url c)
|}.

Definition generateContentFingerprint (c : ContentItem) : Fingerprint :=
  let data := fingerprintData c in
  {| primary_fingerprint := Digest.sha256_hex (primaryData data);
     secondary_fingerprint := createSecondaryFingerprint data;
     metadata := data |}.


(** ** DuplicateDetectionManager: the reprocessing policy *)

Definition getCurrentProcessingVersion : string := "2.0.0".

(** [a < b] where [b] is a string and [a] a string or [undefined]: two
    strings are compared code unit by code unit; [undefined] becomes [NaN],
    which is below nothing. *)
Definition js_string_lt (a : option string) (b : string) : bool :=
  match a with
  | Some a => String.ltb a b
  | None => false
  end.

(** [a < b] on numbers. *)
Definition Q_ltb (x y : Q) : bool := negb (Qle_bool y x).

(** [a < b] where [a] is a number, [null], which becomes 0, or
    [undefined], which becomes [NaN]. *)
Definition js_num_lt (a : option (Nullable Q)) (b : Q) : bool :=
  match a with
  | Some (Value a) => Q_ltb a b
  | Some Null => Q_ltb 0 b
  | None => false
  end.

(** [a > b] on numbers, [a] possibly [undefined]. *)
Definition js_num_gt (a : option Q) (b : Q) : bool :=
  match a with
  | Some a => Q_ltb b a
  | None => false
  end.

Definition js_int_lt (a : option (Nullable Z)) (b : Z) : bool :=
  match a with
  | Some (Value a) => (a <? b)%Z
  | Some Null => (0 <? b)%Z
  | None => false
  end.

Definition hasNewerProcessingVersion (oldVersion : option string) : bool :=
  js_string_lt oldVersion getCurrentProcessingVersion.

Definition priorityTags : list string := ["bitcoin"; "tesla"; "solana"; "sbr"].

Definition hasPriorityTagsNeedingReprocessing (processedInfo : ProcessingRecord) : bool :=
  let contentTags :=
    match content_metadata processedInfo with
    | Some m => meta_tags m
    | None => []
    end in
  let hasPriorityTags :=
    existsb (fun tag => existsb (fun contentTag => Js.includes tag contentTag) contentTags)
            priorityTags in
  hasPriorityTags && js_string_lt (processing_version processedInfo) "2.0.0".

Definition shouldReprocess (processedInfo : ProcessingRecord) : ReprocessDecision :=
  if bool_decide (force_reprocess_flag processedInfo = Some true)
  then {| should_reprocess := true; reason := "force_reprocess_requested" |}
  else if bool_decide (status processedInfo = Some "failed")
          && js_int_lt (error_count processedInfo) 3
  then {| should_reprocess := true; reason := "retry_failed_processing" |}
  else if js_num_lt (quality_score processedInfo) (7 # 10)
          && hasNewerProcessingVersion (processing_version processedInfo)
  then {| should_reprocess := true; reason := "quality_improvement_available" |}
  else if hasPriorityTagsNeedingReprocessing processedInfo
  then {| should_reprocess := true; reason := "priority_tags_detected" |}
  else {| should_reprocess := false; reason := "content_acceptable" |}.

(** ** DuplicateDetectionManager: the store *)

(** [checkDatabase] answers [{ found: false }] to every fingerprint. *)
Definition checkDatabase (fp : Fingerprint) : option ProcessingRecord := None.

(** [saveToDatabase] writes a log line and nothing else. *)
Definition saveToDatabase (processingInfo : ProcessingRecord) (st : Store) : Store :=
  st.

(** [findContentByIdentifier] resolves every identifier to no hash. *)
Definition findContentByIdentifier (identifier : string) : list string := [].

Definition duplicate_answer (info : ProcessingRecord) : DuplicateCheck := {|
  is_duplicate := true;
  dup_processing_status := status info;
  dup_last_processed := last_processed info;
  dup_quality_score := quality_score info;
  dup_should_reprocess := Some (shouldReprocess info);
  cached_result := result info;
  fingerprint := None;
  should_process := None
|}.

Definition checkIfProcessed (c : ContentItem) (st : Store) : DuplicateCheck * Store :=
  let fp := generateContentFingerprint c in
  match st !! primary_fingerprint fp with
  | Some cachedInfo => (duplicate_answer cachedInfo, st)
  | None =>
      match checkDatabase fp with
      | Some data => (duplicate_answer data, <[primary_fingerprint fp := data]> st)
      | None =>
          ({| is_duplicate := false;
              dup_processing_status := None;
              dup_last_processed := None;
              dup_quality_score := None;
              dup_should_reprocess := None;
              cached_result := None;
              fingerprint := Some fp;
              should_process := Some true |}, st)
      end
  end.

(** [processingInfo] of [markAsProcessing] *)
Definition processingInfo (now : string) (fp : Fingerprint) (c : ContentItem)
  : ProcessingRecord := {|
  content_hash := Some (primary_fingerprint fp);
  content_id := Js.or_else (post_id (metadata fp)) (video_id (metadata fp));
  processing_status := Some "processing";
  status := None;
  started_processing := Some now;
  last_processed := None;
  quality_score := None;
  processing_version := Some getCurrentProcessingVersion;
  result := None;
  force_reprocess_flag := None;
  error_count := None;
  content_metadata := Some (metadata fp);
  original_content := Some c;
  reprocess_reason := None
|}.

Definition markAsProcessing (now : string) (fp : Fingerprint) (c : ContentItem)
    (st : Store) : ProcessingRecord * Store :=
  let info := processingInfo now fp c in
  (info, saveToDatabase info (<[primary_fingerprint fp := info]> st)).

(** [completedInfo] of [markAsCompleted]; [qualityScore] is 0.8 when the
    argument is left out. *)
Definition completedInfo (now : string) (fp : Fingerprint) (res : JsValue)
    (qualityScore : option Q) : ProcessingRecord := {|
  content_hash := Some (primary_fingerprint fp);
  content_id := None;
  processing_status := Some "completed";
  status := None;
  started_processing := None;
  last_processed := Some now;
  quality_score := Some (Value (default (8 # 10) qualityScore));
  processing_version := Some getCurrentProcessingVersion;
  result := Some res;
  force_reprocess_flag := Some false;
  error_count := Some (Value 0%Z);
  content_metadata := None;
  original_content := None;
  reprocess_reason := None
|}.

Definition markAsCompleted (now : string) (fp : Fingerprint) (res : JsValue)
    (qualityScore : option Q) (st : Store) : Store :=
  let info := completedInfo now fp res qualityScore in
  saveToDatabase info (<[primary_fingerprint fp := info]> st).

(** The three assignments of [forceReprocess] to [info], the object held by
    the map. *)
Definition mark_for_reprocessing (why : string) (info : ProcessingRecord)
  : ProcessingRecord := {|
  content_hash := content_hash info;
  content_id := content_id info;
  processing_status := Some "needs_reprocessing";
  status := status info;
  started_processing := started_processing info;
  last_processed := last_processed info;
  quality_score := quality_score info;
  processing_version := processing_version info;
  result := result info;
  force_reprocess_flag := Some true;
  error_count := error_count info;
  content_metadata := content_metadata info;
  original_content := original_content info;
  reprocess_reason := Some why
|}.

(** The loop of [forceReprocess] over the hashes the lookup returned. *)
Definition reprocess_hashes (why : string) (contentHashes : list string) (st : Store)
  : Store :=
  List.fold_left
    (fun st hash =>
       match st !! hash with
       | Some info =>
           let info' := mark_for_reprocessing why info in
           saveToDatabase info' (<[hash := info']> st)
       | None => st
       end)
    contentHashes st.

(** [forceReprocess] with the lookup as a parameter; [why] is
    ['manual_request'] when the argument is left out. *)
Definition forceReprocess_with (find : string -> list string) (identifier : string)
    (why : option string) (st : Store) : Store :=
  reprocess_hashes (default "manual_request" why) (find identifier) st.

Definition forceReprocess (identifier : string) (why : option string) (st : Store)
  : Store :=
  forceReprocess_with findContentByIdentifier identifier why st.

(** ** IntelligentRouter: the data *)

Record ComplexityAnalysis : Type := {
  content_length : nat;
  complexity_score : Q;
  factors : list string
}.

Record Classification : Type := {
  content_type : option string;
  categories : list string;
  keywords : list string;
  class_priority : string;
  requires_cloud : bool;
  requires_specialized_model : option bool
}.

Inductive RoutingDecision : Type := Decision {
  route_to : string;
  model : string;
  reasoning : string;
  fallback_to_cloud : option bool;
  original_decision : option RoutingDecision
}.

(** The fields of [options] that the router and the controller read. *)
Record Options : Type := {
  cost_mode : option string;
  priority : option string;
  batch_size : option Q;
  batch_mode : option bool
}.

(** An entry of [performanceHistory]. *)
Record Performance : Type := {
  count : nat;
  total_latency : Q;
  total_cost : Q;
  avg_latency : option Q;
  avg_cost : option Q
}.

Record Metrics : Type := {
  latency : option Q;
  cost : option Q
}.

(** Of the configuration file the router reads
    [monitoring.alerts.high_cost]; [routing_rules.content_type_routing] is
    loaded into a local of [applyRoutingRules] that is not used. *)
Record Config : Type := {
  high_cost : Q
}.

(** The fields of [this]. *)
Record Router : Type := {
  config : Config;
  performanceHistory : gmap string Performance;
  costTracking : gmap string Q
}.

(** ** IntelligentRouter: complexity and classification *)

(** [prefix] up to the case of the letters (the [i] flag). *)
Fixpoint prefix_ignoring_case (p s : string) : bool :=
  match p, s with
  | EmptyString, _ => true
  | String a p', String b s' =>
      Ascii.eqb (Js.upper_char a) (Js.upper_char b) && prefix_ignoring_case p' s'
  | String _ _, EmptyString => false
  end.

(** [\b] after a word: the end of the string or a character outside [\w]. *)
Definition word_ends (s : string) : bool :=
  match s with
  | EmptyString => true
  | String c _ => negb (Js.is_word c)
  end.

(** [(w1|w2|...)\b] at the start of [s], the alternatives tried in order:
    the length of the match. *)
Definition match_word (words : list string) (s : string) : option nat :=
  match List.find (fun w => prefix_ignoring_case w s
                            && word_ends (Js.drop (String.length w) s)) words with
  | Some w => Some (String.length w)
  | None => None
  end.

(** The number of matches of [/\b(w1|w2|...)\b/gi] in [s], from left to
    right. [after_word] tells that the previous character is in [\w], so that
    there is no [\b] here; [skip] counts the characters of the current match
    still to pass. *)
Fixpoint count_words_from (words : list string) (after_word : bool) (skip : nat)
    (s : string) : nat :=
  match s with
  | EmptyString => O
  | String c s' =>
      match skip with
      | S k => count_words_from words (Js.is_word c) k s'
      | O =>
          match (if after_word then None else match_word words s) with
          | Some (S k) => S (count_words_from words (Js.is_word c) k s')
          | _ => count_words_from words (Js.is_word c) 0 s'
          end
      end
  end.

(** [content.match(pattern)]: the number of matches, 0 for [null]. *)
Definition count_words (words : list string) (s : string) : nat :=
  count_words_from words false 0 s.

(** [pattern.test(content)] *)
Definition test_words (words : list string) (s : string) : bool :=
  negb (Nat.eqb (count_words words s) 0).

Definition complexityIndicators : list (list string) :=
  [ ["analysis"; "strategy"; "complex"; "detailed"; "comprehensive"];
    ["arbitrage"; "trading"; "financial"; "investment"; "market"];
    ["data"; "statistics"; "calculations"; "formulas"] ].

Definition technicalWords : list string :=
  ["code"; "programming"; "technical"; "algorithm"; "API"].

(** The callback of [complexityIndicators.forEach]. *)
Definition add_indicator (text : string) (analysis : ComplexityAnalysis)
    (indexed : nat * list string) : ComplexityAnalysis :=
  let matches := count_words (snd indexed) text in
  if Nat.ltb 0 matches
  then {| content_length := content_length analysis;
          complexity_score :=
            complexity_score analysis + ((1 # 10) + inject_Z (Z.of_nat matches) * (5 # 100));
          factors := factors analysis ++ ["complexity_pattern_" +:+ pretty (fst indexed)] |}
  else analysis.

Definition analyzeComplexity (text : string) (contentType : option string)
  : ComplexityAnalysis :=
  let a0 := {| content_length := String.length text;
               complexity_score := 0; factors := [] |} in
  let a1 :=
    if Nat.ltb 5000 (String.length text)
    then {| content_length := content_length a0;
            complexity_score := complexity_score a0 + (3 # 10);
            factors := factors a0 ++ ["long_content"] |}
    else a0 in
  let a2 :=
    List.fold_left (add_indicator text)
      (List.combine (List.seq 0 (List.length complexityIndicators)) complexityIndicators)
      a1 in
  let a3 :=
    if test_words technicalWords text
    then {| content_length := content_length a2;
            complexity_score := complexity_score a2 + (2 # 10);
            factors := factors a2 ++ ["technical_content"] |}
    else a2 in
  {| content_length := content_length a3;
     complexity_score := Qmin (complexity_score a3) 1;
     factors := factors a3 |}.

Definition tradingKeywords : list string :=
  ["arbitrage"; "trading"; "stock"; "options"; "financial"; "investment";
   "profit"; "loss"; "market"; "tesla"].

Definition classifyContent (text : string) (contentType : option string)
  : Classification :=
  let foundTradingKeywords :=
    List.filter (fun keyword => Js.includes keyword (Js.toLowerCase text))
                tradingKeywords in
  let trading := Nat.ltb 0 (List.length foundTradingKeywords) in
  let multimedia :=
    bool_decide (contentType = Some "image") || bool_decide (contentType = Some "video") in
  {| content_type := contentType;
     categories :=
       (if trading then ["trading_content"] else [])
       ++ (if test_words ["code"; "API"; "technical"; "programming"; "algorithm"] text
           then ["technical_content"] else [])
       ++ (if test_words ["news"; "update"; "announcement"; "report"] text
           then ["informational_content"] else [])
       ++ (if multimedia then ["multimedia_content"] else []);
     keywords := if trading then foundTradingKeywords else [];
     class_priority := if trading then "high" else "medium";
     requires_cloud := trading && Nat.ltb 2 (List.length foundTradingKeywords);
     requires_specialized_model := if multimedia then Some true else None |}.

(** ** IntelligentRouter: the routing rules *)

(** [categories.includes(c)] *)
Definition has_category (c : string) (cl : Classification) : bool :=
  existsb (String.eqb c) (categories cl).

Definition applyRoutingRules (text : string) (complexity : ComplexityAnalysis)
    (classification : Classification) (options : Options) : RoutingDecision :=
  let score := complexity_score complexity in
  if bool_decide (content_type classification = Some "image")
  then Decision "local" "vision_analysis"
         "Image content routed to local vision model" None None
  else if has_category "trading_content" classification && Q_ltb (7 # 10) score
  then Decision "cloud" "abacus_gpt4o"
         "Complex trading analysis requires advanced cloud model" None None
  else if Nat.ltb (String.length text) 500 && Q_ltb score (3 # 10)
  then Decision "local" "classification"
         "Short, simple content processed locally for speed" None None
  else if Nat.leb 2000 (String.length text) && Q_ltb score (8 # 10)
  then Decision "local" "complex_reasoning"
         "Long content processed with local advanced model" (Some true) None
  else if Qle_bool (8 # 10) score
  then Decision "cloud" "abacus_claude"
         "High complexity requires cloud processing" None None
  else Decision "local" "general_processing"
         "Default routing to local general model" None None.

(** ** IntelligentRouter: the optimizer and the counters *)

(** [new IntelligentRouter()] *)
Definition new_router (cfg : Config) : Router :=
  {| config := cfg; performanceHistory := ∅; costTracking := ∅ |}.

(** [getDailyCost]: [today] is the date part of the current time; a missing
    entry, like an entry 0, reads 0. *)
Definition getDailyCost (now : string) (r : Router) : Q :=
  let today := Js.before "T" now in
  default 0%Q (costTracking r !! today).

Definition performance_key (routeType model : string) : string :=
  routeType +:+ ":" +:+ model.

Definition getModelPerformance (routeType model : string) (r : Router)
  : option Performance :=
  performanceHistory r !! performance_key routeType model.

Definition updatePerformanceHistory (routeType model : string) (metrics : Metrics)
    (r : Router) : Router :=
  let key := performance_key routeType model in
  let existing :=
    default {| count := 0; total_latency := 0; total_cost := 0;
               avg_latency := None; avg_cost := None |}
            (performanceHistory r !! key) in
  let n := S (count existing) in
  let tl := (total_latency existing + default 0 (latency metrics))%Q in
  let tc := (total_cost existing + default 0 (cost metrics))%Q in
  let updated :=
    {| count := n; total_latency := tl; total_cost := tc;
       avg_latency := Some (tl / inject_Z (Z.of_nat n))%Q;
       avg_cost := Some (tc / inject_Z (Z.of_nat n))%Q |} in
  {| config := config r;
     performanceHistory := <[key := updated]> (performanceHistory r);
     costTracking := costTracking r |}.

(** The first block of [optimizeRouting]. *)
Definition cost_guard (now : string) (r : Router) (decision : RoutingDecision)
    (options : Options) : RoutingDecision :=
  if bool_decide (cost_mode options = Some "optimize")
  then
    let dailyCost := getDailyCost now r in
    if Q_ltb (high_cost (config r)) dailyCost
    then
      if String.eqb (route_to decision) "cloud"
      then Decision "local" "complex_reasoning"
             "Switched to local due to cost limits" None (Some decision)
      else decision
    else decision
  else decision.

(** The second block of [optimizeRouting]. *)
Definition latency_guard (r : Router) (decision : RoutingDecision) (options : Options)
  : RoutingDecision :=
  if bool_decide (priority options = Some "high")
  then
    match getModelPerformance "local" (model decision) r with
    | Some localModelPerformance =>
        if js_num_gt (avg_latency localModelPerformance) 30000
        then Decision "cloud" "abacus_claude_haiku"
               "Switched to cloud for better performance" None (Some decision)
        else decision
    | None => decision
    end
  else decision.

Definition optimizeRouting (now : string) (r : Router) (decision : RoutingDecision)
    (options : Options) : RoutingDecision :=
  latency_guard r (cost_guard now r decision options) options.

Definition getFallbackRoute (contentType : option string) : RoutingDecision :=
  Decision "local" "general_processing" "Fallback route due to routing error" None None.

(** [determineRoute]: the four steps. Nothing in them throws on a string, so
    the [catch] that answers [getFallbackRoute] is not taken. *)
Definition determineRoute (now : string) (r : Router) (text : string)
    (contentType : option string) (options : Options) : RoutingDecision :=
  let complexity := analyzeComplexity text contentType in
  let classification := classifyContent text contentType in
  let routingDecision := applyRoutingRules text complexity classification options in
  optimizeRouting now r routingDecision options.

(** A call of a method of the router, and what it does to [this]: only
    [updatePerformanceHistory] assigns anything. *)
Inductive RouterCall : Type :=
| CallInitialize
| CallLoadRoutingModels
| CallDetermineRoute (now text : string) (contentType : option string) (options : Options)
| CallOptimizeRouting (now : string) (decision : RoutingDecision) (options : Options)
| CallGetDailyCost (now : string)
| CallGetModelPerformance (routeType model : string)
| CallUpdatePerformanceHistory (routeType model : string) (metrics : Metrics).

Definition run_call (r : Router) (c : RouterCall) : Router :=
  match c with
  | CallUpdatePerformanceHistory routeType model metrics =>
      updatePerformanceHistory routeType model metrics r
  | _ => r
  end.

(** The states of a router built from [cfg] after any sequence of calls. *)
Inductive reachable (cfg : Config) : Router -> Prop :=
| reachable_new : reachable cfg (new_router cfg)
| reachable_call r c : reachable cfg r -> reachable cfg (run_call r c).

(** ** RouterController: the batch loop

    The route of a batch checks that [items] is an array and nothing else:
    an element is [null] or any other value, and the [batch_size] of the
    options, a number when it is given, can be negative or have a
    fraction. *)

(** An element of [items] that is not [null]. [item_content] is [None]
    when [content] is missing or is not a string. *)
Record Item : Type := {
  item_id : option string;
  item_content : option string;
  item_content_type : option string
}.

(** An element of the list [processBatch] returns: [routing_decision] and
    [result] on success, [error] on failure. *)
Record BatchEntry : Type := {
  entry_id : option string;
  routing_decision : option RoutingDecision;
  entry_result : option JsValue;
  error : option string;
  entry_status : string
}.

(** The elements from the index [from] to the index [to], the latter left
    out. *)
Definition slice {A} (from to : nat) (l : list A) : list A :=
  List.firstn (to - from) (List.skipn from l).

(** The integer that [slice] makes of a number: the fraction is dropped. *)
Definition to_integer (q : Q) : Z :=
  if Qle_bool 0 q then Qfloor q else Qceiling q.

(** The index that [slice] makes of an argument, in an array of [len]
    elements: a negative one counts from the end, and the index stays
    within the array. *)
Definition slice_index (len : nat) (q : Q) : nat :=
  let z := to_integer q in
  if (z <? 0)%Z
  then Z.to_nat (Z.max (Z.of_nat len + z) 0)
  else Z.to_nat (Z.min z (Z.of_nat len)).

(** [items.slice(from, to)] *)
Definition js_slice {A} (from to : Q) (l : list A) : list A :=
  slice (slice_index (List.length l) from) (slice_index (List.length l) to) l.

(** [options.batch_size || 10]: 0 is falsy, a missing size and [null]
    are. *)
Definition batchSize (options : Options) : Q :=
  match batch_size options with
  | Some size => if Qeq_bool size 0 then 10 else size
  | None => 10
  end.

(** [{ ...options, batch_mode: true }] *)
Definition in_batch_mode (options : Options) : Options :=
  {| cost_mode := cost_mode options; priority := priority options;
     batch_size := batch_size options; batch_mode := Some true |}.

(** [executeRouting]: [localProcess] and [cloudProcess] are
    [this.localModels.process] and [this.cloudModels.process] for the call
    made for the item at a position: the result, or the message of the error
    thrown. The content is passed on as it is. *)
Definition executeRouting {C : Type}
    (localProcess cloudProcess : nat -> string -> C -> Options -> JsValue + string)
    (pos : nat) (decision : RoutingDecision) (content : C) (options : Options)
  : JsValue + string :=
  if String.eqb (route_to decision) "local"
  then localProcess pos (model decision) content options
  else if String.eqb (route_to decision) "cloud"
  then cloudProcess pos (model decision) content options
  else inr ("Unknown routing destination: " +:+ route_to decision).

(** The message of the [TypeError] of [item.id] on [null]. *)
Definition null_item_error : string :=
  "Cannot read properties of null (reading 'id')".

(** [Promise.all]: the values, or the error of the first promise that is
    rejected. *)
Fixpoint promise_all {A : Type} (promises : list (A + string)) : list A + string :=
  match promises with
  | [] => inl []
  | inr message :: _ => inr message
  | inl a :: rest =>
      match promise_all rest with
      | inl values => inl (a :: values)
      | inr message => inr message
      end
  end.

Section Controller.

(** [this.router.determineRoute] when the item at a position of the input
    is routed: it returns a decision in every case, its body being in a
    [try] whose [catch] returns the fallback route. *)
Variable route : nat -> option string -> option string -> Options -> RoutingDecision.

(** [this.localModels.process] and [this.cloudModels.process]. An error
    thrown is an [Error], as every one of the repository is: it has a
    message. *)
Variable localProcess cloudProcess :
  nat -> string -> option string -> Options -> JsValue + string.

(** The [try] of the callback of [batch.map] and its [catch], on an item
    that is not [null]. *)
Definition item_entry (options : Options) (pos : nat) (item : Item) : BatchEntry :=
  let routingDecision :=
    route pos (item_content item) (item_content_type item) (in_batch_mode options) in
  match executeRouting localProcess cloudProcess pos routingDecision (item_content item)
                       options with
  | inl res =>
      {| entry_id := item_id item;
         routing_decision := Some routingDecision;
         entry_result := Some res;
         error := None;
         entry_status := "success" |}
  | inr message =>
      {| entry_id := item_id item;
         routing_decision := None;
         entry_result := None;
         error := Some message;
         entry_status := "failed" |}
  end.

(** The callback of [batch.map]: the entry it returns, or the message of
    the error it throws. On [null], [item.content] throws in the [try], and
    [item.id] throws again in the [catch]. *)
Definition process_item (options : Options) (pos : nat) (item : option Item)
  : BatchEntry + string :=
  match item with
  | Some item => inl (item_entry options pos item)
  | None => inr null_item_error
  end.

(** The [for] loop from the index [i] on, with [results] so far: what it
    returns, or the message of the error it throws when a promise of a batch
    is rejected. [groups] is not a variable of the source: it records the
    values that [batch] takes, one a turn. Each turn takes a unit of [fuel];
    [None] is a loop that has not ended when the fuel is spent. *)
Fixpoint batch_loop (items : list (option Item)) (options : Options) (fuel : nat) (i : Q)
    (results : list BatchEntry) (groups : list (list (option Item)))
  : option (list BatchEntry * list (list (option Item)) + string) :=
  if Q_ltb i (inject_Z (Z.of_nat (List.length items)))
  then
    match fuel with
    | O => None
    | S fuel' =>
        let batch := js_slice i (i + batchSize options) items in
        let first := slice_index (List.length items) i in
        match promise_all (imap (fun j => process_item options (first + j)) batch) with
        | inl batchResults =>
            batch_loop items options fuel' (i + batchSize options)
                       (results ++ batchResults) (groups ++ [batch])
        | inr message => Some (inr message)
        end
    end
  else Some (inl (results, groups)).

(** [processBatch] with [fuel] turns of the loop. [options] is [None] when
    the request has [null] for it: then [options.batch_size] throws. *)
Definition processBatch (fuel : nat) (items : list (option Item))
    (options : option Options) : option (list BatchEntry + string) :=
  match options with
  | None => Some (inr "Cannot read properties of null (reading 'batch_size')")
  | Some options =>
      match batch_loop items options fuel 0 [] [] with
      | Some (inl done) => Some (inl done.1)
      | Some (inr message) => Some (inr message)
      | None => None
      end
  end.

(** The groups of items that [processBatch] takes in turn. *)
Definition processBatch_groups (fuel : nat) (items : list (option Item))
    (options : Options) : option (list (list (option Item)) + string) :=
  match batch_loop items options fuel 0 [] [] with
  | Some (inl done) => Some (inl done.2)
  | Some (inr message) => Some (inr message)
  | None => None
  end.

End Controller.

(** [determineRoute] of a router as the controller calls it: on a content
    that is not a string, [analyzeComplexity] throws, and the [catch]
    returns the fallback route. *)
Definition router_route (router : Router) (clock : nat -> string) (pos : nat)
    (content contentType : option string) (options : Options) : RoutingDecision :=
  match content with
  | Some text => determineRoute (clock pos) router text contentType options
  | None => getFallbackRoute contentType
  end.

(** The slices that the loop takes from the index [i] on, whatever the
    items are (lemma [batch_loop_returns]). *)
Fixpoint loop_groups {A : Type} (items : list A) (size : Q) (fuel : nat) (i : Q)
  : list (list A) :=
  if Q_ltb i (inject_Z (Z.of_nat (List.length items)))
  then
    match fuel with
    | O => []
    | S fuel' => js_slice i (i + size) items :: loop_groups items size fuel' (i + size)
    end
  else [].

(** The slices of [size] items from the index [i] on: what the loop takes
    when the batch size is a whole number (lemma [loop_groups_whole]). *)
Fixpoint batch_groups {A : Type} (items : list A) (size fuel i : nat) : list (list A) :=
  if Nat.ltb i (List.length items)
  then
    match fuel with
    | O => []
    | S fuel' => slice i (i + size) items :: batch_groups items size fuel' (i + size)
    end
  else [].

(** ** The order of versions

    What "an older version" means, to compare with the test of
    [hasNewerProcessingVersion]: a version is the list of the numbers between
    its dots, and two lists of numbers are compared from the left. *)

Fixpoint split_on (sep : ascii) (s : string) : list string :=
  match s with
  | EmptyString => [EmptyString]
  | String c s' =>
      if Ascii.eqb c sep then EmptyString :: split_on sep s'
      else
        match split_on sep s' with
        | piece :: pieces => String c piece :: pieces
        | [] => [String c EmptyString]
        end
  end.

(** The number a run of decimal digits writes. *)
Definition decimal (s : string) : N :=
  List.fold_left (fun acc c => (10 * acc + (Js.code c - 48))%N)
                 (list_ascii_of_string s) 0%N.

Definition version_numbers (v : string) : list N :=
  List.map decimal (split_on "." v).

Fixpoint numbers_lt (a b : list N) : bool :=
  match a, b with
  | [], [] => false
  | [], _ :: _ => true
  | _ :: _, [] => false
  | x :: a', y :: b' => (x <? y)%N || ((x =? y)%N && numbers_lt a' b')
  end.

(** [a] is an older version than [b]. *)
Definition older_version (a b : string) : bool :=
  numbers_lt (version_numbers a) (version_numbers b).

(** ** Inputs and states of the statements *)

(** A string of white space only. *)
Definition is_blank (w : string) : bool := Js.all_chars Js.is_space w.

(** A string that the pattern of relative times matches as a whole, such as
    ["3 hours ago"]. *)
Definition is_relative_time (t : string) : bool :=
  bool_decide (match_relative_time t = Some (String.length t)).

(** The stores that [markAsProcessing] and [markAsCompleted] build. *)
Inductive written_by_store : Store -> Prop :=
| written_empty : written_by_store ∅
| written_processing now fp c st :
    written_by_store st -> written_by_store (markAsProcessing now fp c st).2
| written_completed now fp res q st :
    written_by_store st -> written_by_store (markAsCompleted now fp res q st).

(** The decision of the first routing rule. *)
Definition image_decision : RoutingDecision :=
  Decision "local" "vision_analysis" "Image content routed to local vision model"
           None None.

(** ** Sample data *)

(** Two items with no URL and no title, the body of the one empty, the body
    of the other a space. *)
Definition empty_body_item : ContentItem :=
  {| url := None; title := None; content := Some ""; tags := None |}.

Definition blank_body_item : ContentItem :=
  {| url := None; title := None; content := Some " "; tags := None |}.

(** A failed record that was forced. *)
Definition forced_failed_record : ProcessingRecord := {|
  content_hash := Some "00ff"; content_id := None;
  processing_status := None; status := Some "failed";
  started_processing := None; last_processed := None;
  quality_score := None; processing_version := Some "2.0.0"; result := None;
  force_reprocess_flag := Some true; error_count := Some (Value 0%Z);
  content_metadata := None; original_content := None; reprocess_reason := None
|}.

(** A completed record of low quality whose version is 10.0.0. *)
Definition record_of_version_10 : ProcessingRecord := {|
  content_hash := Some "00ff"; content_id := None;
  processing_status := Some "completed"; status := None;
  started_processing := None; last_processed := None;
  quality_score := Some (Value (5 # 10)); processing_version := Some "10.0.0";
  result := None; force_reprocess_flag := Some false; error_count := Some (Value 0%Z);
  content_metadata := None; original_content := None; reprocess_reason := None
|}.

(** The content item of the URL ["https://x.com/posts/123"], and a store
    that holds a completed record under its fingerprint. *)
Definition x_item : ContentItem :=
  {| url := Some "https://x.com/posts/123"; title := None; content := None;
     tags := None |}.

Definition x_store : Store :=
  markAsCompleted "2024-05-01T10:00:00.000Z" (generateContentFingerprint x_item)
                  (JsStr "summary") None ∅.

(** A router that has recorded one request. *)
Definition busy_router : Router :=
  run_call (new_router {| high_cost := 25 |})
    (CallUpdatePerformanceHistory "cloud" "abacus_gpt4o"
       {| latency := Some 1200%Q; cost := Some (3 # 100) |}).

(** A text of the trading category and of complexity 0.75. *)
Definition trading_text : string :=
  "Arbitrage trading: a financial analysis of market data and statistics, an investment strategy".

(** An item of a batch, options that set nothing, a clock, and backends of
    which the local one fails at the odd positions. *)
Definition sample_item : Item :=
  {| item_id := Some "a"; item_content := Some "Hello";
     item_content_type := Some "text" |}.

Definition no_options : Options :=
  {| cost_mode := None; priority := None; batch_size := None; batch_mode := None |}.

Definition sample_clock (pos : nat) : string := "2024-05-01T10:00:00.000Z".

Definition sample_local (pos : nat) (model : string) (content : option string)
    (options : Options) : JsValue + string :=
  if Nat.even pos then inl (JsStr "done") else inr "connect ECONNREFUSED".

Definition sample_cloud (pos : nat) (model : string) (content : option string)
    (options : Options) : JsValue + string :=
  inr "timeout of 60000ms exceeded".

(** ** IntelligentRouter with the duplicate check

    The first class of intelligent-router.js: [determineRoute] asks the
    [DuplicateDetectionManager] before it routes. *)

(** The options that this [determineRoute] reads beside those of the
    router: [source_url] and [tags]. *)
Record SourceOptions : Type := {
  routing_options : Options;
  source_url : option string;
  source_tags : option (list string)
}.

(** What this [determineRoute] returns: a routing decision, with
    [cached_result] and [skip_processing] when the content is skipped. *)
Record RouteAnswer : Type := {
  route : RoutingDecision;
  route_cached_result : option JsValue;
  skip_processing : option bool
}.

(** The object passed to [checkIfProcessed]. The content is a string, so its
    [title] is undefined and the title passed is the empty string. *)
Definition duplicate_query (text : string) (options : SourceOptions) : ContentItem :=
  {| title := Some "";
     content := Some text;
     url := Some (default "" (Js.or_else (source_url options) (Some "")));
     tags := Some (default [] (source_tags options)) |}.

(** [duplicateCheck.should_reprocess?.reason || 'already processed'] *)
Definition skip_reason (check : DuplicateCheck) : string :=
  match dup_should_reprocess check with
  | Some d => if String.eqb (reason d) "" then "already processed" else reason d
  | None => "already processed"
  end.

(** [determineRoute] of the first class, on the store of its
    [duplicateManager]. *)
Definition determineRoute_with_duplicates (now : string) (r : Router) (text : string)
    (contentType : option string) (options : SourceOptions) (st : Store)
  : RouteAnswer * Store :=
  let (duplicateCheck, st') := checkIfProcessed (duplicate_query text options) st in
  let reprocess :=
    match dup_should_reprocess duplicateCheck with
    | Some d => should_reprocess d
    | None => false
    end in
  if is_duplicate duplicateCheck && negb reprocess
  then
    ({| route := Decision "cache" "cached_result"
                   ("Duplicate content skipped: " +:+ skip_reason duplicateCheck)
                   None None;
        route_cached_result := cached_result duplicateCheck;
        skip_processing := Some true |}, st')
  else
    ({| route := determineRoute now r text contentType (routing_options options);
        route_cached_result := None;
        skip_processing := None |}, st').

(** The stores that the operations of the manager build, the lookup of
    [forceReprocess] being any function. *)
Inductive store_reachable : Store -> Prop :=
| store_new : store_reachable ∅
| store_marked_processing now fp c st :
    store_reachable st -> store_reachable (markAsProcessing now fp c st).2
| store_marked_completed now fp res q st :
    store_reachable st -> store_reachable (markAsCompleted now fp res q st)
| store_forced find identifier why st :
    store_reachable st -> store_reachable (forceReprocess_with find identifier why st).

(** The two decisions [shouldReprocess] takes on the records of the store. *)
Definition forced_decision : ReprocessDecision :=
  {| should_reprocess := true; reason := "force_reprocess_requested" |}.

Definition acceptable_decision : ReprocessDecision :=
  {| should_reprocess := false; reason := "content_acceptable" |}.

(** Options with a source, and an item under this source. *)
Definition x_options : SourceOptions :=
  {| routing_options := no_options; source_url := Some "https://x.com/posts/123";
     source_tags := Some ["Bitcoin"] |}.



(** ** LocalModelManager and CloudModelManager

    The two backends of [executeRouting]. What the servers answer is a
    parameter; the managers' own state is the set of loaded models and the
    usage counters. A name that the configuration leaves out is [None],
    JavaScript's [undefined]. *)

(** An entry of [local_models] or [cloud_models] in the configuration. *)
Record ModelConfig : Type := {
  config_model : option string;
  max_tokens : option Q;
  temperature : option Q;
  cost_per_1k_input : option Q;
  cost_per_1k_output : option Q
}.

(** The properties that every object inherits from [Object.prototype]:
    [this.modelConfig[key]] finds a function or an object there, which is
    truthy and has none of the fields of an entry. *)
Definition inherited_keys : list string :=
  ["constructor"; "hasOwnProperty"; "isPrototypeOf"; "propertyIsEnumerable";
   "toLocaleString"; "toString"; "valueOf"; "__proto__"; "__defineGetter__";
   "__defineSetter__"; "__lookupGetter__"; "__lookupSetter__"].

Definition inherited_value : ModelConfig :=
  {| config_model := None; max_tokens := None; temperature := None;
     cost_per_1k_input := None; cost_per_1k_output := None |}.

(** [modelConfig[modelKey]], when truthy. *)
Definition config_entry (modelConfig : gmap string ModelConfig) (modelKey : string)
  : option ModelConfig :=
  match modelConfig !! modelKey with
  | Some cfg => Some cfg
  | None =>
      if bool_decide (modelKey ∈ inherited_keys) then Some inherited_value else None
  end.

(** The options of a request, as the caller gives them: they come from the
    body of a request and are not checked. [None] is a key that the object
    does not have, [Some v] a key with the value [v], [null] included. *)
Record ModelOptions : Type := {
  opt_max_tokens : option JsValue;
  opt_temperature : option JsValue;
  opt_top_p : option JsValue;
  opt_top_k : option JsValue
}.

(** [{ max_tokens: modelConfig.max_tokens, temperature:
    modelConfig.temperature, ...options }]: the spread copies every key of
    [options] and comes last, so that a key of the caller wins, whatever its
    value. [None] in the result is the value [undefined]. *)
Definition request_options (cfg : ModelConfig) (options : ModelOptions) : ModelOptions :=
  {| opt_max_tokens :=
       match opt_max_tokens options with
       | Some v => Some v
       | None => JsNum <$> max_tokens cfg
       end;
     opt_temperature :=
       match opt_temperature options with
       | Some v => Some v
       | None => JsNum <$> temperature cfg
       end;
     opt_top_p := opt_top_p options;
     opt_top_k := opt_top_k options |}.

(** [x || d] on an option of a request. *)
Definition js_or_default (x : option JsValue) (d : Q) : JsValue :=
  match x with
  | Some v => if truthy v then v else JsNum d
  | None => JsNum d
  end.

(** [x || d] on a number of the configuration that may be absent: 0 is
    falsy. *)
Definition js_num_or (x : option Q) (d : Q) : Q :=
  match x with
  | Some v => if Qeq_bool v 0 then d else v
  | None => d
  end.

(** The body of the request to Ollama. *)
Record OllamaRequest : Type := {
  ollama_model : option string;
  ollama_prompt : string;
  num_predict : JsValue;
  ollama_temperature : JsValue;
  top_p : JsValue;
  top_k : JsValue
}.

(** An error of the HTTP client: its [code], if any, and its message. *)
Record RequestError : Type := {
  error_code : option string;
  error_message : string
}.

(** The body of the request to Abacus.AI: one user message. *)
Record AbacusRequest : Type := {
  abacus_model : option string;
  abacus_content : string;
  abacus_max_tokens : JsValue;
  abacus_temperature : JsValue
}.

(** An error of a request to Abacus.AI: with a response of the server, its
    status and the message of its body if any, or without response. *)
Inductive AbacusError : Type :=
| ErrorResponse (status_code : nat) (api_message : option string)
| NoResponse (message : string).

(** What [process] returns, of either manager. *)
Record ProcessResult : Type := {
  process_result : option string;
  process_error : option string;
  process_model : option string;
  processing_time : Q;
  process_status : string;
  route_type : string;
  estimated_cost : option Q
}.

(** The object of the [catch] of [process]. *)
Definition failed_process (routeType modelKey message : string) (elapsed : Q)
  : ProcessResult :=
  {| process_result := None; process_error := Some message;
     process_model := Some modelKey; processing_time := elapsed;
     process_status := "error"; route_type := routeType; estimated_cost := None |}.

(** [requestData] of [makeRequest] *)
Definition ollama_request (modelName : option string) (prompt : string)
    (options : ModelOptions) : OllamaRequest :=
  {| ollama_model := modelName;
     ollama_prompt := prompt;
     num_predict := js_or_default (opt_max_tokens options) 1000;
     ollama_temperature := js_or_default (opt_temperature options) (7 # 10);
     top_p := js_or_default (opt_top_p options) (9 # 10);
     top_k := js_or_default (opt_top_k options) 40 |}.

(** [{ max_tokens: 1 }] *)
Definition warmup_options : ModelOptions :=
  {| opt_max_tokens := Some (JsNum 1); opt_temperature := None;
     opt_top_p := None; opt_top_k := None |}.

Section LocalModels.

(** [this.modelConfig] and the answers of the Ollama server. *)
Variable modelConfig : gmap string ModelConfig.
Variable ollama : OllamaRequest -> string + RequestError.

(** [makeRequest]: the response, or the message of the error thrown. *)
Definition makeRequest (modelName : option string) (prompt : string)
    (options : ModelOptions) : string + string :=
  match ollama (ollama_request modelName prompt options) with
  | inl response => inl response
  | inr e =>
      if bool_decide (error_code e = Some "ECONNREFUSED")
      then inr "Ollama service is not running"
      else inr (error_message e)
  end.

(** [loadModel] on the set [loadedModels]: the status returned, or the
    message of the error thrown, and the set afterwards. *)
Definition loadModel (modelName : option string) (loadedModels : gset (option string))
  : (string + string) * gset (option string) :=
  if bool_decide (modelName ∈ loadedModels)
  then (inl "already_loaded", loadedModels)
  else
    match makeRequest modelName "Hello" warmup_options with
    | inl _ => (inl "loaded", {[modelName]} ∪ loadedModels)
    | inr message => (inr message, loadedModels)
    end.

Definition unloadModel (modelName : option string) (loadedModels : gset (option string))
  : string * gset (option string) :=
  ("unloaded", loadedModels ∖ {[modelName]}).

(** [process]: [startTime] and [endTime] are the two readings of the
    clock. *)
Definition local_process (startTime endTime : Q) (modelKey text : string)
    (options : ModelOptions) (loadedModels : gset (option string))
  : ProcessResult * gset (option string) :=
  let elapsed := (endTime - startTime)%Q in
  match config_entry modelConfig modelKey with
  | None =>
      (failed_process "local" modelKey ("Unknown model key: " +:+ modelKey) elapsed,
       loadedModels)
  | Some cfg =>
      let modelName := config_model cfg in
      match loadModel modelName loadedModels with
      | (inr message, loaded') =>
          (failed_process "local" modelKey message elapsed, loaded')
      | (inl _, loaded') =>
          match makeRequest modelName text (request_options cfg options) with
          | inr message => (failed_process "local" modelKey message elapsed, loaded')
          | inl response =>
              ({| process_result := Some response; process_error := None;
                  process_model := modelName; processing_time := elapsed;
                  process_status := "success"; route_type := "local";
                  estimated_cost := Some 0%Q |}, loaded')
          end
      end
  end.

End LocalModels.

(** An entry of [requestCount]. *)
Record Usage : Type := {
  usage_count : nat;
  totalTime : Q;
  totalCost : Q
}.

(** The counters of the [CloudModelManager]. *)
Record CloudManager : Type := {
  requestCount : gmap string Usage;
  cloud_costTracking : gmap string Q
}.

(** [Math.ceil(length / 4)] *)
Definition estimated_tokens (length : nat) : nat := (length + 3) / 4.

Definition calculateCost (cfg : ModelConfig) (inputContent : string)
    (outputContent : option string) : Q :=
  let inputTokens := estimated_tokens (String.length inputContent) in
  let outputTokens :=
    estimated_tokens (match outputContent with Some s => String.length s | None => 0 end) in
  let inputCost :=
    (inject_Z (Z.of_nat inputTokens) / 1000 * js_num_or (cost_per_1k_input cfg) (1 # 1000))%Q in
  let outputCost :=
    (inject_Z (Z.of_nat outputTokens) / 1000 * js_num_or (cost_per_1k_output cfg) (2 # 1000))%Q in
  (inputCost + outputCost)%Q.

Definition updateUsageStats (now modelKey : string) (processingTime cost : Q)
    (st : CloudManager) : CloudManager :=
  let existing :=
    default {| usage_count := 0; totalTime := 0; totalCost := 0 |}
            (requestCount st !! modelKey) in
  let updated :=
    {| usage_count := S (usage_count existing);
       totalTime := (totalTime existing + processingTime)%Q;
       totalCost := (totalCost existing + cost)%Q |} in
  let today := Js.before "T" now in
  let dailyCost := default 0%Q (cloud_costTracking st !! today) in
  {| requestCount := <[modelKey := updated]> (requestCount st);
     cloud_costTracking := <[today := (dailyCost + cost)%Q]> (cloud_costTracking st) |}.

(** [getDailyCost] of the cloud manager. *)
Definition cloud_getDailyCost (now : string) (st : CloudManager) : Q :=
  default 0%Q (cloud_costTracking st !! Js.before "T" now).

Definition getTotalRequests (st : CloudManager) : nat :=
  map_fold (fun _ stats sum => sum + usage_count stats) 0 (requestCount st).

Section CloudModels.

(** [this.modelConfig] and the answers of the Abacus.AI server: the content
    of the first choice, which may be missing, or an error. *)
Variable cloudConfig : gmap string ModelConfig.
Variable abacus : AbacusRequest -> option string + AbacusError.

(** [makeAbacusRequest]: the content, or the message of the error thrown. *)
Definition makeAbacusRequest (modelName : option string) (text : string)
    (options : ModelOptions) : option string + string :=
  let requestData :=
    {| abacus_model := modelName;
       abacus_content := text;
       abacus_max_tokens := js_or_default (opt_max_tokens options) 1000;
       abacus_temperature := js_or_default (opt_temperature options) (7 # 10) |} in
  match abacus requestData with
  | inl content => inl content
  | inr (ErrorResponse status_code api_message) =>
      inr ("Abacus.AI API error: " +:+ pretty status_code +:+ " - "
             +:+ default "Unknown error" (Js.or_else api_message (Some "Unknown error")))
  | inr (NoResponse message) => inr message
  end.

(** [process] of the cloud manager: [now] is the clock of
    [updateUsageStats]. *)
Definition cloud_process (now : string) (startTime endTime : Q)
    (modelKey text : string) (options : ModelOptions) (st : CloudManager)
  : ProcessResult * CloudManager :=
  let elapsed := (endTime - startTime)%Q in
  match config_entry cloudConfig modelKey with
  | None =>
      (failed_process "cloud" modelKey ("Unknown cloud model key: " +:+ modelKey) elapsed,
       st)
  | Some cfg =>
      match makeAbacusRequest (config_model cfg) text (request_options cfg options) with
      | inr message => (failed_process "cloud" modelKey message elapsed, st)
      | inl response =>
          let estimatedCost := calculateCost cfg text response in
          ({| process_result := response; process_error := None;
              process_model := config_model cfg; processing_time := elapsed;
              process_status := "success"; route_type := "cloud";
              estimated_cost := Some estimatedCost |},
           updateUsageStats now modelKey elapsed estimatedCost st)
      end
  end.

End CloudModels.

(** [local_models] and [cloud_models] of config/router_config.json. *)
Definition local_model (name : string) (tokens temp : Q) : ModelConfig :=
  {| config_model := Some name; max_tokens := Some tokens; temperature := Some temp;
     cost_per_1k_input := None; cost_per_1k_output := None |}.

Definition cloud_model (name : string) (tokens temp input output : Q) : ModelConfig :=
  {| config_model := Some name; max_tokens := Some tokens; temperature := Some temp;
     cost_per_1k_input := Some input; cost_per_1k_output := Some output |}.

Definition local_models : gmap string ModelConfig :=
  list_to_map
    [("classification", local_model "llama3.2:3b" 100 (1 # 10));
     ("general_processing", local_model "llama3.1:8b" 1000 (7 # 10));
     ("vision_analysis", local_model "llama3.2-vision:11b" 500 (5 # 10));
     ("document_processing", local_model "deepseek-coder:6.7b" 2000 (3 # 10));
     ("complex_reasoning", local_model "llama3.1:70b" 2000 (4 # 10))].

Definition cloud_models : gmap string ModelConfig :=
  list_to_map
    [("abacus_gpt4o", cloud_model "gpt-4o" 4000 (7 # 10) (5 # 1000) (15 # 1000));
     ("abacus_claude",
      cloud_model "claude-3-sonnet-20240229" 4000 (5 # 10) (3 # 1000) (15 # 1000));
     ("abacus_claude_haiku",
      cloud_model "claude-3-haiku-20240307" 1000 (3 # 10) (25 # 100000) (125 # 100000))].

(** A server that answers every request. *)
Definition answering_ollama (request : OllamaRequest) : string + RequestError :=
  inl "ok".

Definition answering_abacus (request : AbacusRequest) : option string + AbacusError :=
  inl (Some "ok").

(** The object of a manager as a JSON value, by its status alone. *)
Definition status_only (r : ProcessResult) : JsValue :=
  JsObj [("status", JsStr (process_status r))].

Definition no_usage : CloudManager :=
  {| requestCount := ∅; cloud_costTracking := ∅ |}.

Definition no_model_options : ModelOptions :=
  {| opt_max_tokens := None; opt_temperature := None; opt_top_p := None;
     opt_top_k := None |}.

(** The pairs of [route_to] and [model] that the decisions of the router
    carry (theorem [routed_model_is_configured]). *)
Definition routes : list (string * string) :=
  [("local", "vision_analysis"); ("cloud", "abacus_gpt4o"); ("local", "classification");
   ("local", "complex_reasoning"); ("cloud", "abacus_claude");
   ("local", "general_processing"); ("cloud", "abacus_claude_haiku")].

(** ** The controller with its two managers

    [this.localModels.process] and [this.cloudModels.process] as the
    backends of [executeRouting]. For the call made for the item at a
    position: the answers of the servers, the readings of the clock, the
    models loaded and the counters when the call starts. [model_options]
    reads the options of the request as options of a model, and [encode]
    is the object returned as a JSON value. [local_other] and [cloud_other]
    are the objects returned for a content that is not a string. *)
Section Assembly.

Variables localConfig cloudConfig : gmap string ModelConfig.
Variable ollama : nat -> OllamaRequest -> string + RequestError.
Variable abacus : nat -> AbacusRequest -> option string + AbacusError.
Variable clock : nat -> string.
Variables startTime endTime : nat -> Q.
Variable loadedModels : nat -> gset (option string).
Variable usage : nat -> CloudManager.
Variable model_options : Options -> ModelOptions.
Variable encode : ProcessResult -> JsValue.
Variables local_other cloud_other : nat -> string -> Options -> JsValue.

Definition local_result (pos : nat) (modelKey text : string) (options : Options)
  : ProcessResult :=
  (local_process localConfig (ollama pos) (startTime pos) (endTime pos) modelKey text
                 (model_options options) (loadedModels pos)).1.

Definition cloud_result (pos : nat) (modelKey text : string) (options : Options)
  : ProcessResult :=
  (cloud_process cloudConfig (abacus pos) (clock pos) (startTime pos) (endTime pos)
                 modelKey text (model_options options) (usage pos)).1.

(** Neither [process] throws, whatever the content is: each has all of its
    body in a [try] whose [catch] returns an object. *)
Definition localModels_process (pos : nat) (modelKey : string) (content : option string)
    (options : Options) : JsValue + string :=
  inl match content with
      | Some text => encode (local_result pos modelKey text options)
      | None => local_other pos modelKey options
      end.

Definition cloudModels_process (pos : nat) (modelKey : string) (content : option string)
    (options : Options) : JsValue + string :=
  inl match content with
      | Some text => encode (cloud_result pos modelKey text options)
      | None => cloud_other pos modelKey options
      end.

End Assembly.

(** ** WorkflowEngine

    [workflows] and [activeJobs] are the two maps of the engine. The
    templates are [Object.entries] of [workflow_orchestration] and of its
    categories; of an entry only [schedule] and [steps] are read. *)

Record Workflow : Type := {
  schedule : option string;
  steps : option (list string)
}.

Definition WorkflowTemplates : Type := list (string * list (string * Workflow)).

(** A job of [cron.schedule]. *)
Record Job : Type := {
  cron_expression : string;
  job_running : bool
}.

Record WorkflowEngine : Type := {
  workflows : gmap string Workflow;
  activeJobs : gmap string Job
}.

Definition loadWorkflowTemplates (templates : WorkflowTemplates)
    (ws : gmap string Workflow) : gmap string Workflow :=
  List.fold_left
    (fun ws category =>
       List.fold_left
         (fun ws entry => <[category.1 +:+ "." +:+ entry.1 := entry.2]> ws)
         category.2 ws)
    templates ws.

(** [templates.scraping_workflows] *)
Fixpoint get_category (name : string) (templates : WorkflowTemplates)
  : option (list (string * Workflow)) :=
  match templates with
  | [] => None
  | category :: rest =>
      if String.eqb category.1 name then Some category.2 else get_category name rest
  end.

Section Scheduling.

(** The message of the error that [cron.schedule] throws on an expression,
    if it throws. *)
Variable cron_error : string -> option string.

(** The loop of [scheduleAutomaticWorkflows]: the message of the error
    thrown, if any, and the jobs afterwards. *)
Fixpoint schedule_entries (entries : list (string * Workflow)) (jobs : gmap string Job)
  : option string * gmap string Job :=
  match entries with
  | [] => (None, jobs)
  | entry :: rest =>
      if Js.falsy (schedule entry.2)
      then schedule_entries rest jobs
      else
        let expression := default "" (schedule entry.2) in
        match cron_error expression with
        | Some message => (Some message, jobs)
        | None =>
            schedule_entries rest
              (<[entry.1 := {| cron_expression := expression; job_running := true |}]>
                 jobs)
        end
  end.

Definition scheduleAutomaticWorkflows (templates : WorkflowTemplates)
    (jobs : gmap string Job) : option string * gmap string Job :=
  match get_category "scraping_workflows" templates with
  | None => (Some "Cannot convert undefined or null to object", jobs)
  | Some scrapingWorkflows => schedule_entries scrapingWorkflows jobs
  end.

(** [initialize] on a new engine. *)
Definition initialize_engine (templates : WorkflowTemplates)
  : option string * WorkflowEngine :=
  let ws := loadWorkflowTemplates templates ∅ in
  let scheduled := scheduleAutomaticWorkflows templates ∅ in
  (scheduled.1, {| workflows := ws; activeJobs := scheduled.2 |}).

End Scheduling.

(** What [executeStep] returns. *)
Record StepResult : Type := {
  result_step : string;
  step_input : JsValue;
  step_output : JsValue;
  step_status : string
}.

(** An entry of [steps_completed]. *)
Record StepRecord : Type := {
  completed_step : string;
  completed_result : StepResult;
  completed_timestamp : string
}.

(** What [execute] returns. *)
Record Execution : Type := {
  executed_workflow : string;
  execution_result : JsValue;
  execution_duration : Q;
  steps_completed : list StepRecord;
  execution_status : string
}.

Definition executeStep (step : string) (data : JsValue) : StepResult :=
  {| result_step := step; step_input := data; step_output := data;
     step_status := "completed" |}.

(** The loop of [executeSteps]: [stamps] gives the clock at each step,
    [completed] is [context.steps_completed]. *)
Fixpoint executeSteps (stamps : nat -> string) (l : list string) (i : nat)
    (currentData : JsValue) (completed : list StepRecord)
  : JsValue * list StepRecord :=
  match l with
  | [] => (currentData, completed)
  | step :: rest =>
      let stepResult := executeStep step currentData in
      executeSteps stamps rest (S i)
        (if truthy (step_output stepResult) then step_output stepResult else currentData)
        (completed ++ [{| completed_step := step; completed_result := stepResult;
                          completed_timestamp := stamps i |}])
  end.

(** [input.query], for the value of [query] in the object built: the last
    field of the name. *)
Fixpoint get_field (name : string) (fields : list (string * JsValue)) : option JsValue :=
  match fields with
  | [] => None
  | field :: rest =>
      match get_field name rest with
      | Some v => Some v
      | None => if String.eqb field.1 name then Some field.2 else None
      end
  end.

Definition executeSearchAndAnalyze (input : JsValue) (now : string) : JsValue + string :=
  match input with
  | JsNull =>
      inr "Cannot destructure property 'query' of 'context.input_data' as it is null."
  | _ =>
      let query :=
        match input with
        | JsObj fields => get_field "query" fields
        | _ => None
        end in
      inl (JsObj ([("type", JsStr "search_and_analyze")]
                    ++ match query with Some v => [("query", v)] | None => [] end
                    ++ [("search_results", JsArr []); ("analysis", JsObj []);
                        ("timestamp", JsStr now)])%list)
  end.

Definition executeBusinessLogic (workflowName : string) (input : JsValue) (now : string)
  : JsValue + string :=
  if String.eqb workflowName "scraping_workflows.patreon_monitor"
  then inl (JsObj [("type", JsStr "patreon_monitoring"); ("new_posts_found", JsNum 0);
                   ("processed_content", JsArr []); ("timestamp", JsStr now)])
  else if String.eqb workflowName "scraping_workflows.deep_analysis"
  then inl (JsObj [("type", JsStr "deep_analysis"); ("analysis_results", JsObj []);
                   ("trends_identified", JsArr []); ("timestamp", JsStr now)])
  else if String.eqb workflowName "dynamic_workflows.user_triggered.search_and_analyze"
  then executeSearchAndAnalyze input now
  else inr ("No business logic defined for workflow: " +:+ workflowName).

(** [execute]: what it returns, or the message of the error it throws.
    [startTime] and [endTime] are the clock at the start and at the end,
    [now] the clock in the business logic. *)
Definition execute (ws : gmap string Workflow) (startTime endTime : Q) (now : string)
    (stamps : nat -> string) (workflowName : string) (inputData : JsValue)
  : Execution + string :=
  match ws !! workflowName with
  | None => inr ("Workflow not found: " +:+ workflowName)
  | Some workflow =>
      match steps workflow with
      | Some l =>
          let done := executeSteps stamps l 0 inputData [] in
          inl {| executed_workflow := workflowName; execution_result := done.1;
                 execution_duration := (endTime - startTime)%Q;
                 steps_completed := done.2; execution_status := "completed" |}
      | None =>
          match executeBusinessLogic workflowName inputData now with
          | inl res =>
              inl {| executed_workflow := workflowName; execution_result := res;
                     execution_duration := (endTime - startTime)%Q;
                     steps_completed := []; execution_status := "completed" |}
          | inr message => inr message
          end
      end
  end.

(** What [getWorkflowStatus] returns. *)
Record WorkflowStatus : Type := {
  status_exists : bool;
  status_scheduled : bool;
  status_definition : option Workflow
}.

Definition getWorkflowStatus (workflowName : string) (e : WorkflowEngine)
  : WorkflowStatus :=
  {| status_exists := bool_decide (is_Some (workflows e !! workflowName));
     status_scheduled := bool_decide (is_Some (activeJobs e !! workflowName));
     status_definition := workflows e !! workflowName |}.

Definition stopScheduledWorkflow (workflowName : string) (e : WorkflowEngine)
  : bool * WorkflowEngine :=
  match activeJobs e !! workflowName with
  | Some job =>
      (true, {| workflows := workflows e;
                activeJobs := delete workflowName (activeJobs e) |})
  | None => (false, e)
  end.

Definition startScheduledWorkflow (workflowName : string) (e : WorkflowEngine)
  : bool * WorkflowEngine :=
  match activeJobs e !! workflowName with
  | Some job =>
      (true, {| workflows := workflows e;
                activeJobs :=
                  <[workflowName := {| cron_expression := cron_expression job;
                                       job_running := true |}]> (activeJobs e) |})
  | None => (false, e)
  end.

(** [workflow_orchestration] of config/workflow_config.json. *)
Definition no_definition : Workflow := {| schedule := None; steps := None |}.

Definition workflow_orchestration : WorkflowTemplates :=
  [("scraping_workflows",
    [("patreon_monitor",
      {| schedule := Some "*/5 * * * *";
         steps := Some ["extract_new_content"; "classify_content_type";
                        "route_for_processing"; "extract_insights"; "store_results";
                        "trigger_alerts_if_needed"] |});
     ("deep_analysis",
      {| schedule := Some "0 2 * * *";
         steps := Some ["retrieve_recent_content"; "batch_process_with_advanced_models";
                        "generate_comprehensive_reports";
                        "identify_trends_and_patterns"] |})]);
   ("dynamic_workflows",
    [("user_triggered", no_definition); ("automated_discovery", no_definition)])].

(** The states of an engine: initialized from templates, then jobs are
    stopped and started. *)
Inductive engine_reachable (cron_error : string -> option string)
    (templates : WorkflowTemplates) : WorkflowEngine -> Prop :=
| engine_initialized :
    engine_reachable cron_error templates (initialize_engine cron_error templates).2
| engine_stopped workflowName e :
    engine_reachable cron_error templates e ->
    engine_reachable cron_error templates (stopScheduledWorkflow workflowName e).2
| engine_started workflowName e :
    engine_reachable cron_error templates e ->
    engine_reachable cron_error templates (startScheduledWorkflow workflowName e).2.

(** A name without a dot. *)
Definition no_dot (name : string) : bool :=
  Js.all_chars (fun x => negb (Ascii.eqb x ".")) name.

(** ** PerformanceMonitor

    [this.metrics] is a [Map]: its entries in the order of insertion. *)

Record MetricsEntry : Type := {
  router_status : JsValue;
  ollama_models : nat;
  entry_timestamp : string
}.

(** [map.set(key, value)]: a key that is there keeps its place. *)
Fixpoint map_set {V : Type} (key : string) (value : V) (m : list (string * V))
  : list (string * V) :=
  match m with
  | [] => [(key, value)]
  | entry :: rest =>
      if String.eqb entry.1 key then (key, value) :: rest
      else entry :: map_set key value rest
  end.

(** [collectMetrics]: [observed] is what the two services have answered,
    [None] when a request or the reading of an answer has thrown. *)
Definition collectMetrics (observed : option (JsValue * nat)) (timestamp : string)
    (metrics : list (string * MetricsEntry)) : list (string * MetricsEntry) :=
  match observed with
  | None => metrics
  | Some answer =>
      let metrics' :=
        map_set timestamp
          {| router_status := answer.1; ollama_models := answer.2;
             entry_timestamp := timestamp |} metrics in
      if Nat.ltb 100 (List.length metrics') then List.tl metrics' else metrics'
  end.

(** The entries that a run of collections has stored, the oldest first. *)
Definition stored_entries (run : list (option (JsValue * nat) * string))
  : list (string * MetricsEntry) :=
  omap (fun collection =>
          (fun answer =>
             (collection.2,
              {| router_status := answer.1; ollama_models := answer.2;
                 entry_timestamp := collection.2 |})) <$> collection.1) run.

Definition collect_all (run : list (option (JsValue * nat) * string))
    (metrics : list (string * MetricsEntry)) : list (string * MetricsEntry) :=
  List.fold_left (fun metrics collection =>
                    collectMetrics collection.1 collection.2 metrics) run metrics.

(** * Properties *)

(** ** The digests on the standard test vectors *)

Example sha256_hex_abc :
  Digest.sha256_hex "abc"
  = "ba7816bf8f01cfea414140de5dae2223b00361a396177a9cb410ff61f20015ad".
Proof. vm_compute. reflexivity. Qed.

Example sha256_hex_empty :
  Digest.sha256_hex ""
  = "e3b0c44298fc1c149afbf4c8996fb92427ae41e4649b934ca495991b7852b855".
Proof. vm_compute. reflexivity. Qed.

Example md5_hex_abc : Digest.md5_hex "abc" = "900150983cd24fb0d6963f7d28e17f72".
Proof. vm_compute. reflexivity. Qed.

(** ** The reprocessing policy *)

Section Policy.

Implicit Types r : ProcessingRecord.

Lemma shouldReprocess_forced r :
  force_reprocess_flag r = Some true ->
  shouldReprocess r
  = {| should_reprocess := true; reason := "force_reprocess_requested" |}.
Proof.
  intros Hflag. unfold shouldReprocess.
  rewrite bool_decide_eq_true_2 by exact Hflag. reflexivity.
Qed.

(** Without a [status] field equal to ['failed'] the retry rule does not
    fire, whatever the other fields are. *)
Lemma shouldReprocess_not_retry r :
  status r <> Some "failed" ->
  reason (shouldReprocess r) <> "retry_failed_processing".
Proof.
  intros Hstatus. unfold shouldReprocess.
  rewrite (bool_decide_eq_false_2 _ Hstatus). cbn [andb].
  repeat (case_match; cbn [reason]; try discriminate).
Qed.

(** What the third rule tests, on a record that passes the first two
    rules: the score, and the order of the version strings as strings. *)
Lemma shouldReprocess_quality_rule r :
  force_reprocess_flag r <> Some true ->
  status r <> Some "failed" ->
  reason (shouldReprocess r) = "quality_improvement_available"
  <-> js_num_lt (quality_score r) (7 # 10) = true
      /\ js_string_lt (processing_version r) getCurrentProcessingVersion = true.
Proof.
  intros Hflag Hstatus. unfold shouldReprocess, hasNewerProcessingVersion.
  rewrite (bool_decide_eq_false_2 _ Hflag), (bool_decide_eq_false_2 _ Hstatus).
  cbn [andb].
  destruct (js_num_lt _ _), (js_string_lt _ _); cbn [andb reason];
    try case_match; cbn [reason];
    (split; [try discriminate; intros _; split; reflexivity
            | try reflexivity; intros [? ?]; discriminate]).
Qed.

End Policy.

(** C2. A record with [force_reprocess_flag] true, [status] ['failed'] and
    [error_count] 0 satisfies the retry rule, and [shouldReprocess] answers
    [should_reprocess: true] with the reason ['force_reprocess_requested']:
    the force rule comes first. *)
Theorem force_rule_preempts_retry_rule (r : ProcessingRecord) :
  force_reprocess_flag r = Some true ->
  status r = Some "failed" ->
  error_count r = Some (Value 0%Z) ->
  bool_decide (status r = Some "failed") && js_int_lt (error_count r) 3 = true
  /\ shouldReprocess r
     = {| should_reprocess := true; reason := "force_reprocess_requested" |}.
Proof.
  intros Hflag Hstatus Hcount. split.
  - rewrite Hstatus, Hcount. reflexivity.
  - apply shouldReprocess_forced, Hflag.
Qed.

Lemma force_rule_preempts_retry_rule_witness :
  bool_decide (status forced_failed_record = Some "failed")
    && js_int_lt (error_count forced_failed_record) 3 = true
  /\ shouldReprocess forced_failed_record
     = {| should_reprocess := true; reason := "force_reprocess_requested" |}.
Proof.
  apply (force_rule_preempts_retry_rule forced_failed_record); reflexivity.
Defined.

(** C3. The version test of the quality rule is the order of strings: on a
    record of score 0.5 and version ["10.0.0"], which is not an older version
    than ["2.0.0"], [shouldReprocess] answers
    ['quality_improvement_available']. *)
Theorem quality_rule_compares_versions_as_strings :
  force_reprocess_flag record_of_version_10 <> Some true
  /\ status record_of_version_10 <> Some "failed"
  /\ older_version "10.0.0" getCurrentProcessingVersion = false
  /\ hasNewerProcessingVersion (Some "10.0.0") = true
  /\ shouldReprocess record_of_version_10
     = {| should_reprocess := true; reason := "quality_improvement_available" |}.
Proof. repeat split; try discriminate; vm_compute; reflexivity. Qed.

(** ** The store *)

Section StoreFacts.

Implicit Types (st : Store) (r : ProcessingRecord) (fp : Fingerprint).

Lemma mark_for_reprocessing_twice why r :
  mark_for_reprocessing why (mark_for_reprocessing why r)
  = mark_for_reprocessing why r.
Proof. reflexivity. Qed.

(** One turn of the loop of [forceReprocess]. *)
Lemma reprocess_hashes_step why st h k :
  (if st !! h is Some info then <[h := mark_for_reprocessing why info]> st else st)
    !! k
  = if decide (k = h) then mark_for_reprocessing why <$> st !! k else st !! k.
Proof.
  destruct (decide (k = h)) as [->|Hne].
  - destruct (st !! h) as [info|] eqn:Hh.
    + apply lookup_insert_eq.
    + exact Hh.
  - destruct (st !! h) as [info|]; [|reflexivity].
    apply lookup_insert_ne. congruence.
Qed.

(** The loop of [forceReprocess] marks the records found under the hashes
    of the list and leaves the others as they are. *)
Lemma reprocess_hashes_lookup why hashes st k :
  reprocess_hashes why hashes st !! k
  = if decide (k ∈ hashes) then mark_for_reprocessing why <$> st !! k
    else st !! k.
Proof.
  unfold reprocess_hashes, saveToDatabase. cbn zeta. revert st.
  induction hashes as [|h hashes IH]; intros st; cbn [List.fold_left].
  - rewrite decide_False by apply not_elem_of_nil. reflexivity.
  - rewrite IH, reprocess_hashes_step. clear IH.
    destruct (decide (k = h)) as [->|Hne],
             (decide (_ ∈ hashes)) as [Hin|Hnin],
             (decide (_ ∈ h :: hashes)) as [Hc|Hc];
      try reflexivity;
      try (destruct (st !! h); reflexivity);
      exfalso; revert Hc; rewrite elem_of_cons; tauto.
Qed.

Lemma forceReprocess_unchanged identifier why st :
  forceReprocess identifier why st = st.
Proof. reflexivity. Qed.

Lemma markAsCompleted_lookup now fp res q st :
  markAsCompleted now fp res q st !! primary_fingerprint fp
  = Some (completedInfo now fp res q).
Proof. apply lookup_insert_eq. Qed.

End StoreFacts.

(** C4, as stated, fails: in the store that holds a completed record under
    the fingerprint of the URL, after [forceReprocess] with that URL the
    record is still ['completed'], its flag false, and it has no
    [reprocess_reason]. *)
Lemma forceReprocess_url_counterexample :
  exists r,
    forceReprocess "https://x.com/posts/123" (Some "manual_request") x_store
      !! primary_fingerprint (generateContentFingerprint x_item) = Some r
    /\ processing_status r = Some "completed"
    /\ processing_status r <> Some "needs_reprocessing"
    /\ force_reprocess_flag r = Some false
    /\ reprocess_reason r = None.
Proof.
  eexists. split.
  - rewrite forceReprocess_unchanged. apply markAsCompleted_lookup.
  - cbn. repeat split. discriminate.
Qed.

(** C4, amended. When the lookup resolves the identifier to a hash under
    which the store holds a record, [forceReprocess] leaves that record with
    the processing status ['needs_reprocessing'], the flag true and the
    reason given, its other fields as they were. The lookup of the
    repository resolves every identifier to nothing, and with it
    [forceReprocess] leaves the store as it is. *)
Theorem forceReprocess_marks_resolved_records
    (find : string -> list string) (identifier why hash : string)
    (st : Store) (r : ProcessingRecord) :
  hash ∈ find identifier ->
  st !! hash = Some r ->
  (exists r',
      forceReprocess_with find identifier (Some why) st !! hash = Some r'
      /\ r' = mark_for_reprocessing why r
      /\ processing_status r' = Some "needs_reprocessing"
      /\ force_reprocess_flag r' = Some true
      /\ reprocess_reason r' = Some why)
  /\ forceReprocess identifier (Some why) st = st.
Proof.
  intros Hin Hr. split; [|apply forceReprocess_unchanged].
  exists (mark_for_reprocessing why r). split; [|repeat split].
  unfold forceReprocess_with. cbn [default].
  rewrite reprocess_hashes_lookup, decide_True by exact Hin.
  rewrite Hr. reflexivity.
Qed.

Lemma forceReprocess_marks_resolved_records_witness :
  let hash := primary_fingerprint (generateContentFingerprint x_item) in
  let find := fun identifier : string =>
                if String.eqb identifier "https://x.com/posts/123" then [hash] else [] in
  (exists r',
      forceReprocess_with find "https://x.com/posts/123" (Some "manual_request") x_store
        !! hash = Some r'
      /\ r' = mark_for_reprocessing "manual_request"
                (completedInfo "2024-05-01T10:00:00.000Z"
                   (generateContentFingerprint x_item) (JsStr "summary") None)
      /\ processing_status r' = Some "needs_reprocessing"
      /\ force_reprocess_flag r' = Some true
      /\ reprocess_reason r' = Some "manual_request")
  /\ forceReprocess "https://x.com/posts/123" (Some "manual_request") x_store = x_store.
Proof.
  intros hash find.
  apply (forceReprocess_marks_resolved_records find).
  - cbn. apply elem_of_cons. left. reflexivity.
  - apply markAsCompleted_lookup.
Defined.

(** C8. Two calls of [markAsCompleted] in a row with the same fingerprint,
    result and score leave the store that the later call alone leaves; the
    record under the fingerprint has the processing status ['completed'],
    [error_count] 0, the flag false, the result and the score given (0.8 by
    default), and [last_processed] is the time of the later call. *)
Theorem markAsCompleted_twice (now1 now2 : string) (fp : Fingerprint)
    (res : JsValue) (q : option Q) (st : Store) :
  let once := markAsCompleted now2 fp res q st in
  let twice := markAsCompleted now2 fp res q (markAsCompleted now1 fp res q st) in
  twice = once
  /\ exists r,
      twice !! primary_fingerprint fp = Some r
      /\ processing_status r = Some "completed"
      /\ error_count r = Some (Value 0%Z)
      /\ force_reprocess_flag r = Some false
      /\ result r = Some res
      /\ quality_score r = Some (Value (default (8 # 10) q))
      /\ last_processed r = Some now2.
Proof.
  cbn zeta. split.
  - unfold markAsCompleted. apply insert_insert_eq.
  - eexists. split; [apply markAsCompleted_lookup | repeat split].
Qed.

Lemma written_records_have_no_status (st : Store) :
  written_by_store st ->
  forall k r, st !! k = Some r ->
    status r = None
    /\ (processing_status r = Some "processing"
        \/ processing_status r = Some "completed").
Proof.
  induction 1 as [|now fp c st _ IH|now fp res q st _ IH]; intros k r Hk.
  - rewrite lookup_empty in Hk. discriminate.
  - unfold markAsProcessing, saveToDatabase in Hk. cbn in Hk.
    destruct (decide (primary_fingerprint fp = k)) as [<-|Hne].
    + rewrite lookup_insert_eq in Hk. injection Hk as <-. cbn. auto.
    + rewrite lookup_insert_ne in Hk by exact Hne. eauto.
  - unfold markAsCompleted, saveToDatabase in Hk. cbn zeta in Hk.
    destruct (decide (primary_fingerprint fp = k)) as [<-|Hne].
    + rewrite lookup_insert_eq in Hk. injection Hk as <-. cbn. auto.
    + rewrite lookup_insert_ne in Hk by exact Hne. eauto.
Qed.

(** C9. A record of a store built by [markAsProcessing] and
    [markAsCompleted] has its state in [processing_status] and no [status]
    field; [shouldReprocess] does not answer ['retry_failed_processing'] on
    it, and [checkIfProcessed] on a content item of its fingerprint answers a
    duplicate whose [processing_status] is undefined. *)
Theorem store_records_have_no_status_field (st : Store) (k : string)
    (r : ProcessingRecord) :
  written_by_store st ->
  st !! k = Some r ->
  status r = None
  /\ (processing_status r = Some "processing"
      \/ processing_status r = Some "completed")
  /\ reason (shouldReprocess r) <> "retry_failed_processing"
  /\ forall c : ContentItem,
      primary_fingerprint (generateContentFingerprint c) = k ->
      is_duplicate (checkIfProcessed c st).1 = true
      /\ dup_processing_status (checkIfProcessed c st).1 = None.
Proof.
  intros Hst Hk.
  destruct (written_records_have_no_status st Hst k r Hk) as [Hstatus Hps].
  split; [exact Hstatus|]. split; [exact Hps|]. split.
  - apply shouldReprocess_not_retry. rewrite Hstatus. discriminate.
  - intros c Hc. unfold checkIfProcessed. rewrite Hc, Hk. cbn.
    split; [reflexivity | exact Hstatus].
Qed.

Lemma store_records_have_no_status_field_witness :
  let k := primary_fingerprint (generateContentFingerprint x_item) in
  let r := completedInfo "2024-05-01T10:00:00.000Z"
             (generateContentFingerprint x_item) (JsStr "summary") None in
  status r = None
  /\ (processing_status r = Some "processing"
      \/ processing_status r = Some "completed")
  /\ reason (shouldReprocess r) <> "retry_failed_processing"
  /\ forall c : ContentItem,
      primary_fingerprint (generateContentFingerprint c) = k ->
      is_duplicate (checkIfProcessed c x_store).1 = true
      /\ dup_processing_status (checkIfProcessed c x_store).1 = None.
Proof.
  intros k r.
  apply (store_records_have_no_status_field x_store k r).
  - apply written_completed, written_empty.
  - apply markAsCompleted_lookup.
Defined.

(** ** The router *)

Section RouterFacts.

Implicit Types (r : Router) (d : RoutingDecision) (o : Options).

Lemma Q_ltb_lt x y : Q_ltb x y = true <-> (x < y)%Q.
Proof.
  unfold Q_ltb. rewrite negb_true_iff, <- not_true_iff_false, Qle_bool_iff.
  split; [apply Qnot_le_lt | apply Qlt_not_le].
Qed.

Lemma Q_ltb_ge x y : (y <= x)%Q -> Q_ltb x y = false.
Proof.
  intros Hle. destruct (Q_ltb x y) eqn:Hlt; [|reflexivity].
  apply Q_ltb_lt in Hlt. exfalso. exact (Qlt_not_le _ _ Hlt Hle).
Qed.

Lemma Qle_bool_false x y : Qle_bool x y = false <-> (y < x)%Q.
Proof.
  rewrite <- not_true_iff_false, Qle_bool_iff.
  split; [apply Qnot_le_lt | apply Qlt_not_le].
Qed.

Lemma Q_ltb_false x y : Q_ltb x y = false <-> (y <= x)%Q.
Proof. unfold Q_ltb. rewrite negb_false_iff. apply Qle_bool_iff. Qed.

(** No call assigns to [costTracking] or to [config]. *)
Lemma run_call_costTracking r c :
  costTracking (run_call r c) = costTracking r /\ config (run_call r c) = config r.
Proof. destruct c; split; reflexivity. Qed.

Lemma reachable_costTracking cfg r :
  reachable cfg r -> costTracking r = ∅ /\ config r = cfg.
Proof.
  induction 1 as [|r c _ [IHcost IHcfg]].
  - split; reflexivity.
  - destruct (run_call_costTracking r c) as [-> ->]. split; assumption.
Qed.

Lemma cost_guard_below_threshold now r d o :
  (getDailyCost now r <= high_cost (config r))%Q -> cost_guard now r d o = d.
Proof.
  intros Hle. unfold cost_guard.
  rewrite (Q_ltb_ge _ _ Hle). case_match; reflexivity.
Qed.

End RouterFacts.

(** C10. In every state a router reaches, [costTracking] is empty and
    [getDailyCost] is 0; so, the threshold [high_cost] being positive, the
    cost block of [optimizeRouting] leaves every decision as it is, for every
    options value: [optimizeRouting] is its latency block alone and does not
    switch a cloud decision to the local [complex_reasoning] model. *)
Theorem cost_override_never_applies (cfg : Config) (r : Router) :
  (0 < high_cost cfg)%Q ->
  reachable cfg r ->
  costTracking r = ∅
  /\ forall (now : string) (d : RoutingDecision) (o : Options),
      getDailyCost now r = 0%Q
      /\ cost_guard now r d o = d
      /\ optimizeRouting now r d o = latency_guard r d o.
Proof.
  intros Hpos Hr. destruct (reachable_costTracking cfg r Hr) as [Hcost Hcfg].
  split; [exact Hcost|]. intros now d o.
  assert (Hzero : getDailyCost now r = 0%Q).
  { unfold getDailyCost. rewrite Hcost, lookup_empty. reflexivity. }
  assert (Hguard : cost_guard now r d o = d).
  { apply cost_guard_below_threshold. rewrite Hzero, Hcfg.
    apply Qlt_le_weak, Hpos. }
  split; [exact Hzero|]. split; [exact Hguard|].
  unfold optimizeRouting. rewrite Hguard. reflexivity.
Qed.

Lemma cost_override_never_applies_witness :
  costTracking busy_router = ∅
  /\ forall (now : string) (d : RoutingDecision) (o : Options),
      getDailyCost now busy_router = 0%Q
      /\ cost_guard now busy_router d o = d
      /\ optimizeRouting now busy_router d o = latency_guard busy_router d o.
Proof.
  apply (cost_override_never_applies {| high_cost := 25 |} busy_router).
  - reflexivity.
  - apply reachable_call, reachable_new.
Defined.

(** C7. On a classification whose [content_type] is ['image'],
    [applyRoutingRules] answers the local [vision_analysis] model, whatever
    the text, the complexity and the categories are: so also when the
    category is trading and the complexity above 0.7. In particular it does
    on the complexity and the classification computed for an image. *)
Theorem image_rule_preempts (text : string) (complexity : ComplexityAnalysis)
    (classification : Classification) (options : Options) :
  content_type classification = Some "image" ->
  applyRoutingRules text complexity classification options = image_decision
  /\ applyRoutingRules text (analyzeComplexity text (Some "image"))
       (classifyContent text (Some "image")) options = image_decision.
Proof.
  intros Himage. unfold applyRoutingRules.
  rewrite (bool_decide_eq_true_2 _ Himage). split; reflexivity.
Qed.

Lemma image_rule_preempts_witness :
  (has_category "trading_content" (classifyContent trading_text (Some "image"))
   && Q_ltb (7 # 10) (complexity_score (analyzeComplexity trading_text (Some "image")))
   = true)
  /\ applyRoutingRules trading_text (analyzeComplexity trading_text (Some "image"))
       (classifyContent trading_text (Some "image"))
       {| cost_mode := None; priority := None; batch_size := None; batch_mode := None |}
     = image_decision.
Proof.
  split; [vm_compute; reflexivity|].
  apply (image_rule_preempts trading_text
           (analyzeComplexity trading_text (Some "image"))
           (classifyContent trading_text (Some "image"))).
  reflexivity.
Defined.

Section Complexity.

Local Open Scope Q_scope.

Lemma add_indicator_nonneg text a indexed :
  0 <= complexity_score a -> 0 <= complexity_score (add_indicator text a indexed).
Proof.
  intros Ha. unfold add_indicator.
  destruct (Nat.ltb 0 _); [|exact Ha]. cbn [complexity_score].
  rewrite <- (Qplus_0_l 0). apply Qplus_le_compat; [exact Ha|].
  rewrite <- (Qplus_0_l 0). apply Qplus_le_compat; [discriminate|].
  apply Qmult_le_0_compat; [|discriminate].
  unfold Qle; cbn. lia.
Qed.

Lemma indicators_nonneg text l a :
  0 <= complexity_score a ->
  0 <= complexity_score (List.fold_left (add_indicator text) l a).
Proof.
  revert a. induction l as [|x l IH]; intros a Ha; cbn [List.fold_left].
  - exact Ha.
  - apply IH, add_indicator_nonneg, Ha.
Qed.

End Complexity.

(** C6. The [complexity_score] of [analyzeComplexity] is between 0 and 1,
    for every text: however long it is and however many words of the
    pattern families it has. *)
Theorem complexity_score_in_unit_interval (text : string)
    (contentType : option string) :
  (0 <= complexity_score (analyzeComplexity text contentType)
   /\ complexity_score (analyzeComplexity text contentType) <= 1)%Q.
Proof.
  unfold analyzeComplexity. cbn [complexity_score]. split.
  - apply Q.min_glb; [|discriminate].
    set (a2 := List.fold_left _ _ _).
    assert (H2 : (0 <= complexity_score a2)%Q).
    { apply indicators_nonneg. destruct (Nat.ltb 5000 _); cbn; discriminate. }
    destruct (test_words _ _); [|exact H2]. cbn [complexity_score].
    rewrite <- (Qplus_0_l 0). apply Qplus_le_compat; [exact H2 | discriminate].
  - apply Q.le_min_r.
Qed.

(** ** The batch loop *)

Section Indexes.

Implicit Types (q i size : Q) (z : Z) (len n : nat).

Lemma to_integer_whole q z : (q == inject_Z z)%Q -> to_integer q = z.
Proof.
  intros Hq. unfold to_integer.
  rewrite (Qfloor_comp _ _ Hq), (Qceiling_comp _ _ Hq), Qfloor_Z, Qceiling_Z.
  destruct (Qle_bool 0 q); reflexivity.
Qed.

Lemma to_integer_floor q : (0 <= q)%Q -> to_integer q = Qfloor q /\ (0 <= Qfloor q)%Z.
Proof.
  intros Hq. unfold to_integer. rewrite (proj2 (Qle_bool_iff 0 q) Hq).
  split; [reflexivity|]. apply (Qfloor_resp_le 0 q Hq).
Qed.

Lemma slice_index_le len q : slice_index len q <= len.
Proof. unfold slice_index. destruct (Z.ltb_spec (to_integer q) 0); lia. Qed.

Lemma slice_index_floor len q :
  (0 <= q)%Q -> slice_index len q = Nat.min (Z.to_nat (Qfloor q)) len.
Proof.
  intros Hq. unfold slice_index. destruct (to_integer_floor q Hq) as [-> Hpos].
  destruct (Z.ltb_spec (Qfloor q) 0); lia.
Qed.

Lemma slice_index_whole len q n :
  (q == inject_Z (Z.of_nat n))%Q -> slice_index len q = Nat.min n len.
Proof.
  intros Hq. unfold slice_index. rewrite (to_integer_whole q _ Hq).
  destruct (Z.ltb_spec (Z.of_nat n) 0); lia.
Qed.

(** The test of the loop, on an index that is not negative. *)
Lemma loop_test len i :
  (0 <= i)%Q -> Q_ltb i (inject_Z (Z.of_nat len)) = true <-> slice_index len i < len.
Proof.
  intros Hi. rewrite Q_ltb_lt, (slice_index_floor len i Hi).
  destruct (to_integer_floor i Hi) as [_ Hpos].
  split.
  - intros Hlt.
    assert (H : (Qfloor i < Z.of_nat len)%Z).
    { rewrite Zlt_Qlt. eapply Qle_lt_trans; [apply Qfloor_le | exact Hlt]. }
    lia.
  - intros Hlt. eapply Qlt_le_trans; [apply Qlt_floor|].
    rewrite <- Zle_Qle. lia.
Qed.

Lemma loop_test_whole len i n :
  (i == inject_Z (Z.of_nat n))%Q ->
  Q_ltb i (inject_Z (Z.of_nat len)) = Nat.ltb n len.
Proof.
  intros Hi. destruct (Nat.ltb_spec n len) as [Hlt|Hge].
  - apply Q_ltb_lt. rewrite Hi, <- Zlt_Qlt. lia.
  - apply Q_ltb_false. rewrite Hi, <- Zle_Qle. lia.
Qed.

(** A turn of the loop with a size of 1 at least moves the index on. *)
Lemma slice_index_step len i size :
  (0 <= i)%Q -> (1 <= size)%Q -> slice_index len i < len ->
  slice_index len i < slice_index len (i + size).
Proof.
  intros Hi Hsize Hlt.
  assert (Hi' : (0 <= i + size)%Q).
  { apply (Qle_trans _ (0 + 0)%Q); [discriminate|].
    apply Qplus_le_compat; [exact Hi|]. apply (Qle_trans _ 1); [discriminate | exact Hsize]. }
  rewrite (slice_index_floor len i Hi) in *. rewrite (slice_index_floor len _ Hi').
  destruct (to_integer_floor i Hi) as [_ Hpos].
  assert (Hfloor : (Qfloor i + 1 <= Qfloor (i + size))%Z).
  { rewrite <- (Qfloor_Z (Qfloor i + 1)). apply Qfloor_resp_le.
    rewrite inject_Z_plus. apply Qplus_le_compat; [apply Qfloor_le | exact Hsize]. }
  lia.
Qed.

Lemma index_nonneg i size : (0 <= i)%Q -> (1 <= size)%Q -> (0 <= i + size)%Q.
Proof.
  intros Hi Hsize. apply (Qle_trans _ (0 + 0)%Q); [discriminate|].
  apply Qplus_le_compat; [exact Hi|]. apply (Qle_trans _ 1); [discriminate | exact Hsize].
Qed.

End Indexes.

Section Batch.

Variable route : nat -> option string -> option string -> Options -> RoutingDecision.
Variable localProcess cloudProcess :
  nat -> string -> option string -> Options -> JsValue + string.

Implicit Types (items : list (option Item)) (objects : list Item) (options : Options).

Local Abbreviation entry := (item_entry route localProcess cloudProcess).
Local Abbreviation process := (process_item route localProcess cloudProcess).
Local Abbreviation loop := (batch_loop route localProcess cloudProcess).

Lemma batchSize_default options :
  batch_size options = None -> batchSize options = 10%Q.
Proof. unfold batchSize. intros ->. reflexivity. Qed.

(** The entries of a whole list are those of its first group followed by
    those of the rest, at their positions. *)
Lemma imap_entry_split options i b objects :
  imap (fun j => entry options (i + j)) (List.skipn i objects)
  = (imap (fun j => entry options (i + j)) (List.firstn b (List.skipn i objects))
     ++ imap (fun j => entry options (i + b + j)) (List.skipn (i + b) objects))%list.
Proof.
  rewrite <- (take_drop b (List.skipn i objects)) at 1.
  rewrite imap_app, drop_drop. f_equal.
  destruct (decide (b <= List.length (List.skipn i objects))) as [Hle|Hgt].
  - apply imap_ext. intros j x _. cbn. rewrite length_take. f_equal. lia.
  - rewrite (drop_ge objects (i + b)); [reflexivity|].
    rewrite length_drop in Hgt. lia.
Qed.

(** The promises of items that are objects are all fulfilled. *)
Lemma promise_all_objects options first objects :
  promise_all (imap (fun j => process options (first + j)) (Some <$> objects))
  = inl (imap (fun j => entry options (first + j)) objects).
Proof.
  revert first. induction objects as [|item rest IH]; intros first; [reflexivity|].
  cbn [fmap list_fmap imap promise_all process_item].
  change (list_fmap Item (option Item) Some rest) with (Some <$> rest).
  rewrite (imap_ext _ (fun j => process options (S first + j)) (Some <$> rest))
    by (intros j x _; cbn; f_equal; lia).
  rewrite IH. do 2 f_equal. apply imap_ext. intros j x _. cbn. f_equal. lia.
Qed.

(** A [null] among the items of a batch rejects its promise. *)
Lemma promise_all_null options first items :
  None ∈ items ->
  promise_all (imap (fun j => process options (first + j)) items) = inr null_item_error.
Proof.
  revert first. induction items as [|item rest IH]; intros first Hin.
  - apply elem_of_nil in Hin. contradiction.
  - destruct item as [item|]; cbn [imap promise_all process_item]; [|reflexivity].
    apply elem_of_cons in Hin as [Hin|Hin]; [discriminate|].
    rewrite (imap_ext _ (fun j => process options (S first + j)) rest)
      by (intros j x _; cbn; f_equal; lia).
    rewrite (IH _ Hin). reflexivity.
Qed.

Lemma promise_all_fulfilled options first items :
  None ∉ items ->
  exists values,
    promise_all (imap (fun j => process options (first + j)) items) = inl values.
Proof.
  revert first. induction items as [|item rest IH]; intros first Hin.
  - eexists. reflexivity.
  - apply not_elem_of_cons in Hin as [Hne Hin].
    destruct item as [item|]; [|contradiction].
    cbn [imap promise_all process_item].
    rewrite (imap_ext _ (fun j => process options (S first + j)) rest)
      by (intros j x _; cbn; f_equal; lia).
    destruct (IH (S first) Hin) as [values ->]. eexists. reflexivity.
Qed.

Lemma null_or_not items : None ∈ items \/ None ∉ items.
Proof.
  induction items as [|[item|] rest [IH|IH]].
  - right. apply not_elem_of_nil.
  - left. apply elem_of_cons. auto.
  - right. apply not_elem_of_cons. split; [discriminate | exact IH].
  - left. apply elem_of_cons. auto.
  - left. apply elem_of_cons. auto.
Qed.

Lemma js_slice_objects (from to : Q) objects :
  js_slice from to (Some <$> objects)
  = Some <$> slice (slice_index (List.length objects) from)
                   (slice_index (List.length objects) to) objects.
Proof.
  unfold js_slice, slice. rewrite length_fmap, fmap_take, fmap_drop. reflexivity.
Qed.

(** With a batch size of 1 at least, the loop ends when it has a turn of
    fuel for each item left; on items that are objects it returns an entry
    for each of them, in the order of the input, and has taken the slices
    from its index on. *)
Lemma batch_loop_returns objects options fuel i results groups :
  (1 <= batchSize options)%Q -> (0 <= i)%Q ->
  List.length objects <= slice_index (List.length objects) i + fuel ->
  loop (Some <$> objects) options fuel i results groups
  = Some (inl ((results
                  ++ imap (fun j => entry options (slice_index (List.length objects) i + j))
                          (List.skipn (slice_index (List.length objects) i) objects))%list,
               (groups
                  ++ loop_groups (Some <$> objects) (batchSize options) fuel i)%list)).
Proof.
  intros Hsize. revert i results groups.
  induction fuel as [|fuel IH]; intros i results groups Hi Hfuel;
    cbn [batch_loop loop_groups]; rewrite length_fmap;
    destruct (Q_ltb i (inject_Z (Z.of_nat (List.length objects)))) eqn:Htest.
  - apply loop_test in Htest; [lia | exact Hi].
  - assert (Hend : ~ slice_index (List.length objects) i < List.length objects)
      by (rewrite <- (loop_test _ i Hi), Htest; discriminate).
    rewrite drop_ge by lia. cbn. rewrite !app_nil_r. reflexivity.
  - apply loop_test in Htest; [|exact Hi].
    pose proof (slice_index_step _ i _ Hi Hsize Htest) as Hstep.
    pose proof (slice_index_le (List.length objects) (i + batchSize options)) as Hle.
    set (k := slice_index (List.length objects) i) in *.
    set (k' := slice_index (List.length objects) (i + batchSize options)) in *.
    rewrite js_slice_objects. fold k k'. rewrite promise_all_objects.
    rewrite IH; [|apply index_nonneg; assumption | fold k'; lia].
    fold k'. rewrite <- !app_assoc. do 3 f_equal.
    unfold slice. rewrite (imap_entry_split options k (k' - k) objects).
    replace (k + (k' - k)) with k' by lia. reflexivity.
  - assert (Hend : ~ slice_index (List.length objects) i < List.length objects)
      by (rewrite <- (loop_test _ i Hi), Htest; discriminate).
    rewrite drop_ge by lia. cbn. rewrite !app_nil_r. reflexivity.
Qed.

(** With a batch size of 1 at least and a [null] among the items left, the
    loop throws. *)
Lemma batch_loop_throws items options fuel i results groups :
  (1 <= batchSize options)%Q -> (0 <= i)%Q ->
  List.length items <= slice_index (List.length items) i + fuel ->
  None ∈ List.skipn (slice_index (List.length items) i) items ->
  loop items options fuel i results groups = Some (inr null_item_error).
Proof.
  intros Hsize. revert i results groups.
  induction fuel as [|fuel IH]; intros i results groups Hi Hfuel Hnull;
    cbn [batch_loop];
    destruct (Q_ltb i (inject_Z (Z.of_nat (List.length items)))) eqn:Htest.
  - apply loop_test in Htest; [lia | exact Hi].
  - assert (Hend : ~ slice_index (List.length items) i < List.length items)
      by (rewrite <- (loop_test _ i Hi), Htest; discriminate).
    rewrite drop_ge in Hnull by lia. apply elem_of_nil in Hnull. contradiction.
  - apply loop_test in Htest; [|exact Hi].
    pose proof (slice_index_step _ i _ Hi Hsize Htest) as Hstep.
    pose proof (slice_index_le (List.length items) (i + batchSize options)) as Hle.
    unfold js_slice, slice.
    set (k := slice_index (List.length items) i) in *.
    set (k' := slice_index (List.length items) (i + batchSize options)) in *.
    destruct (null_or_not (List.firstn (k' - k) (List.skipn k items))) as [Hin|Hout].
    + rewrite (promise_all_null options k _ Hin). reflexivity.
    + destruct (promise_all_fulfilled options k _ Hout) as [values ->].
      apply IH; [apply index_nonneg; assumption | fold k'; lia|].
      fold k'. rewrite <- (take_drop (k' - k) (List.skipn k items)) in Hnull.
      apply elem_of_app in Hnull as [Hnull|Hnull]; [contradiction|].
      rewrite drop_drop in Hnull. replace (k + (k' - k)) with k' in Hnull by lia.
      exact Hnull.
  - assert (Hend : ~ slice_index (List.length items) i < List.length items)
      by (rewrite <- (loop_test _ i Hi), Htest; discriminate).
    rewrite drop_ge in Hnull by lia. apply elem_of_nil in Hnull. contradiction.
Qed.

(** With a negative batch size the index never reaches the length: on
    items that are objects the loop does not end, whatever the fuel. *)
Lemma batch_loop_spins items options fuel i results groups :
  (batchSize options < 0)%Q -> (i <= 0)%Q -> items <> [] -> None ∉ items ->
  loop items options fuel i results groups = None.
Proof.
  intros Hsize. revert i results groups.
  induction fuel as [|fuel IH]; intros i results groups Hi Hitems Hnull;
    cbn [batch_loop];
    assert (Htest : Q_ltb i (inject_Z (Z.of_nat (List.length items))) = true)
      by (apply Q_ltb_lt; eapply Qle_lt_trans; [exact Hi|];
          change 0%Q with (inject_Z 0); rewrite <- Zlt_Qlt;
          destruct items; [contradiction | cbn; lia]);
    rewrite Htest; [reflexivity|].
  assert (Hbatch : None ∉ js_slice i (i + batchSize options) items).
  { unfold js_slice, slice. intros Hin. apply Hnull.
    apply subseteq_take, subseteq_drop in Hin. exact Hin. }
  destruct (promise_all_fulfilled options (slice_index (List.length items) i) _ Hbatch)
    as [values ->].
  apply IH; [|exact Hitems | exact Hnull].
  apply (Qle_trans _ (0 + 0)%Q); [|discriminate].
  apply Qplus_le_compat; [exact Hi | apply Qlt_le_weak; exact Hsize].
Qed.

End Batch.

Section Groups.

Context {A : Type}.

Implicit Types (items : list A) (size i : Q) (b n fuel : nat).

(** With a size of 1 at least, the slices that the loop takes make up the
    items from its index on. *)
Lemma loop_groups_concat items size fuel i :
  (1 <= size)%Q -> (0 <= i)%Q ->
  List.length items <= slice_index (List.length items) i + fuel ->
  List.concat (loop_groups items size fuel i)
  = List.skipn (slice_index (List.length items) i) items.
Proof.
  intros Hsize. revert i.
  induction fuel as [|fuel IH]; intros i Hi Hfuel; cbn [loop_groups];
    destruct (Q_ltb i (inject_Z (Z.of_nat (List.length items)))) eqn:Htest.
  - apply loop_test in Htest; [lia | exact Hi].
  - assert (Hend : ~ slice_index (List.length items) i < List.length items)
      by (rewrite <- (loop_test _ i Hi), Htest; discriminate).
    rewrite drop_ge by lia. reflexivity.
  - apply loop_test in Htest; [|exact Hi].
    pose proof (slice_index_step _ i _ Hi Hsize Htest) as Hstep.
    cbn [List.concat]. rewrite IH; [|apply index_nonneg; assumption | lia].
    unfold js_slice, slice.
    set (k := slice_index (List.length items) i) in *.
    set (k' := slice_index (List.length items) (i + size)) in *.
    rewrite <- (take_drop (k' - k) (List.skipn k items)) at 2.
    rewrite drop_drop. replace (k + (k' - k)) with k' by lia. reflexivity.
  - assert (Hend : ~ slice_index (List.length items) i < List.length items)
      by (rewrite <- (loop_test _ i Hi), Htest; discriminate).
    rewrite drop_ge by lia. reflexivity.
Qed.

(** With a size and an index that are whole numbers, the slices are those
    of [batch_groups]. *)
Lemma loop_groups_whole items size b fuel i n :
  (size == inject_Z (Z.of_nat b))%Q -> 1 <= b -> (i == inject_Z (Z.of_nat n))%Q ->
  loop_groups items size fuel i = batch_groups items b fuel n.
Proof.
  intros Hsize Hb. revert i n.
  induction fuel as [|fuel IH]; intros i n Hi; cbn [loop_groups batch_groups];
    rewrite (loop_test_whole _ i n Hi); [reflexivity|].
  destruct (Nat.ltb_spec n (List.length items)) as [Hlt|Hge]; [|reflexivity].
  assert (Hnext : (i + size == inject_Z (Z.of_nat (n + b)))%Q)
    by (rewrite Hi, Hsize, Nat2Z.inj_add, inject_Z_plus; reflexivity).
  rewrite (IH _ _ Hnext). f_equal.
  unfold js_slice. rewrite (slice_index_whole _ i n Hi), (slice_index_whole _ _ _ Hnext).
  unfold slice. rewrite (Nat.min_l n) by lia.
  replace (n + b - n) with b by lia.
  destruct (le_lt_dec (n + b) (List.length items)) as [Hle|Hgt].
  - rewrite (Nat.min_l (n + b)) by lia. f_equal. lia.
  - rewrite (Nat.min_r (n + b)) by lia.
    rewrite !take_ge by (rewrite length_drop; lia). reflexivity.
Qed.

(** The group of rank [r] is the slice that starts [r] batch sizes after
    the start, and it is not empty. *)
Lemma batch_groups_lookup items b fuel n r g :
  1 <= b ->
  batch_groups items b fuel n !! r = Some g ->
  g = List.firstn b (List.skipn (n + r * b) items)
  /\ 1 <= List.length g <= b.
Proof.
  intros Hb. revert n r. induction fuel as [|fuel IH]; intros n r;
    cbn [batch_groups]; destruct (Nat.ltb_spec n (List.length items)) as [Hlt|Hge];
    try (intros Hr; rewrite lookup_nil in Hr; discriminate).
  destruct r as [|r]; cbn [lookup list_lookup].
  - intros [= <-]. unfold slice. replace (n + b - n) with b by lia.
    rewrite Nat.add_0_r. split; [reflexivity|].
    rewrite length_take, length_drop. lia.
  - intros Hr. apply IH in Hr as [-> Hlen]. split; [|exact Hlen].
    do 2 f_equal. lia.
Qed.

Lemma batch_groups_length items b fuel n :
  1 <= b -> List.length items <= n + fuel ->
  List.length (batch_groups items b fuel n) = (List.length items - n + b - 1) / b.
Proof.
  intros Hb. revert n. induction fuel as [|fuel IH]; intros n Hfuel; cbn [batch_groups].
  - rewrite (proj2 (Nat.ltb_ge _ _)) by lia. cbn.
    symmetry. apply Nat.div_small. lia.
  - destruct (Nat.ltb n (List.length items)) eqn:Hn.
    + apply Nat.ltb_lt in Hn. cbn [List.length]. rewrite IH by lia.
      destruct (le_lt_dec (n + b) (List.length items)) as [Hle|Hlt].
      * replace (List.length items - n + b - 1)
          with (List.length items - (n + b) + b - 1 + 1 * b) by lia.
        rewrite Nat.div_add by lia. lia.
      * replace (List.length items - (n + b) + b - 1) with (b - 1) by lia.
        rewrite (Nat.div_small (b - 1)) by lia.
        replace (List.length items - n + b - 1)
          with (List.length items - n - 1 + 1 * b) by lia.
        rewrite Nat.div_add by lia.
        rewrite (Nat.div_small (List.length items - n - 1)) by lia. reflexivity.
    + apply Nat.ltb_ge in Hn. cbn. symmetry. apply Nat.div_small. lia.
Qed.

Lemma full_group r len b :
  1 <= b -> S r < (len + b - 1) / b -> S r * b < len.
Proof.
  intros Hb Hr.
  pose proof (Nat.Div0.mul_div_le (len + b - 1) b) as Hle. nia.
Qed.

End Groups.

Section Fuel.

Context {A : Type}.

(** More fuel than a turn for each item makes no difference. *)
Lemma batch_groups_fuel (items : list A) b fuel fuel' n :
  1 <= b -> List.length items <= n + fuel -> List.length items <= n + fuel' ->
  batch_groups items b fuel n = batch_groups items b fuel' n.
Proof.
  intros Hb. revert fuel' n.
  induction fuel as [|fuel IH]; intros fuel' n Hfuel Hfuel';
    destruct fuel' as [|fuel']; cbn [batch_groups];
    destruct (Nat.ltb_spec n (List.length items)) as [Hlt|Hge];
    try reflexivity; try lia.
  f_equal. apply IH; lia.
Qed.

End Fuel.

(** C5. With the default batch size, and fuel for each item, [processBatch]
    returns for every list of items that are objects, whatever the router
    decides and the backends answer: the list has an entry for each item, in
    the order of the input. The loop takes the items in consecutive groups
    of ten, the last one of at most ten (25 items make groups of 10, 10 and
    5). An item whose processing throws gets its own entry, with the status
    ['failed'] and the message of the error. But an item that is [null]
    gets no entry: the [catch] of its callback throws on [item.id], and
    [processBatch] throws, with no result for any item. *)
Theorem processBatch_default_batch_size
    (route : nat -> option string -> option string -> Options -> RoutingDecision)
    (localProcess cloudProcess :
       nat -> string -> option string -> Options -> JsValue + string)
    (objects : list Item) (items : list (option Item)) (options : Options)
    (fuel : nat) :
  batch_size options = None ->
  (List.length objects <= fuel ->
   exists results groups,
     processBatch route localProcess cloudProcess fuel (Some <$> objects) (Some options)
     = Some (inl results)
     /\ processBatch_groups route localProcess cloudProcess fuel (Some <$> objects)
          options = Some (inl groups)
     /\ results = imap (item_entry route localProcess cloudProcess options) objects
     /\ List.length results = List.length objects
     /\ (forall pos item message,
           objects !! pos = Some item ->
           executeRouting localProcess cloudProcess pos
             (route pos (item_content item) (item_content_type item)
                    (in_batch_mode options))
             (item_content item) options = inr message ->
           results !! pos
           = Some {| entry_id := item_id item; routing_decision := None;
                     entry_result := None; error := Some message;
                     entry_status := "failed" |})
     /\ List.concat groups = Some <$> objects
     /\ (forall n g, groups !! n = Some g ->
           g = List.firstn 10 (List.skipn (n * 10) (Some <$> objects))
           /\ 1 <= List.length g <= 10)
     /\ (List.length objects = 25 ->
         List.map (@List.length (option Item)) groups = [10; 10; 5]))
  /\ (None ∈ items -> List.length items <= fuel ->
      processBatch route localProcess cloudProcess fuel items (Some options)
      = Some (inr null_item_error)).
Proof.
  intros Hsize. pose proof (batchSize_default options Hsize) as Hten.
  assert (Hone : (1 <= batchSize options)%Q) by (rewrite Hten; discriminate).
  assert (Hzero : forall len, slice_index len 0 = 0)
    by (intros len; apply (slice_index_whole len 0 0); reflexivity).
  split.
  - intros Hfuel.
    exists (imap (item_entry route localProcess cloudProcess options) objects),
           (batch_groups (Some <$> objects) 10 fuel 0).
    assert (Hloop :
              batch_loop route localProcess cloudProcess (Some <$> objects) options
                         fuel 0 [] []
              = Some (inl (imap (item_entry route localProcess cloudProcess options)
                                objects,
                           batch_groups (Some <$> objects) 10 fuel 0))).
    { rewrite batch_loop_returns; [|exact Hone | discriminate | rewrite Hzero; lia].
      rewrite Hzero. cbn [List.app]. rewrite drop_0.
      rewrite (loop_groups_whole _ _ 10 fuel 0 0); [reflexivity| |lia|reflexivity].
      rewrite Hten. reflexivity. }
    unfold processBatch, processBatch_groups. rewrite Hloop. cbn [fst snd].
    split; [reflexivity|]. split; [reflexivity|]. split; [reflexivity|].
    split; [apply length_imap|]. split; [|split; [|split]].
    + intros pos item message Hitem Hthrow.
      rewrite list_lookup_imap, Hitem. cbn. unfold item_entry.
      rewrite Hthrow. reflexivity.
    + rewrite <- (loop_groups_whole _ 10%Q 10 fuel 0%Q 0); [|reflexivity|lia|reflexivity].
      rewrite loop_groups_concat;
        [|discriminate | discriminate | rewrite Hzero, length_fmap; lia].
      rewrite Hzero. apply drop_0.
    + intros n g Hg. apply batch_groups_lookup in Hg; [exact Hg | lia].
    + intros Hlen.
      rewrite (batch_groups_fuel _ 10 fuel 25 0) by (rewrite ?length_fmap; lia).
      do 25 (destruct objects as [|? objects]; [discriminate|]).
      destruct objects; [|discriminate].
      vm_compute. reflexivity.
  - intros Hnull Hfuel. unfold processBatch.
    rewrite batch_loop_throws;
      [reflexivity | exact Hone | discriminate | rewrite Hzero; lia|].
    rewrite Hzero, drop_0. exact Hnull.
Qed.

Lemma processBatch_default_batch_size_witness :
  let objects := List.repeat sample_item 25 in
  let items := [Some sample_item; None] in
  let route := router_route (new_router {| high_cost := 25 |}) sample_clock in
  (exists results groups,
      processBatch route sample_local sample_cloud 25 (Some <$> objects) (Some no_options)
      = Some (inl results)
      /\ processBatch_groups route sample_local sample_cloud 25 (Some <$> objects)
           no_options = Some (inl groups)
      /\ List.length results = 25
      /\ results !! 1
         = Some {| entry_id := Some "a"; routing_decision := None;
                   entry_result := None; error := Some "connect ECONNREFUSED";
                   entry_status := "failed" |}
      /\ List.map (@List.length (option Item)) groups = [10; 10; 5])
  /\ processBatch route sample_local sample_cloud 25 items (Some no_options)
     = Some (inr null_item_error).
Proof.
  intros objects items route.
  destruct (processBatch_default_batch_size route sample_local sample_cloud objects
              items no_options 25 eq_refl) as [Hobjects Hnull].
  split.
  - destruct (Hobjects ltac:(cbn; lia))
      as (results & groups & Hresults & Hgroups & _ & Hlength & Hfailed & _ & _ & Hsizes).
    exists results, groups. split; [exact Hresults|]. split; [exact Hgroups|].
    split; [exact Hlength|]. split.
    + apply (Hfailed 1 sample_item); reflexivity.
    + apply Hsizes. reflexivity.
  - apply Hnull; [|cbn; lia].
    apply elem_of_cons. right. apply elem_of_cons. left. reflexivity.
Defined.



(** ** Strings *)

Section Strings.

Implicit Types (s t u : string) (c : ascii) (f : ascii -> bool).

Lemma app_cons c s t : String c s +:+ t = String c (s +:+ t).
Proof. reflexivity. Qed.

Lemma app_empty_l s : "" +:+ s = s.
Proof. reflexivity. Qed.

Lemma app_empty_r s : s +:+ "" = s.
Proof. induction s as [|c s IH]; [reflexivity|]. rewrite app_cons, IH. reflexivity. Qed.

Lemma app_assoc s t u : (s +:+ t) +:+ u = s +:+ (t +:+ u).
Proof.
  induction s as [|c s IH]; [reflexivity|]. rewrite !app_cons, IH. reflexivity.
Qed.

Lemma length_app s t : String.length (s +:+ t) = String.length s + String.length t.
Proof.
  induction s as [|c s IH]; [reflexivity|]. rewrite app_cons. cbn. rewrite IH.
  reflexivity.
Qed.

Lemma eqb_empty s : String.eqb s "" = true <-> s = "".
Proof. apply String.eqb_eq. Qed.

Lemma prefix_app u s : String.prefix u (u +:+ s) = true.
Proof.
  induction u as [|c u IH]; [destruct s; reflexivity|].
  rewrite app_cons. cbn. destruct (ascii_dec c c); [exact IH | contradiction].
Qed.

Lemma prefix_length u s : String.prefix u s = true -> String.length u <= String.length s.
Proof.
  revert s. induction u as [|c u IH]; intros [|b s]; cbn; try lia; try discriminate.
  destruct (ascii_dec c b); [|discriminate]. intros H. apply IH in H. lia.
Qed.

(** A literal that runs past the end of [s] into [t] has a character that
    [t] starts with: a literal without digits does not run into digits. *)
Lemma prefix_app_digit u s c t :
  Js.all_chars (fun a => negb (Js.is_digit a)) u = true ->
  Js.is_digit c = true ->
  String.prefix u (s +:+ String c t) = String.prefix u s.
Proof.
  revert s. induction u as [|a u IH]; intros s Hu Hc.
  - destruct s; reflexivity.
  - cbn in Hu. apply andb_prop in Hu as [Ha Hu].
    destruct s as [|b s].
    + rewrite app_empty_l. cbn. destruct (ascii_dec a c) as [->|]; [|reflexivity].
      rewrite Hc in Ha. discriminate.
    + rewrite app_cons. cbn. destruct (ascii_dec a b); [|reflexivity].
      apply IH; assumption.
Qed.

(** A literal that does not end with [c] does not end on a [c] added after
    [s]. *)
Lemma prefix_app_last u s c :
  Js.last_char u <> Some c ->
  String.prefix u (s +:+ String c "") = String.prefix u s.
Proof.
  revert s. induction u as [|a u IH]; intros s Hu.
  - destruct s; reflexivity.
  - destruct s as [|b s].
    + rewrite app_empty_l. cbn. destruct (ascii_dec a c) as [->|]; [|reflexivity].
      destruct u; [contradiction Hu; reflexivity | reflexivity].
    + rewrite app_cons. cbn. destruct (ascii_dec a b); [|reflexivity].
      destruct u as [|a' u]; [destruct s; reflexivity|].
      apply IH. exact Hu.
Qed.

Lemma span_app f s : let (a, b) := Js.span f s in s = a +:+ b.
Proof.
  induction s as [|c s IH]; cbn; [reflexivity|].
  destruct (f c); [|reflexivity].
  destruct (Js.span f s) as [a b]. rewrite app_cons, <- IH. reflexivity.
Qed.

(** The run of [s] goes on into what follows when [s] is all in the class. *)
Lemma span_all_app f s t :
  Js.all_chars f s = true ->
  Js.span f (s +:+ t) = (s +:+ fst (Js.span f t), snd (Js.span f t)).
Proof.
  induction s as [|c s IH]; intros Hs.
  - rewrite !app_empty_l. destruct (Js.span f t); reflexivity.
  - cbn in Hs. apply andb_prop in Hs as [Hc Hs].
    rewrite !app_cons. cbn. rewrite Hc, (IH Hs). reflexivity.
Qed.

(** The run of [s] ends in [s] when [s] has a character out of the class. *)
Lemma span_stop_app f s t a c b :
  Js.span f s = (a, String c b) ->
  Js.span f (s +:+ t) = (a, String c b +:+ t).
Proof.
  revert a. induction s as [|x s IH]; intros a; cbn; [discriminate|].
  destruct (f x) eqn:Hx.
  - destruct (Js.span f s) as [a' b'] eqn:Hs. intros [= <- ->].
    rewrite app_cons. cbn. rewrite Hx, (IH a' eq_refl). reflexivity.
  - intros [= <- <- <-]. rewrite app_cons. cbn. rewrite Hx. reflexivity.
Qed.

Lemma span_all f s : Js.span f s = (fst (Js.span f s), "") -> Js.all_chars f s = true.
Proof.
  induction s as [|c s IH]; cbn; [reflexivity|].
  destruct (f c); [|discriminate].
  destruct (Js.span f s) as [a b]. cbn in *. intros [= ->]. rewrite IH; reflexivity.
Qed.

Lemma span_stop f s a c b : Js.span f s = (a, String c b) -> f c = false.
Proof.
  revert a. induction s as [|x s IH]; intros a; cbn; [discriminate|].
  destruct (f x) eqn:Hx.
  - destruct (Js.span f s) as [a' b'] eqn:Hs. intros [= <- ->]. eapply IH. reflexivity.
  - intros [= <- <- <-]. exact Hx.
Qed.

Lemma span_fst_all f s : Js.all_chars f (fst (Js.span f s)) = true.
Proof.
  induction s as [|c s IH]; cbn; [reflexivity|].
  destruct (f c) eqn:Hc; [|reflexivity].
  destruct (Js.span f s) as [a b]. cbn in *. rewrite Hc, IH. reflexivity.
Qed.

End Strings.

(** ** The pattern of relative times *)

Section RelativeTime.

Implicit Types (s t u d : string) (c : ascii).

Local Arguments String.append : simpl nomatch.

Lemma find_agree {A} (f g : A -> bool) (l : list A) :
  (forall x, In x l -> f x = g x) -> List.find f l = List.find g l.
Proof.
  induction l as [|x l IH]; intros Hfg; cbn; [reflexivity|].
  rewrite <- (Hfg x) by (left; reflexivity).
  destruct (f x); [reflexivity|]. apply IH. intros y Hy. apply Hfg. right. exact Hy.
Qed.

(** A unit starts with a space, has no digit and ends with the letter o. *)
Lemma unit_shape u :
  In u relative_time_units ->
  (exists u', u = String " " u')
  /\ Js.all_chars (fun a => negb (Js.is_digit a)) u = true
  /\ Js.last_char u = Some "o"%char.
Proof.
  intros [<-|[<-|[<-|[<-|[]]]]]; (split; [eexists; reflexivity | split; reflexivity]).
Qed.

(** After a unit, the units are tried in order and that unit is found. *)
Lemma find_unit u s :
  In u relative_time_units ->
  List.find (fun unit => String.prefix unit (u +:+ s)) relative_time_units = Some u.
Proof.
  intros [<-|[<-|[<-|[<-|[]]]]]; cbn; destruct s; reflexivity.
Qed.

Lemma prefix_same_length u s :
  String.prefix u s = true -> String.length u = String.length s -> u = s.
Proof.
  revert s. induction u as [|a u IH]; intros [|b s]; cbn; try discriminate;
    [reflexivity|].
  destruct (ascii_dec a b) as [->|]; [|discriminate].
  intros Hp [= Hl]. rewrite (IH s Hp Hl). reflexivity.
Qed.

Lemma all_digits_span d s :
  Js.all_chars Js.is_digit d = true ->
  (exists s', s = String " " s') ->
  Js.span Js.is_digit (d +:+ s) = (d, s).
Proof.
  intros Hd [s' ->]. rewrite (span_all_app _ _ _ Hd). cbn.
  rewrite app_empty_r. reflexivity.
Qed.

(** Digits followed by a unit are matched as a whole, whatever follows. *)
Lemma match_digits_unit d u s :
  d <> "" ->
  Js.all_chars Js.is_digit d = true ->
  In u relative_time_units ->
  match_relative_time (d +:+ u +:+ s) = Some (String.length d + String.length u).
Proof.
  intros Hne Hd Hu. unfold match_relative_time.
  destruct (unit_shape u Hu) as [[u' Hu'] _].
  rewrite (all_digits_span d (u +:+ s) Hd) by (rewrite Hu'; eexists; reflexivity).
  destruct (String.eqb_spec d "") as [->|_]; [contradiction|].
  rewrite (find_unit u s Hu). reflexivity.
Qed.

(** A relative time is a run of digits followed by a unit. *)
Lemma relative_time_shape t :
  is_relative_time t = true ->
  exists d u, t = d +:+ u /\ d <> "" /\ Js.all_chars Js.is_digit d = true
              /\ In u relative_time_units.
Proof.
  unfold is_relative_time, match_relative_time. intros Ht%bool_decide_eq_true.
  pose proof (span_app Js.is_digit t) as Happ.
  pose proof (span_fst_all Js.is_digit t) as Hall.
  destruct (Js.span Js.is_digit t) as [d r]. cbn in Hall.
  destruct (String.eqb_spec d "") as [->|Hd]; [discriminate|].
  destruct (List.find _ _) as [u|] eqn:Hfind; [|discriminate].
  apply List.find_some in Hfind as [Hin Hpre].
  injection Ht as Ht. subst t. rewrite length_app in Ht.
  assert (u = r) as <- by (apply prefix_same_length; [exact Hpre | lia]).
  exists d, u. auto.
Qed.

Lemma match_relative_time_bound s n :
  match_relative_time s = Some n -> n <= String.length s.
Proof.
  unfold match_relative_time. pose proof (span_app Js.is_digit s) as Happ.
  destruct (Js.span Js.is_digit s) as [d r].
  destruct (String.eqb d ""); [discriminate|].
  destruct (List.find _ _) as [u|] eqn:Hfind; [|discriminate].
  apply List.find_some in Hfind as [_ Hpre%prefix_length].
  intros [= <-]. rewrite Happ, length_app. lia.
Qed.

(** A space added at the end of [s] changes no match at the start of [s]. *)
Lemma match_relative_time_space s :
  match_relative_time (s +:+ " ") = match_relative_time s.
Proof.
  unfold match_relative_time.
  destruct (Js.span Js.is_digit s) as [d [|c r]] eqn:Hspan.
  - assert (Hs : Js.all_chars Js.is_digit s = true)
      by (apply span_all; rewrite Hspan; reflexivity).
    pose proof (span_app Js.is_digit s) as Happ. rewrite Hspan, app_empty_r in Happ.
    subst d. rewrite (all_digits_span s " " Hs) by (eexists; reflexivity).
    destruct (String.eqb s ""); reflexivity.
  - rewrite (span_stop_app _ _ " " _ _ _ Hspan).
    destruct (String.eqb d ""); [reflexivity|].
    rewrite (find_agree _ (fun unit => String.prefix unit (String c r))).
    + reflexivity.
    + intros u Hu. apply prefix_app_last.
      destruct (unit_shape u Hu) as (_ & _ & ->). discriminate.
Qed.

(** A match that starts in [p], before a relative time: it ends in [p] and
    does not depend on the relative time, or [p] is all digits and the match
    is [p] with the relative time. *)
Lemma match_before_relative_time p d1 u1 d2 u2 s :
  d1 <> "" -> Js.all_chars Js.is_digit d1 = true -> In u1 relative_time_units ->
  d2 <> "" -> Js.all_chars Js.is_digit d2 = true -> In u2 relative_time_units ->
  let m1 := match_relative_time (p +:+ (d1 +:+ u1) +:+ s) in
  let m2 := match_relative_time (p +:+ (d2 +:+ u2) +:+ s) in
  (m1 = m2 /\ forall n, m1 = Some n -> n <= String.length p)
  \/ (m1 = Some (String.length p + String.length (d1 +:+ u1))
      /\ m2 = Some (String.length p + String.length (d2 +:+ u2))).
Proof.
  intros Hne1 Hd1 Hu1 Hne2 Hd2 Hu2 m1 m2. subst m1 m2.
  destruct (Js.span Js.is_digit p) as [a [|c r]] eqn:Hspan.
  - right.
    assert (Hp : Js.all_chars Js.is_digit p = true)
      by (apply span_all; rewrite Hspan; reflexivity).
    assert (Hall : forall d, Js.all_chars Js.is_digit d = true ->
                     Js.all_chars Js.is_digit (p +:+ d) = true).
    { intros d Hd. clear Hspan. induction p as [|x p IH]; [exact Hd|].
      cbn in Hp |- *. apply andb_prop in Hp as [-> Hp]. apply IH, Hp. }
    assert (Hnonempty : forall d, d <> "" -> p +:+ d <> "").
    { intros d Hd. destruct p; [exact Hd | discriminate]. }
    split.
    + rewrite <- (app_assoc p), <- (app_assoc p d1), (app_assoc (p +:+ d1)).
      rewrite match_digits_unit by auto. rewrite !length_app. f_equal. lia.
    + rewrite <- (app_assoc p), <- (app_assoc p d2), (app_assoc (p +:+ d2)).
      rewrite match_digits_unit by auto. rewrite !length_app. f_equal. lia.
  - left. unfold match_relative_time.
    rewrite !(span_stop_app _ _ _ _ _ _ Hspan).
    destruct (String.eqb a ""); [split; [reflexivity | discriminate]|].
    assert (Hfind : forall d u,
               d <> "" -> Js.all_chars Js.is_digit d = true ->
               List.find (fun unit => String.prefix unit
                                   (String c r +:+ (d +:+ u) +:+ s))
                         relative_time_units
               = List.find (fun unit => String.prefix unit (String c r))
                           relative_time_units).
    { intros d u Hne Hd. apply find_agree. intros unit Hunit.
      destruct d as [|x d]; [contradiction|].
      cbn in Hd. apply andb_prop in Hd as [Hx _].
      rewrite (app_cons x), (app_cons x).
      apply prefix_app_digit; [|exact Hx].
      apply (unit_shape unit Hunit). }
    rewrite !Hfind by assumption. split; [reflexivity|].
    intros n. destruct (List.find _ _) as [u|] eqn:Hu; [|discriminate].
    apply List.find_some in Hu as [_ Hpre%prefix_length].
    intros [= <-]. pose proof (span_app Js.is_digit p) as Happ.
    rewrite Hspan in Happ. rewrite Happ, length_app. lia.
Qed.

Lemma strip_from_skip_all t s :
  strip_from (String.length t) (t +:+ s) = strip_from 0 s.
Proof. induction t as [|c t IH]; [destruct s; reflexivity | exact IH]. Qed.

(** A relative time at the start is removed. *)
Lemma strip_from_relative_time d u s :
  d <> "" -> Js.all_chars Js.is_digit d = true -> In u relative_time_units ->
  strip_from 0 ((d +:+ u) +:+ s) = strip_from 0 s.
Proof.
  intros Hne Hd Hu.
  pose proof (match_digits_unit d u s Hne Hd Hu) as Hm.
  rewrite <- length_app, <- app_assoc in Hm.
  destruct (d +:+ u) as [|c t] eqn:Ht; [destruct d; [contradiction | discriminate]|].
  rewrite app_cons in Hm |- *. cbn [strip_from]. rewrite Hm. cbn [String.length].
  apply strip_from_skip_all.
Qed.

(** What [strip_from] returns does not depend on which relative time stands
    at a place. *)
Lemma strip_from_replace p d1 u1 d2 u2 s k :
  d1 <> "" -> Js.all_chars Js.is_digit d1 = true -> In u1 relative_time_units ->
  d2 <> "" -> Js.all_chars Js.is_digit d2 = true -> In u2 relative_time_units ->
  k <= String.length p ->
  strip_from k (p +:+ (d1 +:+ u1) +:+ s) = strip_from k (p +:+ (d2 +:+ u2) +:+ s).
Proof.
  intros Hne1 Hd1 Hu1 Hne2 Hd2 Hu2. revert k.
  induction p as [|c p IH]; intros k Hk.
  - cbn in Hk. replace k with 0 by lia. rewrite !app_empty_l.
    rewrite !strip_from_relative_time by assumption. reflexivity.
  - destruct k as [|k].
    + pose proof (match_before_relative_time (String c p) d1 u1 d2 u2 s
                    Hne1 Hd1 Hu1 Hne2 Hd2 Hu2) as Hm.
      cbn zeta in Hm. rewrite !app_cons in Hm |- *. cbn [strip_from].
      destruct Hm as [[Heq Hbound]|[-> ->]].
      * rewrite <- Heq.
        destruct (match_relative_time _) as [[|n]|].
        -- rewrite (IH 0) by lia. reflexivity.
        -- apply IH. specialize (Hbound (S n) eq_refl). cbn in Hbound. lia.
        -- rewrite (IH 0) by lia. reflexivity.
      * cbn [String.length Nat.add].
        rewrite <- !length_app, <- !app_assoc, !strip_from_skip_all. reflexivity.
    + rewrite !app_cons. cbn [strip_from]. apply IH. cbn in Hk. lia.
Qed.

(** A space added at the end stays at the end. *)
Lemma strip_from_space s k :
  k <= String.length s -> strip_from k (s +:+ " ") = strip_from k s +:+ " ".
Proof.
  revert k. induction s as [|c s IH]; intros k Hk.
  - cbn in Hk. replace k with 0 by lia. reflexivity.
  - rewrite app_cons. destruct k as [|k]; cbn [strip_from].
    + rewrite <- app_cons, match_relative_time_space.
      pose proof (match_relative_time_bound (String c s)) as Hbound.
      destruct (match_relative_time (String c s)) as [[|n]|].
      * rewrite (IH 0) by lia. reflexivity.
      * apply IH. specialize (Hbound (S n) eq_refl). cbn in Hbound. lia.
      * rewrite (IH 0) by lia. reflexivity.
    + apply IH. cbn in Hk. lia.
Qed.

(** A space at the start stays at the start. *)
Lemma strip_from_space_first s :
  strip_from 0 (String " " s) = String " " (strip_from 0 s).
Proof. reflexivity. Qed.

End RelativeTime.

(** ** White space *)

Section WhiteSpace.

Implicit Types (s t w : string) (c : ascii) (b : bool).

Local Arguments String.append : simpl nomatch.

Lemma digit_not_space c : Js.is_digit c = true -> Js.is_space c = false.
Proof.
  unfold Js.is_digit, Js.is_space. intros [H1 H2]%andb_prop.
  apply N.leb_le in H1, H2.
  destruct (N.leb_spec 9 (Js.code c)), (N.leb_spec (Js.code c) 13),
    (N.eqb_spec (Js.code c) 32); cbn; try reflexivity; lia.
Qed.

(** Inside a run of white space, white space is dropped. *)
Lemma collapse_blank_app w s :
  is_blank w = true -> Js.collapse_from true (w +:+ s) = Js.collapse_from true s.
Proof.
  induction w as [|c w IH]; intros Hw; [reflexivity|].
  cbn in Hw. apply andb_prop in Hw as [Hc Hw].
  rewrite app_cons. cbn. rewrite Hc. apply IH, Hw.
Qed.

(** At the start of a run, a space may be written that inside it is not. *)
Lemma collapse_false_true s :
  Js.collapse_from false s = Js.collapse_from true s
  \/ Js.collapse_from false s = String " " (Js.collapse_from true s).
Proof. destruct s as [|c s]; cbn; [auto|]. destruct (Js.is_space c); auto. Qed.

(** White space at the end adds a space or nothing. *)
Lemma collapse_app_blank b s w :
  is_blank w = true ->
  Js.collapse_from b (s +:+ w) = Js.collapse_from b s
  \/ Js.collapse_from b (s +:+ w) = Js.collapse_from b s +:+ " ".
Proof.
  intros Hw. revert b. induction s as [|c s IH]; intros b.
  - rewrite app_empty_l.
    pose proof (collapse_blank_app w "" Hw) as Htrue. rewrite app_empty_r in Htrue.
    destruct b; [left; exact Htrue|].
    destruct (collapse_false_true w) as [-> | ->]; rewrite Htrue; auto.
  - rewrite app_cons. cbn. destruct (Js.is_space c); [destruct b|].
    + apply IH.
    + destruct (IH true) as [-> | ->]; auto.
    + destruct (IH false) as [-> | ->]; auto.
Qed.

(** Before a character that is not white space, the text is collapsed on
    its own. *)
Lemma collapse_app_word b s c t :
  Js.is_space c = false ->
  Js.collapse_from b (s +:+ String c t)
  = Js.collapse_from b s +:+ String c (Js.collapse_from false t).
Proof.
  intros Hc. revert b. induction s as [|x s IH]; intros b.
  - rewrite app_empty_l. cbn. rewrite Hc. reflexivity.
  - rewrite app_cons. cbn. destruct (Js.is_space x); [destruct b|];
      rewrite IH; reflexivity.
Qed.

Lemma collapse_digits d t :
  Js.all_chars Js.is_digit d = true ->
  Js.collapse_from false (d +:+ t) = d +:+ Js.collapse_from false t.
Proof.
  induction d as [|c d IH]; intros Hd; [reflexivity|].
  cbn in Hd. apply andb_prop in Hd as [Hc Hd].
  rewrite !app_cons. cbn. rewrite (digit_not_space c Hc), (IH Hd). reflexivity.
Qed.

Lemma collapse_unit u t :
  In u relative_time_units ->
  Js.collapse_from false (u +:+ t) = u +:+ Js.collapse_from false t.
Proof. intros [<-|[<-|[<-|[<-|[]]]]]; reflexivity. Qed.

(** A relative time is kept as it is, and what follows it is collapsed on
    its own. *)
Lemma collapse_relative_time b s d u t :
  d <> "" -> Js.all_chars Js.is_digit d = true -> In u relative_time_units ->
  Js.collapse_from b (s +:+ (d +:+ u) +:+ t)
  = Js.collapse_from b s +:+ (d +:+ u) +:+ Js.collapse_from false t.
Proof.
  intros Hne Hd Hu. destruct d as [|c d]; [contradiction|].
  cbn in Hd. apply andb_prop in Hd as [Hc Hd].
  rewrite !app_cons, collapse_app_word by (apply digit_not_space, Hc).
  rewrite app_assoc, (collapse_digits d _ Hd), (collapse_unit u t Hu), app_assoc.
  reflexivity.
Qed.

Lemma trimEnd_space s : Js.trimEnd (s +:+ " ") = Js.trimEnd s.
Proof.
  induction s as [|c s IH]; [reflexivity|].
  rewrite app_cons. cbn [Js.trimEnd]. rewrite IH. reflexivity.
Qed.

Lemma trimStart_space s :
  Js.trimStart (s +:+ " ") = Js.trimStart s
  \/ Js.trimStart (s +:+ " ") = Js.trimStart s +:+ " ".
Proof.
  induction s as [|c s IH]; [left; reflexivity|].
  rewrite app_cons. cbn [Js.trimStart]. destruct (Js.is_space c); [exact IH|].
  right. reflexivity.
Qed.

Lemma trim_space s : Js.trim (s +:+ " ") = Js.trim s.
Proof.
  unfold Js.trim. destruct (trimStart_space s) as [-> | ->];
    [reflexivity | apply trimEnd_space].
Qed.

Lemma trim_space_first s : Js.trim (String " " s) = Js.trim s.
Proof. reflexivity. Qed.

(** A function of the collapsed text that ignores a space at either end
    ignores the white space around the text. *)
Section Around.

Variable F : string -> string.
Hypothesis F_space_first : forall s, F (String " " s) = F s.
Hypothesis F_space_last : forall s, F (s +:+ " ") = F s.

Lemma collapse_true_ignored s :
  F (Js.collapse_from false s) = F (Js.collapse_from true s).
Proof.
  destruct (collapse_false_true s) as [-> | ->];
    [reflexivity | apply F_space_first].
Qed.

Lemma blank_around_ignored w1 w2 s :
  is_blank w1 = true -> is_blank w2 = true ->
  F (Js.collapse_spaces (w1 +:+ s +:+ w2)) = F (Js.collapse_spaces s).
Proof.
  intros H1 H2. unfold Js.collapse_spaces.
  rewrite collapse_true_ignored, (collapse_blank_app w1 _ H1),
    <- collapse_true_ignored.
  destruct (collapse_app_blank false s w2 H2) as [-> | ->];
    [reflexivity | apply F_space_last].
Qed.

End Around.

Lemma normalizeContent_blank_around w1 w2 s :
  is_blank w1 = true -> is_blank w2 = true ->
  normalizeContent (w1 +:+ s +:+ w2) = normalizeContent s.
Proof.
  intros H1 H2. unfold normalizeContent.
  apply (blank_around_ignored
           (fun x => Js.toLowerCase (Js.trim (strip_relative_time x)))); try assumption.
  - intros x. unfold strip_relative_time.
    rewrite strip_from_space_first, trim_space_first. reflexivity.
  - intros x. unfold strip_relative_time.
    rewrite strip_from_space by lia. rewrite trim_space. reflexivity.
Qed.

Lemma normalizeText_some s :
  normalizeText (Some s) = Js.toLowerCase (Js.trim (Js.collapse_spaces s)).
Proof.
  unfold normalizeText, Js.falsy. cbn [default].
  destruct (String.eqb_spec s "") as [->|_]; reflexivity.
Qed.

Lemma normalizeText_blank_around w1 w2 s :
  is_blank w1 = true -> is_blank w2 = true ->
  normalizeText (Some (w1 +:+ s +:+ w2)) = normalizeText (Some s).
Proof.
  intros H1 H2. rewrite !normalizeText_some.
  apply (blank_around_ignored (fun x => Js.toLowerCase (Js.trim x))); try assumption.
  - intros x. rewrite trim_space_first. reflexivity.
  - intros x. rewrite trim_space. reflexivity.
Qed.

Lemma normalizeContent_relative_time p t1 t2 s :
  is_relative_time t1 = true -> is_relative_time t2 = true ->
  normalizeContent (p +:+ t1 +:+ s) = normalizeContent (p +:+ t2 +:+ s).
Proof.
  intros (d1 & u1 & -> & Hne1 & Hd1 & Hu1)%relative_time_shape
         (d2 & u2 & -> & Hne2 & Hd2 & Hu2)%relative_time_shape.
  unfold normalizeContent, Js.collapse_spaces, strip_relative_time.
  rewrite !collapse_relative_time by assumption.
  rewrite (strip_from_replace _ d1 u1 d2 u2) by (assumption || lia).
  reflexivity.
Qed.

Lemma falsy_app_nonempty w1 s w2 :
  s <> "" -> Js.falsy (Some (w1 +:+ s +:+ w2)) = false.
Proof.
  intros Hs. unfold Js.falsy. apply String.eqb_neq.
  destruct w1; [destruct s; [contradiction | discriminate] | discriminate].
Qed.

End WhiteSpace.

(** ** The primary fingerprint *)

Lemma primary_fingerprint_parts (c1 c2 : ContentItem) :
  extractPatreonPostId (url c1) = extractPatreonPostId (url c2) ->
  normalizeText (title c1) = normalizeText (title c2) ->
  createContentHash (content c1) = createContentHash (content c2) ->
  primary_fingerprint (generateContentFingerprint c1)
  = primary_fingerprint (generateContentFingerprint c2).
Proof.
  intros Hid Htitle Hhash. cbn. unfold primaryData. cbn.
  rewrite Hid, Htitle, Hhash. reflexivity.
Qed.

(** C1, as stated, fails: the two items have the same post id (none), the
    same normalized title and the same normalized body, and they differ in
    white space only, the body of the one being empty and the body of the
    other a space; their primary fingerprints differ. *)
Lemma blank_body_counterexample :
  extractPatreonPostId (url empty_body_item) = extractPatreonPostId (url blank_body_item)
  /\ normalizeText (title empty_body_item) = normalizeText (title blank_body_item)
  /\ normalizeContent "" = normalizeContent " "
  /\ is_blank " " = true
  /\ content empty_body_item = Some ""
  /\ content blank_body_item = Some ("" +:+ " ")
  /\ primary_fingerprint (generateContentFingerprint empty_body_item)
     <> primary_fingerprint (generateContentFingerprint blank_body_item).
Proof. repeat split. vm_compute. discriminate. Qed.

(** C1, amended. Two content items with the same post id, the same
    normalized title and the same normalized body, whose bodies are both
    empty (or absent) or both not, have the same primary fingerprint. The
    primary fingerprint does not change when white space is put around the
    title or around a body that is not empty, nor when a relative time in the
    body, such as ["3 hours ago"], is replaced by another one. *)
Theorem primary_fingerprint_deterministic :
  (forall c1 c2 : ContentItem,
      extractPatreonPostId (url c1) = extractPatreonPostId (url c2) ->
      normalizeText (title c1) = normalizeText (title c2) ->
      Js.falsy (content c1) = Js.falsy (content c2) ->
      normalizeContent (default "" (content c1))
      = normalizeContent (default "" (content c2)) ->
      primary_fingerprint (generateContentFingerprint c1)
      = primary_fingerprint (generateContentFingerprint c2))
  /\ (forall (u : option string) (tg : option (list string))
             (t b w1 w2 w3 w4 : string),
        is_blank w1 = true -> is_blank w2 = true ->
        is_blank w3 = true -> is_blank w4 = true ->
        b <> "" ->
        primary_fingerprint
          (generateContentFingerprint
             {| url := u; title := Some (w1 +:+ t +:+ w2);
                content := Some (w3 +:+ b +:+ w4); tags := tg |})
        = primary_fingerprint
            (generateContentFingerprint
               {| url := u; title := Some t; content := Some b; tags := tg |}))
  /\ (forall (u t : option string) (tg : option (list string))
             (p s r1 r2 : string),
        is_relative_time r1 = true -> is_relative_time r2 = true ->
        primary_fingerprint
          (generateContentFingerprint
             {| url := u; title := t; content := Some (p +:+ r1 +:+ s); tags := tg |})
        = primary_fingerprint
            (generateContentFingerprint
               {| url := u; title := t; content := Some (p +:+ r2 +:+ s); tags := tg |})).
Proof.
  split; [|split].
  - intros c1 c2 Hid Htitle Hfalsy Hbody.
    apply primary_fingerprint_parts; try assumption.
    unfold createContentHash. rewrite Hfalsy, Hbody. reflexivity.
  - intros u tg t b w1 w2 w3 w4 H1 H2 H3 H4 Hb.
    apply primary_fingerprint_parts; cbn [url title content].
    + reflexivity.
    + apply normalizeText_blank_around; assumption.
    + unfold createContentHash. rewrite falsy_app_nonempty by exact Hb.
      assert (Js.falsy (Some b) = false) as -> by (apply String.eqb_neq, Hb).
      cbn [from_option id].
      rewrite normalizeContent_blank_around by assumption. reflexivity.
  - intros u t tg p s r1 r2 H1 H2.
    apply primary_fingerprint_parts; cbn [url title content]; try reflexivity.
    unfold createContentHash.
    destruct (relative_time_shape r1 H1) as (d1 & u1 & -> & Hne1 & _).
    destruct (relative_time_shape r2 H2) as (d2 & u2 & Hr2 & Hne2 & _).
    assert (Hfalsy : forall d x, d <> "" -> Js.falsy (Some (p +:+ (d +:+ x) +:+ s)) = false).
    { intros d x Hd. unfold Js.falsy. apply String.eqb_neq.
      destruct p; [destruct d; [contradiction | discriminate] | discriminate]. }
    rewrite Hfalsy by exact Hne1. rewrite Hr2 at 1. rewrite Hfalsy by exact Hne2.
    cbn [from_option id]. f_equal. apply normalizeContent_relative_time; assumption.
Qed.

Lemma primary_fingerprint_deterministic_witness :
  (is_blank "  " = true /\ is_blank " " = true
   /\ primary_fingerprint
        (generateContentFingerprint
           {| url := Some "https://x.com/posts/123"; title := Some ("  " +:+ "Weekly  Update" +:+ " ");
              content := Some (" " +:+ "Markets are up" +:+ "  "); tags := None |})
      = primary_fingerprint
          (generateContentFingerprint
             {| url := Some "https://x.com/posts/123"; title := Some "Weekly  Update";
                content := Some "Markets are up"; tags := None |}))
  /\ (is_relative_time "3 hours ago" = true /\ is_relative_time "45 minutes ago" = true
      /\ primary_fingerprint
           (generateContentFingerprint
              {| url := None; title := None;
                 content := Some ("Posted " +:+ "3 hours ago" +:+ " by the team");
                 tags := None |})
         = primary_fingerprint
             (generateContentFingerprint
                {| url := None; title := None;
                   content := Some ("Posted " +:+ "45 minutes ago" +:+ " by the team");
                   tags := None |})).
Proof.
  destruct primary_fingerprint_deterministic as (_ & Hblank & Htime).
  split; (split; [reflexivity|]; split; [reflexivity|]).
  - apply Hblank; try reflexivity. discriminate.
  - apply Htime; reflexivity.
Defined.

(** * Further properties *)

(** ** Tags and URLs of a fingerprint *)

Section Tags.

Implicit Types (x y : string) (l : list string).

Lemma insert_sorted_perm x l : Js.insert_sorted x l ≡ₚ x :: l.
Proof.
  induction l as [|y l IH]; cbn; [reflexivity|].
  destruct (String.leb x y); [reflexivity|].
  rewrite IH. apply Permutation_swap.
Qed.

Lemma sort_perm l : Js.sort l ≡ₚ l.
Proof.
  induction l as [|x l IH]; cbn; [reflexivity|].
  rewrite insert_sorted_perm, IH. reflexivity.
Qed.

Lemma insert_sorted_Sorted x l :
  Sorted String.le l -> Sorted String.le (Js.insert_sorted x l).
Proof.
  induction l as [|y l IH]; intros Hl; cbn.
  - repeat constructor.
  - destruct (String.leb x y) eqn:Hxy.
    + constructor; [exact Hl|]. constructor. unfold String.le. rewrite Hxy. exact I.
    + apply Sorted_inv in Hl as [Hl Hhd]. constructor; [apply IH, Hl|].
      assert (Hyx : String.le y x).
      { destruct (String.leb_total x y) as [H|H]; [congruence|].
        unfold String.le. rewrite H. exact I. }
      destruct l as [|z l]; cbn; [constructor; exact Hyx|].
      destruct (String.leb x z); constructor; [exact Hyx|].
      apply HdRel_inv in Hhd. exact Hhd.
Qed.

Lemma sort_Sorted l : Sorted String.le (Js.sort l).
Proof.
  induction l as [|x l IH]; cbn; [constructor | apply insert_sorted_Sorted, IH].
Qed.

(** The sorted list depends on the elements only, not on their order. *)
Lemma sort_order_independent l1 l2 : l1 ≡ₚ l2 -> Js.sort l1 = Js.sort l2.
Proof.
  intros Hperm. apply (Sorted_unique String.le); try apply sort_Sorted.
  rewrite !sort_perm. exact Hperm.
Qed.

End Tags.

(** X1. The fingerprint of an item depends on its tags only through the
    tags in lower case and trimmed, whatever their order: two items with the
    same URL, title and body whose normalized tags are the same up to order
    have the same fingerprint, metadata and secondary fingerprint included. *)
Theorem fingerprint_tag_order_independent (u t b : option string)
    (tags1 tags2 : list string) :
  List.map (fun tag => Js.trim (Js.toLowerCase tag)) tags1
    ≡ₚ List.map (fun tag => Js.trim (Js.toLowerCase tag)) tags2 ->
  extractAndNormalizeTags tags1 = extractAndNormalizeTags tags2
  /\ Sorted String.le (extractAndNormalizeTags tags1)
  /\ generateContentFingerprint
       {| url := u; title := t; content := b; tags := Some tags1 |}
     = generateContentFingerprint
         {| url := u; title := t; content := b; tags := Some tags2 |}.
Proof.
  intros Hperm.
  assert (Htags : extractAndNormalizeTags tags1 = extractAndNormalizeTags tags2)
    by (apply sort_order_independent, Hperm).
  split; [exact Htags|]. split; [apply sort_Sorted|].
  unfold generateContentFingerprint, fingerprintData. cbn [url title content tags].
  cbn [from_option id]. rewrite Htags. reflexivity.
Qed.

Lemma fingerprint_tag_order_independent_witness :
  extractAndNormalizeTags ["Bitcoin"; " SBR "; "Texas"]
  = extractAndNormalizeTags ["texas"; "sbr"; "BITCOIN "]
  /\ Sorted String.le (extractAndNormalizeTags ["Bitcoin"; " SBR "; "Texas"])
  /\ generateContentFingerprint
       {| url := Some "https://x.com/posts/123"; title := None; content := None;
          tags := Some ["Bitcoin"; " SBR "; "Texas"] |}
     = generateContentFingerprint
         {| url := Some "https://x.com/posts/123"; title := None; content := None;
            tags := Some ["texas"; "sbr"; "BITCOIN "] |}.
Proof.
  apply (fingerprint_tag_order_independent (Some "https://x.com/posts/123") None None).
  vm_compute. apply (Permutation_rev ["bitcoin"; "sbr"; "texas"]).
Defined.

Section Urls.

Implicit Types (u q s : string).

Lemma before_app_sep c u q : Js.before c (u +:+ String c q) = Js.before c u.
Proof.
  induction u as [|x u IH].
  - rewrite app_empty_l. cbn. rewrite Ascii.eqb_refl. reflexivity.
  - rewrite app_cons. cbn. destruct (Ascii.eqb x c); [reflexivity|].
    rewrite IH. reflexivity.
Qed.

Lemma before_no_sep c s : Js.all_chars (fun x => negb (Ascii.eqb x c)) (Js.before c s) = true.
Proof.
  induction s as [|x s IH]; cbn; [reflexivity|].
  destruct (Ascii.eqb x c) eqn:Hx; cbn; [reflexivity|]. rewrite Hx, IH. reflexivity.
Qed.

Lemma all_chars_toLowerCase (f : ascii -> bool) s :
  (forall x, f x = true -> f (Js.lower_char x) = true) ->
  Js.all_chars f s = true -> Js.all_chars f (Js.toLowerCase s) = true.
Proof.
  intros Hf. induction s as [|x s IH]; cbn; [reflexivity|].
  intros [Hx Hs]%andb_prop. rewrite (Hf x Hx), (IH Hs). reflexivity.
Qed.

End Urls.

(** X2. The normalized URL does not depend on the query string: what
    follows a question mark is dropped, and no question mark is left. *)
Theorem normalizeUrl_ignores_query (u q : string) :
  normalizeUrl (Some (u +:+ "?" +:+ q)) = normalizeUrl (Some u)
  /\ Js.all_chars (fun x => negb (Ascii.eqb x "?")) (normalizeUrl (Some u)) = true.
Proof.
  split.
  - unfold normalizeUrl, Js.falsy. cbn [from_option id].
    change ("?" +:+ q) with (String "?" q).
    destruct (String.eqb_spec (u +:+ String "?" q) "") as [Hempty|_].
    { destruct u; discriminate Hempty. }
    rewrite before_app_sep.
    destruct (String.eqb_spec u "") as [->|_]; reflexivity.
  - unfold normalizeUrl, Js.falsy. cbn [from_option id].
    destruct (String.eqb u ""); [reflexivity|].
    apply all_chars_toLowerCase; [|apply before_no_sep].
    intros x. destruct x as [[] [] [] [] [] [] [] []]; cbn; intros H;
      reflexivity || discriminate H.
Qed.

(** ** Normalization of a title *)

Section Normalization.

Implicit Types (s : string) (c : ascii) (b : bool).

Lemma lower_char_space c : Js.is_space (Js.lower_char c) = Js.is_space c.
Proof. destruct c as [[] [] [] [] [] [] [] []]; reflexivity. Qed.

Lemma lower_char_of_space c : Js.is_space c = true -> Js.lower_char c = c.
Proof.
  destruct c as [[] [] [] [] [] [] [] []]; cbn; intros H; reflexivity || discriminate H.
Qed.

Lemma lower_char_twice c : Js.lower_char (Js.lower_char c) = Js.lower_char c.
Proof. destruct c as [[] [] [] [] [] [] [] []]; reflexivity. Qed.

Lemma toLowerCase_twice s : Js.toLowerCase (Js.toLowerCase s) = Js.toLowerCase s.
Proof.
  induction s as [|c s IH]; cbn; [reflexivity|]. rewrite lower_char_twice, IH.
  reflexivity.
Qed.

Lemma toLowerCase_collapse b s :
  Js.collapse_from b (Js.toLowerCase s) = Js.toLowerCase (Js.collapse_from b s).
Proof.
  revert b. induction s as [|c s IH]; intros b; cbn; [reflexivity|].
  rewrite lower_char_space. destruct (Js.is_space c); [destruct b|]; cbn;
    rewrite IH; reflexivity.
Qed.

Lemma toLowerCase_trimStart s :
  Js.trimStart (Js.toLowerCase s) = Js.toLowerCase (Js.trimStart s).
Proof.
  induction s as [|c s IH]; cbn; [reflexivity|].
  rewrite lower_char_space. destruct (Js.is_space c); [exact IH | reflexivity].
Qed.

Lemma toLowerCase_trimEnd s :
  Js.trimEnd (Js.toLowerCase s) = Js.toLowerCase (Js.trimEnd s).
Proof.
  induction s as [|c s IH]; cbn; [reflexivity|].
  rewrite IH, lower_char_space.
  destruct (Js.trimEnd s); cbn; [destruct (Js.is_space c)|]; reflexivity.
Qed.

Lemma toLowerCase_trim s : Js.trim (Js.toLowerCase s) = Js.toLowerCase (Js.trim s).
Proof. unfold Js.trim. rewrite toLowerCase_trimStart, toLowerCase_trimEnd. reflexivity. Qed.

(** Collapsing twice is collapsing once. *)
Lemma collapse_twice s :
  Js.collapse_from false (Js.collapse_from false s) = Js.collapse_from false s
  /\ forall b, Js.collapse_from b (Js.collapse_from true s) = Js.collapse_from true s.
Proof.
  induction s as [|c s [IHf IHt]]; cbn; [auto|].
  destruct (Js.is_space c) eqn:Hc.
  - split; [|exact IHt]. cbn. rewrite (IHt true). reflexivity.
  - split; [|intros b]; cbn; rewrite Hc, IHf; reflexivity.
Qed.

Lemma trimStart_collapse b s :
  Js.trimStart (Js.collapse_from b s) = Js.collapse_from false (Js.trimStart s).
Proof.
  revert b. induction s as [|c s IH]; intros b; cbn; [reflexivity|].
  destruct (Js.is_space c) eqn:Hc; [destruct b; cbn; apply IH|].
  cbn. rewrite Hc. reflexivity.
Qed.

Lemma trimEnd_cons c s :
  Js.trimEnd (String c s)
  = match Js.trimEnd s with
    | EmptyString => if Js.is_space c then EmptyString else String c EmptyString
    | r => String c r
    end.
Proof. reflexivity. Qed.

Lemma trimEnd_twice s : Js.trimEnd (Js.trimEnd s) = Js.trimEnd s.
Proof.
  induction s as [|c s IH]; [reflexivity|]. rewrite trimEnd_cons.
  destruct (Js.trimEnd s) as [|x r] eqn:Hr.
  - destruct (Js.is_space c) eqn:Hc; cbn; [reflexivity|]. rewrite Hc. reflexivity.
  - rewrite trimEnd_cons, IH. reflexivity.
Qed.

(** Text that collapses to nothing is white space. *)
Lemma collapse_empty b s : Js.collapse_from b s = "" -> Js.trimEnd s = "".
Proof.
  revert b. induction s as [|c s IH]; intros b; cbn; [reflexivity|].
  destruct (Js.is_space c); [|discriminate].
  destruct b; [|discriminate]. intros H. rewrite (IH true H). reflexivity.
Qed.

Lemma collapse_cons b c s :
  Js.collapse_from b (String c s)
  = if Js.is_space c
    then (if b then Js.collapse_from true s else String " " (Js.collapse_from true s))
    else String c (Js.collapse_from false s).
Proof. reflexivity. Qed.

Lemma trimEnd_collapse b s :
  Js.trimEnd (Js.collapse_from b s) = Js.collapse_from b (Js.trimEnd s).
Proof.
  revert b. induction s as [|c s IH]; intros b; [reflexivity|].
  rewrite collapse_cons, (trimEnd_cons c s).
  destruct (Js.is_space c) eqn:Hc; [destruct b|].
  - rewrite IH. destruct (Js.trimEnd s) as [|x r]; [reflexivity|].
    rewrite (collapse_cons true c), Hc. reflexivity.
  - rewrite trimEnd_cons, IH.
    destruct (Js.trimEnd s) as [|x r] eqn:Hr; [reflexivity|].
    rewrite (collapse_cons false c), Hc.
    destruct (Js.collapse_from true (String x r)) eqn:Hx; [|reflexivity].
    apply collapse_empty in Hx. rewrite <- Hr, trimEnd_twice, Hr in Hx.
    discriminate.
  - rewrite trimEnd_cons, IH.
    destruct (Js.trimEnd s) as [|x r].
    + rewrite collapse_cons, Hc. reflexivity.
    + rewrite (collapse_cons b c), Hc.
      destruct (Js.collapse_from false (String x r)); reflexivity.
Qed.

Lemma trim_collapse s :
  Js.trim (Js.collapse_spaces s) = Js.collapse_spaces (Js.trim s).
Proof.
  unfold Js.trim, Js.collapse_spaces. rewrite trimStart_collapse, trimEnd_collapse.
  reflexivity.
Qed.

Lemma trimStart_twice s : Js.trimStart (Js.trimStart s) = Js.trimStart s.
Proof.
  induction s as [|c s IH]; cbn; [reflexivity|].
  destruct (Js.is_space c) eqn:Hc; [exact IH|]. cbn. rewrite Hc. reflexivity.
Qed.

Lemma trimStart_trimEnd s :
  Js.trimStart (Js.trimEnd (Js.trimStart s)) = Js.trimEnd (Js.trimStart s).
Proof.
  induction s as [|c s IH]; cbn; [reflexivity|].
  destruct (Js.is_space c) eqn:Hc; [exact IH|].
  cbn [Js.trimEnd]. destruct (Js.trimEnd s); rewrite ?Hc; cbn; rewrite Hc; reflexivity.
Qed.

Lemma trim_twice s : Js.trim (Js.trim s) = Js.trim s.
Proof. unfold Js.trim. rewrite trimStart_trimEnd, trimEnd_twice. reflexivity. Qed.

End Normalization.

(** X3. Normalizing a normalized title changes nothing; and a normalized
    title is the same whether the white space is collapsed before or after
    the trimming. *)
Theorem normalizeText_idempotent (text : option string) :
  normalizeText (Some (normalizeText text)) = normalizeText text
  /\ normalizeText text
     = Js.toLowerCase (Js.collapse_spaces (Js.trim (default "" text))).
Proof.
  assert (Hnone : normalizeText None = normalizeText (Some "")) by reflexivity.
  assert (Hsome : forall s,
             normalizeText (Some (normalizeText (Some s))) = normalizeText (Some s)).
  { intros s. rewrite !normalizeText_some.
    unfold Js.collapse_spaces.
    rewrite toLowerCase_collapse, toLowerCase_trim, toLowerCase_twice.
    fold (Js.collapse_spaces s).
    fold (Js.collapse_spaces (Js.trim (Js.collapse_spaces s))).
    rewrite <- trim_collapse, trim_twice. unfold Js.collapse_spaces.
    rewrite (proj1 (collapse_twice s)). reflexivity. }
  destruct text as [s|]; cbn [from_option id].
  - split; [apply Hsome|]. rewrite normalizeText_some, trim_collapse. reflexivity.
  - rewrite Hnone. split; [apply Hsome | reflexivity].
Qed.

(** ** The size of the digests *)

Section DigestSize.

Lemma length_hex bs : String.length (Digest.hex bs) = 2 * List.length bs.
Proof. induction bs as [|b bs IH]; cbn; [reflexivity|]. rewrite IH. lia. Qed.

Lemma length_be_bytes k x : List.length (Digest.be_bytes k x) = k.
Proof. induction k as [|k IH]; cbn; [reflexivity|]. rewrite IH. reflexivity. Qed.

Lemma length_le_bytes k x : List.length (Digest.le_bytes k x) = k.
Proof. unfold Digest.le_bytes. rewrite length_rev. apply length_be_bytes. Qed.

Lemma length_concat_bytes (f : N -> list N) k (l : list N) :
  (forall x, List.length (f x) = k) ->
  List.length (List.concat (List.map f l)) = k * List.length l.
Proof.
  intros Hf. induction l as [|x l IH]; cbn; [lia|].
  rewrite List.length_app, Hf, IH. lia.
Qed.

Lemma length_add_words x y :
  List.length (Digest.add_words x y) = Nat.min (List.length x) (List.length y).
Proof. unfold Digest.add_words. rewrite length_map. apply length_combine. Qed.

Lemma fold_left_length {A B} (f : list A -> B -> list A) n (l : list B) st :
  (forall st b, List.length st = n -> List.length (f st b) = n) ->
  List.length st = n -> List.length (List.fold_left f l st) = n.
Proof.
  intros Hf. revert st. induction l as [|b l IH]; intros st Hst; cbn;
    [exact Hst | apply IH, Hf, Hst].
Qed.

Lemma length_md5_round M st i :
  List.length st = 4 -> List.length (Digest.md5_round M st i) = 4.
Proof.
  destruct st as [|a [|b [|c [|d [|e st]]]]]; try discriminate. intros _.
  unfold Digest.md5_round. destruct (i / 16) as [|[|[|n]]]; reflexivity.
Qed.

Lemma length_md5_block st block :
  List.length st = 4 -> List.length (Digest.md5_block st block) = 4.
Proof.
  intros Hst. unfold Digest.md5_block. rewrite length_add_words, Hst.
  rewrite (fold_left_length _ 4); [reflexivity | | exact Hst].
  intros st' i. apply length_md5_round.
Qed.

Lemma length_md5_hex s : String.length (Digest.md5_hex s) = 32.
Proof.
  unfold Digest.md5_hex, Digest.md5_bytes.
  rewrite length_hex, (length_concat_bytes _ 4) by apply length_le_bytes.
  rewrite (fold_left_length _ 4); [reflexivity | | reflexivity].
  intros st block. apply length_md5_block.
Qed.

Lemma length_sha256_round st kw :
  List.length st = 8 -> List.length (Digest.sha256_round st kw) = 8.
Proof.
  destruct st as [|a [|b [|c [|d [|e [|f [|g [|h [|i st]]]]]]]]]; try discriminate.
  reflexivity.
Qed.

Lemma length_sha256_block st block :
  List.length st = 8 -> List.length (Digest.sha256_block st block) = 8.
Proof.
  intros Hst. unfold Digest.sha256_block. rewrite length_add_words, Hst.
  rewrite (fold_left_length _ 8); [reflexivity | | exact Hst].
  intros st' kw. apply length_sha256_round.
Qed.

Lemma length_sha256_hex s : String.length (Digest.sha256_hex s) = 64.
Proof.
  unfold Digest.sha256_hex, Digest.sha256_bytes.
  rewrite length_hex, (length_concat_bytes _ 4) by apply length_be_bytes.
  rewrite (fold_left_length _ 8); [reflexivity | | reflexivity].
  intros st block. apply length_sha256_block.
Qed.

Lemma length_take_string n s :
  String.length (Js.take n s) = Nat.min n (String.length s).
Proof.
  revert s. induction n as [|n IH]; intros [|c s]; cbn; try reflexivity.
  rewrite IH. reflexivity.
Qed.

(** A pattern found by [search] matches at some place of the text. *)
Lemma search_some {A} (m : string -> option A) s a :
  Js.search m s = Some a -> exists t, m t = Some a.
Proof.
  induction s as [|c s IH]; cbn.
  - destruct (m "") eqn:Hm; [intros [= <-]; eauto | discriminate].
  - destruct (m (String c s)) eqn:Hm; [intros [= <-]; eauto | exact IH].
Qed.

End DigestSize.

(** X4. The fingerprints have a fixed size: the primary fingerprint is 64
    characters long and the secondary one 32, so that the first eight
    characters written to the log exist; the content hash is empty for a
    body that is absent or empty and 64 characters long otherwise. *)
Theorem fingerprint_sizes (c : ContentItem) :
  String.length (primary_fingerprint (generateContentFingerprint c)) = 64
  /\ String.length (secondary_fingerprint (generateContentFingerprint c)) = 32
  /\ String.length (Js.take 8 (primary_fingerprint (generateContentFingerprint c))) = 8
  /\ String.length (createContentHash (content c))
     = if Js.falsy (content c) then 0 else 64.
Proof.
  split; [apply length_sha256_hex|]. split; [apply length_md5_hex|].
  split; [rewrite length_take_string; cbn [primary_fingerprint generateContentFingerprint];
          rewrite length_sha256_hex; reflexivity|].
  unfold createContentHash. destruct (Js.falsy (content c));
    [reflexivity | apply length_sha256_hex].
Qed.

(** X5. A post id is missing only when the URL is absent or empty.
    Otherwise it is a run of digits, or the name of a creator followed by
    [_filtered], or eight characters of a digest: in no case is it empty. *)
Theorem post_id_shape (url : option string) :
  (extractPatreonPostId url = None <-> Js.falsy url = true)
  /\ forall id, extractPatreonPostId url = Some id ->
       id <> ""
       /\ ((Js.all_chars Js.is_digit id = true)
           \/ (exists creator, creator <> "" /\ id = creator +:+ "_filtered"
                /\ Js.all_chars (fun x => negb (Ascii.eqb x "/")) creator = true)
           \/ String.length id = 8).
Proof.
  unfold extractPatreonPostId. destruct (Js.falsy url) eqn:Hfalsy.
  { split; [split; reflexivity | discriminate]. }
  set (u := default "" url).
  assert (Hshape : forall id,
             match Js.search match_post_path u with
             | Some id => Some id
             | None =>
                 match Js.search match_creator_posts u with
                 | Some creator => Some (creator +:+ "_filtered")
                 | None => Some (Js.take 8 (Digest.md5_hex u))
                 end
             end = Some id ->
             id <> ""
             /\ ((Js.all_chars Js.is_digit id = true)
                 \/ (exists creator, creator <> "" /\ id = creator +:+ "_filtered"
                      /\ Js.all_chars (fun x => negb (Ascii.eqb x "/")) creator = true)
                 \/ String.length id = 8)).
  { intros id.
    destruct (Js.search match_post_path u) as [digits|] eqn:Hpost.
    - intros [= <-]. apply search_some in Hpost as [t Ht].
      unfold match_post_path in Ht. destruct (String.prefix _ t); [|discriminate].
      pose proof (span_fst_all Js.is_digit (Js.drop 7 t)) as Hall.
      destruct (Js.span Js.is_digit (Js.drop 7 t)) as [d r]. cbn in Hall.
      destruct (String.eqb_spec d "") as [|Hne]; [discriminate|].
      injection Ht as <-. split; [exact Hne | left; exact Hall].
    - destruct (Js.search match_creator_posts u) as [creator|] eqn:Hcreator.
      + intros [= <-]. apply search_some in Hcreator as [t Ht].
        unfold match_creator_posts in Ht. destruct (String.prefix _ t); [|discriminate].
        pose proof (span_fst_all (fun x => negb (Ascii.eqb x "/")) (Js.drop 12 t)) as Hall.
        destruct (Js.span _ (Js.drop 12 t)) as [cr r]. cbn in Hall.
        destruct (String.eqb_spec cr "") as [|Hne]; [discriminate|].
        destruct (String.prefix "/posts" r); [|discriminate].
        injection Ht as <-. split.
        * destruct cr; [contradiction | discriminate].
        * right. left. exists cr. auto.
      + set (h := Js.take 8 (Digest.md5_hex u)).
        assert (Hlen : String.length h = 8)
          by (subst h; rewrite length_take_string, length_md5_hex; reflexivity).
        clearbody h. intros [= <-].
        split; [|right; right; exact Hlen].
        destruct h; [discriminate Hlen | discriminate]. }
  split; [|exact Hshape].
  split; [|discriminate].
  destruct (Js.search match_post_path u); [discriminate|].
  destruct (Js.search match_creator_posts u); discriminate.
Qed.

(** X6. A video id, when there is one, is not empty and has neither the
    letter s nor a backslash: the class of the three patterns, written
    [[^\\s]], ends the id at the first of them and not at white space. No
    video id is found in a body that is absent or empty. *)
Theorem video_id_shape (body : option string) :
  (Js.falsy body = true -> extractVideoId body = None)
  /\ forall id, extractVideoId body = Some id ->
       id <> ""
       /\ Js.all_chars (fun x => negb (Ascii.eqb x "s") && negb (Ascii.eqb x "\")) id = true.
Proof.
  unfold extractVideoId. split; [intros ->; reflexivity|].
  assert (Hmatch : forall prefix excluded t id,
             In "s"%char excluded -> In "\"%char excluded ->
             match_after prefix excluded t = Some id ->
             id <> ""
             /\ Js.all_chars (fun x => negb (Ascii.eqb x "s") && negb (Ascii.eqb x "\")) id
                = true).
  { intros prefix excluded t id Hs Hb. unfold match_after.
    destruct (String.prefix prefix t); [|discriminate].
    pose proof (span_fst_all (fun c => negb (existsb (Ascii.eqb c) excluded))
                  (Js.drop (String.length prefix) t)) as Hall.
    destruct (Js.span _ _) as [d r]. cbn in Hall.
    destruct (String.eqb_spec d "") as [|Hne]; [discriminate|].
    intros [= <-]. split; [exact Hne|].
    clear Hne. induction d as [|x d IH]; [reflexivity|].
    cbn in Hall |- *. apply andb_prop in Hall as [Hx Hd]. rewrite (IH Hd), andb_true_r.
    apply negb_true_iff in Hx.
    destruct (Ascii.eqb_spec x "s") as [->|_].
    { exfalso. apply not_true_iff_false in Hx. apply Hx.
      apply existsb_exists. exists "s"%char. split; [exact Hs | apply Ascii.eqb_refl]. }
    destruct (Ascii.eqb_spec x "\") as [->|_]; [|reflexivity].
    exfalso. apply not_true_iff_false in Hx. apply Hx.
    apply existsb_exists. exists "\"%char. split; [exact Hb | apply Ascii.eqb_refl]. }
  intros id. destruct (Js.falsy body); [discriminate|].
  destruct (Js.search _ _) as [live|] eqn:Hlive.
  - intros [= <-]. apply search_some in Hlive as [t Ht].
    eapply Hmatch; [| |exact Ht]; cbn; auto.
  - destruct (Js.search (match_after "youtube.com/watch?v=" _) _) as [watch|] eqn:Hwatch.
    + intros [= <-]. apply search_some in Hwatch as [t Ht].
      eapply Hmatch; [| |exact Ht]; cbn; auto.
    + intros Hshort. apply search_some in Hshort as [t Ht].
      eapply Hmatch; [| |exact Ht]; cbn; auto.
Qed.

(** ** The records of the store and the policy *)

Section StoreLife.

Implicit Types (st : Store) (r : ProcessingRecord).

(** On a record of the current version with no [status], the policy looks
    at the flag only. *)
Lemma shouldReprocess_current_version r :
  processing_version r = Some getCurrentProcessingVersion ->
  status r = None ->
  shouldReprocess r
  = if bool_decide (force_reprocess_flag r = Some true)
    then forced_decision else acceptable_decision.
Proof.
  intros Hversion Hstatus.
  unfold shouldReprocess, hasNewerProcessingVersion, hasPriorityTagsNeedingReprocessing.
  rewrite Hversion, Hstatus. cbn [js_string_lt].
  replace (String.ltb getCurrentProcessingVersion getCurrentProcessingVersion)
    with false by reflexivity.
  replace (String.ltb getCurrentProcessingVersion "2.0.0") with false by reflexivity.
  rewrite !andb_false_r.
  rewrite (bool_decide_eq_false_2 (None = Some "failed")) by discriminate.
  reflexivity.
Qed.

Lemma store_reachable_records st :
  store_reachable st ->
  forall k r, st !! k = Some r ->
    processing_version r = Some getCurrentProcessingVersion /\ status r = None.
Proof.
  induction 1 as [|now fp c st _ IH|now fp res q st _ IH|find identifier why st _ IH];
    intros k r Hk.
  - rewrite lookup_empty in Hk. discriminate.
  - unfold markAsProcessing, saveToDatabase in Hk. cbn in Hk.
    destruct (decide (primary_fingerprint fp = k)) as [<-|Hne].
    + rewrite lookup_insert_eq in Hk. injection Hk as <-. split; reflexivity.
    + rewrite lookup_insert_ne in Hk by exact Hne. eauto.
  - unfold markAsCompleted, saveToDatabase in Hk. cbn zeta in Hk.
    destruct (decide (primary_fingerprint fp = k)) as [<-|Hne].
    + rewrite lookup_insert_eq in Hk. injection Hk as <-. split; reflexivity.
    + rewrite lookup_insert_ne in Hk by exact Hne. eauto.
  - unfold forceReprocess_with in Hk. rewrite reprocess_hashes_lookup in Hk.
    destruct (decide (k ∈ find identifier)); [|eauto].
    destruct (st !! k) as [r0|] eqn:Hr0; [|discriminate].
    injection Hk as <-. cbn. eauto.
Qed.

End StoreLife.

(** X7. Every record of a store built by [markAsProcessing],
    [markAsCompleted] and [forceReprocess] has the current processing version
    and no [status] field: [shouldReprocess] asks for reprocessing exactly
    when the record is flagged, with the reason
    ['force_reprocess_requested'], and answers ['content_acceptable']
    otherwise, whatever the quality score and the tags. *)
Theorem store_records_reprocessed_only_when_forced (st : Store) (k : string)
    (r : ProcessingRecord) :
  store_reachable st ->
  st !! k = Some r ->
  processing_version r = Some getCurrentProcessingVersion
  /\ shouldReprocess r
     = (if bool_decide (force_reprocess_flag r = Some true)
        then forced_decision else acceptable_decision).
Proof.
  intros Hst Hk. destruct (store_reachable_records st Hst k r Hk) as [Hv Hs].
  split; [exact Hv | apply shouldReprocess_current_version; assumption].
Qed.

Lemma store_records_reprocessed_only_when_forced_witness :
  let fp := generateContentFingerprint x_item in
  let r := completedInfo "2024-05-01T10:00:00.000Z" fp (JsStr "summary") (Some (1 # 10)) in
  processing_version r = Some getCurrentProcessingVersion
  /\ shouldReprocess r
     = (if bool_decide (force_reprocess_flag r = Some true)
        then forced_decision else acceptable_decision).
Proof.
  intros fp r.
  apply (store_records_reprocessed_only_when_forced
           (markAsCompleted "2024-05-01T10:00:00.000Z" fp (JsStr "summary")
              (Some (1 # 10)) ∅)
           (primary_fingerprint fp) r).
  - apply store_marked_completed, store_new.
  - apply markAsCompleted_lookup.
Defined.

(** X8. [checkIfProcessed] leaves the store as it is, and answers a
    duplicate exactly when the store has a record under the primary
    fingerprint of the content; when it has none, the answer carries the
    fingerprint and [should_process]. *)
Theorem checkIfProcessed_reads_the_store (c : ContentItem) (st : Store) :
  let fp := generateContentFingerprint c in
  (checkIfProcessed c st).2 = st
  /\ (is_duplicate (checkIfProcessed c st).1 = true
      <-> is_Some (st !! primary_fingerprint fp))
  /\ (forall r, st !! primary_fingerprint fp = Some r ->
        (checkIfProcessed c st).1 = duplicate_answer r)
  /\ (st !! primary_fingerprint fp = None ->
        fingerprint (checkIfProcessed c st).1 = Some fp
        /\ should_process (checkIfProcessed c st).1 = Some true
        /\ dup_should_reprocess (checkIfProcessed c st).1 = None).
Proof.
  cbn zeta. unfold checkIfProcessed, checkDatabase.
  destruct (st !! primary_fingerprint (generateContentFingerprint c)) as [r|];
    cbn; (split; [reflexivity|]); (split; [|split]).
  - split; [eauto | reflexivity].
  - intros r' [= <-]. reflexivity.
  - discriminate.
  - split; [discriminate | intros [? ?]; discriminate].
  - discriminate.
  - auto.
Qed.

(** X9. [forceReprocess] creates no record and deletes none, whatever the
    lookup returns: the store has the same keys after it, a hash with no
    record is passed over, and a record whose hash the lookup did not return
    is as it was. *)
Theorem forceReprocess_keeps_the_keys (find : string -> list string)
    (identifier : string) (why : option string) (st : Store) :
  dom (forceReprocess_with find identifier why st) = dom st
  /\ forall k, k ∉ find identifier ->
       forceReprocess_with find identifier why st !! k = st !! k.
Proof.
  split.
  - apply set_eq. intros k. rewrite !elem_of_dom. unfold forceReprocess_with.
    rewrite reprocess_hashes_lookup. destruct (decide (k ∈ find identifier));
      [|reflexivity].
    destruct (st !! k); cbn; split; intros [? ?]; eauto; discriminate.
  - intros k Hk. unfold forceReprocess_with.
    rewrite reprocess_hashes_lookup, decide_False by exact Hk. reflexivity.
Qed.

(** X10. On a record that is not flagged and whose [status] is ['failed'],
    [shouldReprocess] answers ['retry_failed_processing'] exactly when
    [error_count < 3] holds: when [error_count] is a number below 3, and
    when it is [null], which the comparison reads as 0. A failed record
    without [error_count] is not retried. *)
Theorem retry_rule_bound (r : ProcessingRecord) :
  force_reprocess_flag r <> Some true ->
  status r = Some "failed" ->
  (reason (shouldReprocess r) = "retry_failed_processing"
   <-> error_count r = Some Null
       \/ exists n, error_count r = Some (Value n) /\ (n < 3)%Z)
  /\ (error_count r = None ->
      reason (shouldReprocess r) <> "retry_failed_processing")
  /\ (reason (shouldReprocess r) = "retry_failed_processing" ->
      should_reprocess (shouldReprocess r) = true).
Proof.
  intros Hflag Hstatus. unfold shouldReprocess.
  rewrite (bool_decide_eq_false_2 _ Hflag), (bool_decide_eq_true_2 _ Hstatus).
  cbn [andb]. unfold js_int_lt.
  destruct (error_count r) as [[|n]|].
  - cbn [Z.ltb Z.compare reason should_reprocess].
    split; [split; [auto | reflexivity]|]. split; [discriminate | reflexivity].
  - destruct (Z.ltb_spec n 3) as [Hlt|Hge]; cbn [reason should_reprocess].
    + split; [split; [eauto | reflexivity]|]. split; [discriminate | reflexivity].
    + assert (Hno : reason
                      (if js_num_lt (quality_score r) (7 # 10)
                          && hasNewerProcessingVersion (processing_version r)
                       then {| should_reprocess := true;
                               reason := "quality_improvement_available" |}
                       else if hasPriorityTagsNeedingReprocessing r
                            then {| should_reprocess := true;
                                    reason := "priority_tags_detected" |}
                            else {| should_reprocess := false;
                                    reason := "content_acceptable" |})
                    <> "retry_failed_processing")
        by (repeat (case_match; cbn [reason]; try discriminate)).
      split; [split|split].
      * intros H. contradiction.
      * intros [[=] | (m & [= <-] & Hm)]. lia.
      * discriminate.
      * intros H. contradiction.
  - assert (Hno : reason
                    (if js_num_lt (quality_score r) (7 # 10)
                        && hasNewerProcessingVersion (processing_version r)
                     then {| should_reprocess := true;
                             reason := "quality_improvement_available" |}
                     else if hasPriorityTagsNeedingReprocessing r
                          then {| should_reprocess := true;
                                  reason := "priority_tags_detected" |}
                          else {| should_reprocess := false;
                                  reason := "content_acceptable" |})
                  <> "retry_failed_processing")
      by (repeat (case_match; cbn [reason]; try discriminate)).
    split; [split|split].
    + intros H. contradiction.
    + intros [[=] | (m & [=] & _)].
    + intros _. exact Hno.
    + intros H. contradiction.
Qed.

Lemma retry_rule_bound_witness :
  let r := {| content_hash := Some "00ff"; content_id := None;
              processing_status := None; status := Some "failed";
              started_processing := None; last_processed := None;
              quality_score := None; processing_version := Some "2.0.0";
              result := None; force_reprocess_flag := None;
              error_count := Some Null; content_metadata := None;
              original_content := None; reprocess_reason := None |} in
  (reason (shouldReprocess r) = "retry_failed_processing"
   <-> error_count r = Some Null
       \/ exists n, error_count r = Some (Value n) /\ (n < 3)%Z)
  /\ (error_count r = None ->
      reason (shouldReprocess r) <> "retry_failed_processing")
  /\ (reason (shouldReprocess r) = "retry_failed_processing" ->
      should_reprocess (shouldReprocess r) = true).
Proof. intros r. apply (retry_rule_bound r); [discriminate | reflexivity]. Defined.

(** ** The router with the duplicate check *)

Section Duplicates.

Implicit Types (st : Store) (r : ProcessingRecord).

(** What [determineRoute] answers when the store has a record for the
    content. *)
Lemma determineRoute_on_record now router text contentType options st r :
  st !! primary_fingerprint (generateContentFingerprint (duplicate_query text options))
  = Some r ->
  determineRoute_with_duplicates now router text contentType options st
  = if should_reprocess (shouldReprocess r)
    then ({| route := determineRoute now router text contentType (routing_options options);
             route_cached_result := None; skip_processing := None |}, st)
    else ({| route := Decision "cache" "cached_result"
                        ("Duplicate content skipped: "
                           +:+ (if String.eqb (reason (shouldReprocess r)) ""
                                then "already processed"
                                else reason (shouldReprocess r)))
                        None None;
             route_cached_result := result r;
             skip_processing := Some true |}, st).
Proof.
  intros Hr. unfold determineRoute_with_duplicates, checkIfProcessed. rewrite Hr.
  cbn. destruct (should_reprocess (shouldReprocess r)); reflexivity.
Qed.

End Duplicates.

(** X11. Content that the store knows as completed is not routed again:
    [determineRoute] answers the route ['cache'] with the stored result and
    [skip_processing], whatever the quality score stored. It does the same
    for content that is only marked as processing, and then the cached
    result is undefined. *)
Theorem known_content_is_skipped (now now' : string) (router : Router)
    (text : string) (contentType : option string) (options : SourceOptions)
    (st : Store) (res : JsValue) (q : option Q) :
  let item := duplicate_query text options in
  let fp := generateContentFingerprint item in
  let skipped cached :=
    {| route := Decision "cache" "cached_result"
                  "Duplicate content skipped: content_acceptable" None None;
       route_cached_result := cached;
       skip_processing := Some true |} in
  determineRoute_with_duplicates now' router text contentType options
    (markAsCompleted now fp res q st)
  = (skipped (Some res), markAsCompleted now fp res q st)
  /\ determineRoute_with_duplicates now' router text contentType options
       (markAsProcessing now fp item st).2
     = (skipped None, (markAsProcessing now fp item st).2).
Proof.
  cbn zeta. split.
  - rewrite (determineRoute_on_record _ _ _ _ _ _ _ (markAsCompleted_lookup _ _ _ _ _)).
    rewrite shouldReprocess_current_version by reflexivity. reflexivity.
  - erewrite determineRoute_on_record
      by (unfold markAsProcessing, saveToDatabase; cbn; apply lookup_insert_eq).
    rewrite shouldReprocess_current_version by reflexivity. reflexivity.
Qed.

(** X12. Content whose record [forceReprocess] has marked is routed again:
    [determineRoute] answers what the router without the duplicate check
    answers. Once [markAsCompleted] has stored the new result, the flag is
    cleared and the content is skipped again, with the new result. *)
Theorem forced_content_is_routed_again (find : string -> list string)
    (identifier : string) (why : option string) (now now' : string)
    (router : Router) (text : string) (contentType : option string)
    (options : SourceOptions) (st : Store) (r : ProcessingRecord)
    (res : JsValue) (q : option Q) :
  let fp := generateContentFingerprint (duplicate_query text options) in
  let forced := forceReprocess_with find identifier why st in
  primary_fingerprint fp ∈ find identifier ->
  st !! primary_fingerprint fp = Some r ->
  determineRoute_with_duplicates now router text contentType options forced
  = ({| route := determineRoute now router text contentType (routing_options options);
        route_cached_result := None; skip_processing := None |}, forced)
  /\ route_to (route (determineRoute_with_duplicates now router text contentType options
                        (markAsCompleted now' fp res q forced)).1) = "cache"
  /\ route_cached_result
       (determineRoute_with_duplicates now router text contentType options
          (markAsCompleted now' fp res q forced)).1 = Some res.
Proof.
  intros fp forced Hin Hr. split.
  - assert (Hforced : forced !! primary_fingerprint fp
                      = Some (mark_for_reprocessing (default "manual_request" why) r)).
    { subst forced. unfold forceReprocess_with.
      rewrite reprocess_hashes_lookup, decide_True by exact Hin.
      rewrite Hr. reflexivity. }
    rewrite (determineRoute_on_record _ _ _ _ _ _ _ Hforced).
    rewrite shouldReprocess_forced by reflexivity. reflexivity.
  - subst fp.
    rewrite (determineRoute_on_record _ _ _ _ _ _ _ (markAsCompleted_lookup _ _ _ _ _)).
    rewrite shouldReprocess_current_version by reflexivity. split; reflexivity.
Qed.

Lemma forced_content_is_routed_again_witness :
  let fp := generateContentFingerprint (duplicate_query "Hello" x_options) in
  let st := markAsCompleted "2024-05-01T10:00:00.000Z" fp (JsStr "summary") None ∅ in
  let find := fun identifier : string => [primary_fingerprint fp] in
  let forced := forceReprocess_with find "123" None st in
  determineRoute_with_duplicates "2024-05-02T10:00:00.000Z" busy_router "Hello"
    (Some "text") x_options forced
  = ({| route := determineRoute "2024-05-02T10:00:00.000Z" busy_router "Hello"
                   (Some "text") no_options;
        route_cached_result := None; skip_processing := None |}, forced)
  /\ route_to (route (determineRoute_with_duplicates "2024-05-02T10:00:00.000Z"
                        busy_router "Hello" (Some "text") x_options
                        (markAsCompleted "2024-05-03T10:00:00.000Z" fp (JsStr "again")
                           None forced)).1) = "cache"
  /\ route_cached_result
       (determineRoute_with_duplicates "2024-05-02T10:00:00.000Z" busy_router "Hello"
          (Some "text") x_options
          (markAsCompleted "2024-05-03T10:00:00.000Z" fp (JsStr "again") None forced)).1
     = Some (JsStr "again").
Proof.
  intros fp st find forced.
  apply (forced_content_is_routed_again find "123" None
           "2024-05-02T10:00:00.000Z" "2024-05-03T10:00:00.000Z" busy_router "Hello"
           (Some "text") x_options st
           (completedInfo "2024-05-01T10:00:00.000Z" fp (JsStr "summary") None)).
  - apply elem_of_cons. left. reflexivity.
  - apply markAsCompleted_lookup.
Defined.

(** ** The routing rules *)

Section Rules.

Local Open Scope Q_scope.

End Rules.

(** X13. Content that is not an image is routed to the cloud by
    [applyRoutingRules] exactly when it has the trading category and a
    complexity above 0.7, or a complexity of 0.8 or more; an image never
    is. In particular nothing of complexity 0.7 or less goes to the cloud. *)
Theorem cloud_routing_condition (text : string) (complexity : ComplexityAnalysis)
    (classification : Classification) (options : Options) :
  let d := applyRoutingRules text complexity classification options in
  let score := complexity_score complexity in
  (content_type classification = Some "image" -> route_to d = "local")
  /\ (content_type classification <> Some "image" ->
      (route_to d = "cloud"
       <-> (has_category "trading_content" classification = true /\ (7 # 10 < score)%Q)
           \/ (8 # 10 <= score)%Q))
  /\ (route_to d = "cloud" -> (7 # 10 < score)%Q)
  /\ (route_to d = "local" \/ route_to d = "cloud").
Proof.
  cbn zeta. unfold applyRoutingRules.
  destruct (bool_decide (content_type classification = Some "image")) eqn:Himage.
  { apply bool_decide_eq_true in Himage. cbn [route_to].
    split; [reflexivity|]. split; [contradiction|]. split; [discriminate | auto]. }
  apply bool_decide_eq_false in Himage.
  split; [contradiction|].
  destruct (has_category "trading_content" classification) eqn:Htrading;
    destruct (Q_ltb (7 # 10) (complexity_score complexity)) eqn:H7; cbn [andb];
    try (apply Q_ltb_lt in H7); try (apply Q_ltb_false in H7).
  - cbn [route_to]. split; [intros _; split; auto|]. split; auto.
  - assert (H8 : Qle_bool (8 # 10) (complexity_score complexity) = false).
    { apply Qle_bool_false. eapply Qle_lt_trans; [exact H7 | reflexivity]. }
    assert (Hno : ~ (8 # 10 <= complexity_score complexity)%Q).
    { apply Qlt_not_le. eapply Qle_lt_trans; [exact H7 | reflexivity]. }
    rewrite H8.
    repeat (case_match; cbn [route_to]);
      (split; [intros _; split;
                 [discriminate
                 | intros [[_ Hlt]|Hle];
                   [exfalso; exact (Qlt_not_le _ _ Hlt H7) | contradiction]]
              | split; [discriminate | auto]]).
  - destruct (Qle_bool (8 # 10) (complexity_score complexity)) eqn:H8.
    + apply Qle_bool_iff in H8.
      assert (Hlow3 : Q_ltb (complexity_score complexity) (3 # 10) = false).
      { apply Q_ltb_false. eapply Qle_trans; [|exact H8]. discriminate. }
      assert (Hlow8 : Q_ltb (complexity_score complexity) (8 # 10) = false)
        by (apply Q_ltb_false; exact H8).
      rewrite Hlow3, Hlow8, !andb_false_r. cbn [route_to].
      split; [intros _; split; auto|]. split; auto.
    + pose proof (proj1 (Qle_bool_false _ _) H8) as Hlt8.
      repeat (case_match; cbn [route_to]);
        (split; [intros _; split;
                   [discriminate
                   | intros [[Hf _]|Hle];
                     [discriminate | exfalso; exact (Qlt_not_le _ _ Hlt8 Hle)]]
                | split; [discriminate | auto]]).
  - assert (H8 : Qle_bool (8 # 10) (complexity_score complexity) = false).
    { apply Qle_bool_false. eapply Qle_lt_trans; [exact H7 | reflexivity]. }
    rewrite H8.
    repeat (case_match; cbn [route_to]);
      (split; [intros _; split;
                 [discriminate
                 | intros [[Hf _]|Hle];
                   [discriminate
                   | exfalso; apply (Qlt_not_le (complexity_score complexity) (8 # 10));
                     [eapply Qle_lt_trans; [exact H7 | reflexivity] | exact Hle]]]
              | split; [discriminate | auto]]).
Qed.

Lemma cloud_routing_condition_witness :
  let complexity := analyzeComplexity trading_text (Some "text") in
  let classification := classifyContent trading_text (Some "text") in
  let d := applyRoutingRules trading_text complexity classification no_options in
  content_type classification <> Some "image"
  /\ route_to d = "cloud"
  /\ (7 # 10 < complexity_score complexity)%Q.
Proof.
  intros complexity classification d.
  destruct (cloud_routing_condition trading_text complexity classification no_options)
    as (_ & Hiff & Hscore & _).
  assert (Htext : content_type classification <> Some "image") by discriminate.
  split; [exact Htext|].
  assert (Hcloud : route_to d = "cloud").
  { apply (Hiff Htext). left. split; reflexivity. }
  split; [exact Hcloud | exact (Hscore Hcloud)].
Defined.

(** The decisions of the rules, and of [determineRoute], name one of the
    two backends. *)
Lemma applyRoutingRules_backend text complexity classification options :
  route_to (applyRoutingRules text complexity classification options) = "local"
  \/ route_to (applyRoutingRules text complexity classification options) = "cloud".
Proof.
  unfold applyRoutingRules. repeat case_match; cbn [route_to]; auto.
Qed.

Lemma determineRoute_backend now r text contentType options :
  route_to (determineRoute now r text contentType options) = "local"
  \/ route_to (determineRoute now r text contentType options) = "cloud".
Proof.
  unfold determineRoute, optimizeRouting.
  set (d0 := applyRoutingRules _ _ _ _).
  assert (H0 : route_to d0 = "local" \/ route_to d0 = "cloud")
    by apply applyRoutingRules_backend.
  assert (H1 : route_to (cost_guard now r d0 options) = "local"
               \/ route_to (cost_guard now r d0 options) = "cloud").
  { unfold cost_guard. repeat (case_match; try exact H0). left. reflexivity. }
  unfold latency_guard. repeat (case_match; try exact H1). right. reflexivity.
Qed.

(** X14. Whatever the options and the counters of the router are,
    [determineRoute] answers a decision for ['local'] or for ['cloud'], so
    that [executeRouting] calls one of the two backends on it and does not
    throw [Unknown routing destination]. *)
Theorem determineRoute_has_a_backend (now : string) (r : Router) (text : string)
    (contentType : option string) (options : Options) :
  let d := determineRoute now r text contentType options in
  (route_to d = "local" \/ route_to d = "cloud")
  /\ forall (localProcess cloudProcess :
               nat -> string -> string -> Options -> JsValue + string)
            (pos : nat) (text' : string) (options' : Options),
      executeRouting localProcess cloudProcess pos d text' options'
      = if String.eqb (route_to d) "local"
        then localProcess pos (model d) text' options'
        else cloudProcess pos (model d) text' options'.
Proof.
  cbn zeta. pose proof (determineRoute_backend now r text contentType options) as Hroute.
  split; [exact Hroute|]. intros lp cp pos text' options'. unfold executeRouting.
  destruct Hroute as [-> | ->]; reflexivity.
Qed.

(** ** Complexity and classification *)

(** A score and its factors go together: no factor and a score of 0, or
    some factor and a positive score. *)
Abbreviation in_step a :=
  ((factors a = [] /\ Qeq (complexity_score a) 0)
   \/ (factors a <> [] /\ Qlt 0 (complexity_score a))).

Section Factors.

Local Open Scope Q_scope.

Lemma in_step_add (a : ComplexityAnalysis) (q : Q) (factor : string) :
  0 < q -> in_step a ->
  in_step {| content_length := content_length a;
             complexity_score := complexity_score a + q;
             factors := factors a ++ [factor] |}.
Proof.
  intros Hq Ha. right. cbn. split; [destruct (factors a); discriminate|].
  destruct Ha as [[_ H0]|[_ Hpos]].
  - rewrite H0, Qplus_0_l. exact Hq.
  - rewrite <- (Qplus_0_l 0). apply Qplus_lt_le_compat; [exact Hpos|].
    apply Qlt_le_weak, Hq.
Qed.

Lemma in_step_indicator text a indexed :
  in_step a -> in_step (add_indicator text a indexed).
Proof.
  intros Ha. unfold add_indicator. destruct (Nat.ltb 0 _); [|exact Ha].
  apply in_step_add; [|exact Ha].
  rewrite <- (Qplus_0_l 0). apply Qplus_lt_le_compat; [reflexivity|].
  apply Qmult_le_0_compat; [|discriminate]. unfold Qle; cbn. lia.
Qed.

Lemma in_step_indicators text l a :
  in_step a -> in_step (List.fold_left (add_indicator text) l a).
Proof.
  revert a. induction l as [|x l IH]; intros a Ha; cbn [List.fold_left];
    [exact Ha | apply IH, in_step_indicator, Ha].
Qed.

End Factors.

(** X15. The analysis names a factor exactly when the score is not 0: a
    text with no factor has the complexity 0, and every factor named has
    added to the score. *)
Theorem factors_explain_the_score (text : string) (contentType : option string) :
  let a := analyzeComplexity text contentType in
  (factors a = [] <-> (complexity_score a == 0)%Q)
  /\ (factors a <> [] <-> (0 < complexity_score a)%Q).
Proof.
  cbn zeta.
  assert (Hstep : in_step (analyzeComplexity text contentType)).
  { unfold analyzeComplexity.
    set (a1 := if Nat.ltb 5000 _ then _ else _).
    assert (H1 : in_step a1).
    { subst a1. destruct (Nat.ltb 5000 _).
      - apply (in_step_add {| content_length := String.length text;
                              complexity_score := 0; factors := [] |});
          [reflexivity | left; split; reflexivity].
      - left. split; reflexivity. }
    set (a2 := List.fold_left _ _ a1).
    assert (H2 : in_step a2) by (apply in_step_indicators, H1).
    set (a3 := if test_words technicalWords text then _ else a2).
    assert (H3 : in_step a3).
    { subst a3. destruct (test_words _ _); [|exact H2].
      apply in_step_add; [reflexivity | exact H2]. }
    destruct H3 as [[Hnil Hzero]|[Hsome Hpos]]; [left|right]; cbn; split; trivial.
    - rewrite Hzero. reflexivity.
    - apply Q.min_glb_lt; [exact Hpos | reflexivity]. }
  destruct Hstep as [[Hnil Hzero]|[Hsome Hpos]].
  - split; split; intros H; trivial.
    + contradiction.
    + rewrite Hzero in H. discriminate H.
  - split; split; intros H; trivial.
    + contradiction.
    + rewrite H in Hpos. discriminate Hpos.
Qed.

(** X16. The fields of a classification go together: [requires_cloud] is
    set only with the trading category, the priority ['high'] and three
    trading keywords or more; the keywords are trading keywords that the text
    has in lower case; the priority is ['high'] exactly with the trading
    category; and the multimedia category is there exactly for an image or a
    video. *)
Theorem classification_fields_agree (text : string) (contentType : option string) :
  let cl := classifyContent text contentType in
  (requires_cloud cl = true ->
   has_category "trading_content" cl = true /\ class_priority cl = "high"
   /\ 3 <= List.length (keywords cl))
  /\ (forall k, In k (keywords cl) ->
        In k tradingKeywords /\ Js.includes k (Js.toLowerCase text) = true)
  /\ (has_category "trading_content" cl = true <-> keywords cl <> [])
  /\ (class_priority cl = "high" <-> has_category "trading_content" cl = true)
  /\ (has_category "multimedia_content" cl = true
      <-> contentType = Some "image" \/ contentType = Some "video")
  /\ content_type cl = contentType.
Proof.
  cbn zeta. unfold classifyContent, has_category.
  set (found := List.filter _ tradingKeywords).
  set (media := bool_decide (contentType = Some "image")
                || bool_decide (contentType = Some "video")).
  cbn [requires_cloud keywords class_priority categories content_type].
  assert (Hsingle : forall c (b : bool) x,
             existsb (String.eqb c) (if b then [x] else []) = b && String.eqb c x).
  { intros c [] x; cbn; [apply orb_false_r | reflexivity]. }
  rewrite !existsb_app, !Hsingle.
  replace (String.eqb "trading_content" "trading_content") with true by reflexivity.
  replace (String.eqb "trading_content" "technical_content") with false by reflexivity.
  replace (String.eqb "trading_content" "informational_content") with false
    by reflexivity.
  replace (String.eqb "trading_content" "multimedia_content") with false by reflexivity.
  replace (String.eqb "multimedia_content" "trading_content") with false by reflexivity.
  replace (String.eqb "multimedia_content" "technical_content") with false
    by reflexivity.
  replace (String.eqb "multimedia_content" "informational_content") with false
    by reflexivity.
  replace (String.eqb "multimedia_content" "multimedia_content") with true by reflexivity.
  rewrite !andb_false_r, !andb_true_r, !orb_false_r. cbn [orb].
  assert (Hmedia : media = true
                   <-> contentType = Some "image" \/ contentType = Some "video").
  { subst media. rewrite orb_true_iff, !bool_decide_eq_true. reflexivity. }
  split; [|split; [|split; [|split; [|split; [exact Hmedia | reflexivity]]]]].
  - intros [Htrading Hcount]%andb_prop. apply Nat.ltb_lt in Hcount.
    rewrite Htrading. split; [reflexivity|]. split; [reflexivity | exact Hcount].
  - destruct (Nat.ltb 0 (List.length found)); [|intros k []].
    intros k Hk. apply List.filter_In in Hk. exact Hk.
  - destruct found as [|k found]; cbn; split; intros H.
    + discriminate H.
    + exfalso. apply H. reflexivity.
    + discriminate.
    + reflexivity.
  - destruct (Nat.ltb 0 (List.length found)); split; intros H;
      reflexivity || discriminate H.
Qed.

(** ** The performance counters and the optimizer *)

Section Counters.

Local Open Scope Q_scope.

Implicit Types (r : Router) (perf : Performance) (ms : list Metrics).

Lemma count_positive (n : nat) : 0 < inject_Z (Z.of_nat (S n)).
Proof. unfold Qlt; cbn. lia. Qed.

Lemma count_not_zero (n : nat) : ~ inject_Z (Z.of_nat (S n)) == 0.
Proof. intros H. pose proof (count_positive n) as Hpos. rewrite H in Hpos. discriminate. Qed.

(** What [updatePerformanceHistory] stores under its key. *)
Lemma updatePerformanceHistory_lookup routeType model metrics r :
  getModelPerformance routeType model (updatePerformanceHistory routeType model metrics r)
  = let existing :=
      default {| count := 0; total_latency := 0; total_cost := 0;
                 avg_latency := None; avg_cost := None |}
              (getModelPerformance routeType model r) in
    let n := S (count existing) in
    let tl := total_latency existing + default 0 (latency metrics) in
    let tc := total_cost existing + default 0 (cost metrics) in
    Some {| count := n; total_latency := tl; total_cost := tc;
            avg_latency := Some (tl / inject_Z (Z.of_nat n));
            avg_cost := Some (tc / inject_Z (Z.of_nat n)) |}.
Proof. unfold getModelPerformance, updatePerformanceHistory. cbn. apply lookup_insert_eq. Qed.

(** The latencies, and the costs, of a list of metrics added in turn to a
    total, as [+=] does. *)
Local Abbreviation latencies total ms :=
  (List.fold_left Qplus (List.map (fun x => default 0 (latency x)) ms) total).
Local Abbreviation costs total ms :=
  (List.fold_left Qplus (List.map (fun x => default 0 (cost x)) ms) total).

Lemma updates_accumulate routeType model ms r perf0 :
  getModelPerformance routeType model r = Some perf0 ->
  exists perf,
    getModelPerformance routeType model
      (List.fold_left (fun r x => updatePerformanceHistory routeType model x r) ms r)
    = Some perf
    /\ count perf = (count perf0 + List.length ms)%nat
    /\ total_latency perf = latencies (total_latency perf0) ms
    /\ total_cost perf = costs (total_cost perf0) ms
    /\ (ms <> [] ->
        avg_latency perf
        = Some (total_latency perf / inject_Z (Z.of_nat (count perf)))).
Proof.
  revert r perf0. induction ms as [|x ms IH]; intros r perf0 Hperf0.
  - exists perf0. cbn. rewrite Hperf0, Nat.add_0_r.
    repeat split; try reflexivity. contradiction.
  - cbn [List.fold_left].
    pose proof (updatePerformanceHistory_lookup routeType model x r) as Hx.
    rewrite Hperf0 in Hx. cbn in Hx.
    destruct (IH _ _ Hx) as (perf & Hperf & Hcount & Hlat & Hcost & Havg).
    exists perf. split; [exact Hperf|]. cbn in Hcount, Hlat, Hcost.
    split; [cbn; lia|]. split; [|split].
    + rewrite Hlat. reflexivity.
    + rewrite Hcost. reflexivity.
    + intros _. destruct ms as [|y ms]; [|apply Havg; discriminate].
      cbn in Hperf. rewrite Hx in Hperf. injection Hperf as <-. reflexivity.
Qed.

End Counters.

(** X17. In every state a router reaches, an entry of the performance
    history counts one request at least, and its averages are its totals
    divided by its count. *)
Theorem performance_averages (cfg : Config) (r : Router) (key : string)
    (perf : Performance) :
  reachable cfg r ->
  performanceHistory r !! key = Some perf ->
  1 <= count perf
  /\ avg_latency perf = Some (total_latency perf / inject_Z (Z.of_nat (count perf)))%Q
  /\ avg_cost perf = Some (total_cost perf / inject_Z (Z.of_nat (count perf)))%Q.
Proof.
  intros Hr. revert key perf.
  induction Hr as [|r c _ IH]; intros key perf Hkey.
  - cbn in Hkey. rewrite lookup_empty in Hkey. discriminate.
  - destruct c as [ | | ? ? ? ? | ? ? ? | ? | ? ? | routeType model metrics];
      try (eapply IH; exact Hkey).
    unfold run_call, updatePerformanceHistory in Hkey. cbn in Hkey.
    destruct (decide (performance_key routeType model = key)) as [<-|Hne].
    + rewrite lookup_insert_eq in Hkey. injection Hkey as <-. cbn.
      split; [lia|]. split; reflexivity.
    + rewrite lookup_insert_ne in Hkey by exact Hne. eapply IH. exact Hkey.
Qed.

Lemma performance_averages_witness :
  exists perf,
    performanceHistory busy_router !! "cloud:abacus_gpt4o" = Some perf
    /\ 1 <= count perf
    /\ avg_latency perf = Some (total_latency perf / inject_Z (Z.of_nat (count perf)))%Q
    /\ avg_cost perf = Some (total_cost perf / inject_Z (Z.of_nat (count perf)))%Q.
Proof.
  eexists. split; [apply lookup_insert_eq|].
  apply (performance_averages {| high_cost := 25 |} busy_router "cloud:abacus_gpt4o").
  - apply reachable_call, reachable_new.
  - apply lookup_insert_eq.
Defined.

(** The entry of a route and model after calls of
    [updatePerformanceHistory] on a new router. *)
Lemma updates_on_new_router (cfg : Config) (routeType model : string)
    (x : Metrics) (ms : list Metrics) :
  let r := List.fold_left (fun r x => updatePerformanceHistory routeType model x r)
                          (x :: ms) (new_router cfg) in
  exists perf,
    getModelPerformance routeType model r = Some perf
    /\ count perf = List.length (x :: ms)
    /\ total_latency perf
       = List.fold_left Qplus (List.map (fun x => default 0%Q (latency x)) (x :: ms)) 0%Q
    /\ total_cost perf
       = List.fold_left Qplus (List.map (fun x => default 0%Q (cost x)) (x :: ms)) 0%Q
    /\ avg_latency perf = Some (total_latency perf / inject_Z (Z.of_nat (count perf)))%Q.
Proof.
  cbn zeta. cbn [List.fold_left].
  pose proof (updatePerformanceHistory_lookup routeType model x (new_router cfg)) as Hx.
  unfold getModelPerformance at 2 in Hx. cbn in Hx. rewrite lookup_empty in Hx.
  cbn in Hx.
  destruct (updates_accumulate routeType model ms _ _ Hx)
    as (perf & Hperf & Hcount & Hlat & Hcost & Havg).
  exists perf. split; [exact Hperf|]. cbn in Hcount, Hlat, Hcost.
  split; [cbn; lia|]. split; [|split].
  - rewrite Hlat. reflexivity.
  - rewrite Hcost. reflexivity.
  - destruct ms as [|y ms]; [|apply Havg; discriminate].
    cbn in Hperf. rewrite Hx in Hperf. injection Hperf as <-. reflexivity.
Qed.

(** X18. After one call or more of [updatePerformanceHistory] for a route
    and a model on a new router, the entry of the route and model counts the
    calls, and its totals are the latencies and the costs passed, added in
    turn from 0, a missing one counting for 0; its mean latency is the total
    divided by the count. *)
Theorem counters_accumulate (cfg : Config) (routeType model : string)
    (x : Metrics) (ms : list Metrics) :
  let r := List.fold_left (fun r x => updatePerformanceHistory routeType model x r)
                          (x :: ms) (new_router cfg) in
  exists perf,
    getModelPerformance routeType model r = Some perf
    /\ count perf = List.length (x :: ms)
    /\ total_latency perf
       = List.fold_left Qplus (List.map (fun x => default 0%Q (latency x)) (x :: ms)) 0%Q
    /\ total_cost perf
       = List.fold_left Qplus (List.map (fun x => default 0%Q (cost x)) (x :: ms)) 0%Q
    /\ avg_latency perf = Some (total_latency perf / inject_Z (Z.of_nat (count perf)))%Q.
Proof. apply updates_on_new_router. Qed.



(** ** The model managers *)

Section ModelManagers.

Lemma js_or_default_truthy (x : option JsValue) (d : Q) :
  Qeq_bool d 0 = false -> truthy (js_or_default x d) = true.
Proof.
  intros Hd. unfold js_or_default. destruct x as [v|]; [|cbn; rewrite Hd; reflexivity].
  destruct (truthy v) eqn:Hv; [exact Hv|]. cbn. rewrite Hd. reflexivity.
Qed.


Lemma loadModel_grows modelName ollama L :
  L ⊆ (loadModel ollama modelName L).2.
Proof.
  unfold loadModel. destruct (bool_decide (modelName ∈ L)); [reflexivity|].
  destruct (makeRequest ollama modelName "Hello" warmup_options); cbn;
    [apply union_subseteq_r | reflexivity].
Qed.

Lemma loadModel_loaded modelName ollama L status :
  (loadModel ollama modelName L).1 = inl status ->
  modelName ∈ (loadModel ollama modelName L).2.
Proof.
  unfold loadModel. destruct (bool_decide (modelName ∈ L)) eqn:Hin.
  - intros _. apply bool_decide_eq_true in Hin. exact Hin.
  - destruct (makeRequest ollama modelName "Hello" warmup_options); cbn.
    + intros _. set_solver.
    + discriminate.
Qed.

Lemma loadModel_new modelName ollama L m :
  m ∈ (loadModel ollama modelName L).2 -> m ∉ L -> m = modelName.
Proof.
  unfold loadModel. destruct (bool_decide (modelName ∈ L)); [cbn; intros; contradiction|].
  destruct (makeRequest ollama modelName "Hello" warmup_options); cbn;
    intros Hm Hn; [|contradiction].
  apply elem_of_union in Hm as [Hm|Hm]; [|contradiction].
  apply elem_of_singleton in Hm. exact Hm.
Qed.

Lemma loadModel_already modelName ollama L :
  modelName ∈ L -> loadModel ollama modelName L = (inl "already_loaded", L).
Proof. intros Hin. unfold loadModel. rewrite bool_decide_eq_true_2 by exact Hin. reflexivity. Qed.

End ModelManagers.

Lemma local_process_status modelConfig ollama s e modelKey text options L :
  process_status (local_process modelConfig ollama s e modelKey text options L).1
  = "success"
  \/ process_status (local_process modelConfig ollama s e modelKey text options L).1
     = "error".
Proof.
  unfold local_process. destruct (config_entry modelConfig modelKey) as [cfg|]; [|auto].
  destruct (loadModel ollama (config_model cfg) L) as [[status|message] L']; [|auto].
  destruct (makeRequest ollama (config_model cfg) text (request_options cfg options));
    auto.
Qed.

(** After a success of [process] the model of the key is loaded. *)
Lemma local_process_outcome_loaded modelConfig ollama s e modelKey text options L :
  process_status (local_process modelConfig ollama s e modelKey text options L).1
  = "success" ->
  exists cfg,
    config_entry modelConfig modelKey = Some cfg
    /\ config_model cfg ∈ (local_process modelConfig ollama s e modelKey text options L).2.
Proof.
  unfold local_process.
  destruct (config_entry modelConfig modelKey) as [cfg|]; [|discriminate].
  pose proof (loadModel_loaded (config_model cfg) ollama L) as Hloaded.
  destruct (loadModel ollama (config_model cfg) L) as [[status|message] L'];
    [|discriminate].
  destruct (makeRequest ollama (config_model cfg) text (request_options cfg options));
    [|discriminate].
  intros _. exists cfg. split; [reflexivity|]. eapply Hloaded. reflexivity.
Qed.

(** X20. [process] of the local manager returns an object in every case,
    with the status ['success'] or ['error']. With ['success'] it has the
    response, no cost, and the name of a model that is loaded afterwards;
    with ['error'] it has a message and the key that was asked for. No model
    is unloaded, and the only model that may be loaded is that of the key. *)
Theorem local_process_outcome (modelConfig : gmap string ModelConfig)
    (ollama : OllamaRequest -> string + RequestError) (startTime endTime : Q)
    (modelKey text : string) (options : ModelOptions)
    (loadedModels : gset (option string)) :
  let out := local_process modelConfig ollama startTime endTime modelKey text options
                           loadedModels in
  (process_status out.1 = "success" \/ process_status out.1 = "error")
  /\ (process_status out.1 = "success" ->
      is_Some (process_result out.1) /\ process_error out.1 = None
      /\ estimated_cost out.1 = Some 0%Q /\ process_model out.1 ∈ out.2
      /\ exists cfg, config_entry modelConfig modelKey = Some cfg
                     /\ process_model out.1 = config_model cfg)
  /\ (process_status out.1 = "error" ->
      process_result out.1 = None /\ is_Some (process_error out.1)
      /\ estimated_cost out.1 = None /\ process_model out.1 = Some modelKey)
  /\ route_type out.1 = "local"
  /\ processing_time out.1 = (endTime - startTime)%Q
  /\ loadedModels ⊆ out.2
  /\ (forall m, m ∈ out.2 -> m ∉ loadedModels ->
        exists cfg, config_entry modelConfig modelKey = Some cfg /\ m = config_model cfg).
Proof.
  cbn zeta. unfold local_process.
  destruct (config_entry modelConfig modelKey) as [cfg|] eqn:Hcfg.
  2:{ cbn. repeat split; auto; try discriminate; try (eexists; reflexivity).
      intros m Hm Hn. contradiction. }
  pose proof (loadModel_grows (config_model cfg) ollama loadedModels) as Hgrow.
  pose proof (loadModel_loaded (config_model cfg) ollama loadedModels) as Hloaded.
  pose proof (fun m => loadModel_new (config_model cfg) ollama loadedModels m) as Hnew.
  destruct (loadModel ollama (config_model cfg) loadedModels) as [[status|message] L'].
  - cbn in Hgrow, Hloaded, Hnew.
    destruct (makeRequest ollama (config_model cfg) text (request_options cfg options))
      as [response|message]; cbn.
    + repeat split; auto; try discriminate; try (eexists; reflexivity).
      * eapply Hloaded. reflexivity.
      * exists cfg. split; reflexivity.
      * intros m Hm Hn. exists cfg. split; [reflexivity|]. apply Hnew; assumption.
    + repeat split; auto; try discriminate; try (eexists; reflexivity).
      intros m Hm Hn. exists cfg. split; [reflexivity|]. apply Hnew; assumption.
  - cbn in Hgrow, Hnew. cbn.
    repeat split; auto; try discriminate; try (eexists; reflexivity).
    intros m Hm Hn. exists cfg. split; [reflexivity|]. apply Hnew; assumption.
Qed.

(** X21. The check of the key in [process] passes a key that the
    configuration does not have when the key names a property that every
    object inherits, such as ['constructor'] or ['toString']: with a server
    that answers, the call succeeds for a model without name, which is
    entered in the set of loaded models. Any other key that the
    configuration does not have is reported as unknown, without a request
    and without a change of the set. *)
Theorem unknown_model_key_check (modelConfig : gmap string ModelConfig)
    (ollama : OllamaRequest -> string + RequestError) (startTime endTime : Q)
    (modelKey text : string) (options : ModelOptions)
    (loadedModels : gset (option string)) :
  modelConfig !! modelKey = None ->
  let out := local_process modelConfig ollama startTime endTime modelKey text options
                           loadedModels in
  (modelKey ∉ inherited_keys ->
   out = (failed_process "local" modelKey ("Unknown model key: " +:+ modelKey)
            (endTime - startTime)%Q, loadedModels))
  /\ (modelKey ∈ inherited_keys ->
      (forall request, exists response, ollama request = inl response) ->
      process_status out.1 = "success" /\ process_model out.1 = None
      /\ None ∈ out.2).
Proof.
  intros Hkey out. subst out. unfold local_process, config_entry. rewrite Hkey.
  split; intros Hin.
  - rewrite bool_decide_eq_false_2 by exact Hin. reflexivity.
  - intros Hserver. rewrite bool_decide_eq_true_2 by exact Hin.
    cbn [config_model inherited_value].
    pose proof (loadModel_loaded None ollama loadedModels) as Hloaded.
    assert (Hrequest : forall prompt o, exists response,
               makeRequest ollama None prompt o = inl response).
    { intros prompt o. unfold makeRequest.
      destruct (Hserver (ollama_request None prompt o)) as [response ->].
      exists response. reflexivity. }
    assert (Hload : exists status, (loadModel ollama None loadedModels).1 = inl status).
    { unfold loadModel. destruct (bool_decide (None ∈ loadedModels)).
      - eexists. reflexivity.
      - destruct (Hrequest "Hello" warmup_options) as [response ->].
        eexists. reflexivity. }
    destruct Hload as [status Hstatus]. specialize (Hloaded status Hstatus).
    destruct (loadModel ollama None loadedModels) as [[status'|message] L'];
      [|discriminate].
    destruct (Hrequest text (request_options inherited_value options)) as [response ->].
    cbn. auto.
Qed.

Lemma unknown_model_key_check_witness :
  let out key := local_process local_models answering_ollama 0 250 key "Hello"
                               no_model_options ∅ in
  out "summarize"
  = (failed_process "local" "summarize" "Unknown model key: summarize" 250, ∅)
  /\ process_status (out "toString").1 = "success"
  /\ process_model (out "toString").1 = None
  /\ None ∈ (out "toString").2.
Proof.
  intros out. split.
  - apply (unknown_model_key_check local_models answering_ollama 0 250 "summarize"
             "Hello" no_model_options ∅); [reflexivity|].
    vm_compute. intros H. repeat (apply elem_of_cons in H as [H|H]; [discriminate|]).
    apply elem_of_nil in H. exact H.
  - apply (unknown_model_key_check local_models answering_ollama 0 250 "toString"
             "Hello" no_model_options ∅); [reflexivity| |].
    + unfold inherited_keys. repeat (apply elem_of_cons; first [left; reflexivity | right]).
    + intros request. exists "ok". reflexivity.
Defined.

(** Once [process] has succeeded for a key, the model of the key is
    not warmed up again: a second call for the key sends the one request of
    the text, leaves the set of loaded models as it is, and succeeds with
    the response exactly when the server answers this request. *)
Theorem loaded_model_is_not_warmed_up_again (modelConfig : gmap string ModelConfig)
    (ollama : OllamaRequest -> string + RequestError) (s1 e1 s2 e2 : Q)
    (modelKey text1 text2 : string) (o1 o2 : ModelOptions)
    (loadedModels : gset (option string)) :
  let first := local_process modelConfig ollama s1 e1 modelKey text1 o1 loadedModels in
  let second := local_process modelConfig ollama s2 e2 modelKey text2 o2 first.2 in
  process_status first.1 = "success" ->
  exists cfg,
    config_entry modelConfig modelKey = Some cfg
    /\ second.2 = first.2
    /\ forall response,
        ollama (ollama_request (config_model cfg) text2 (request_options cfg o2))
        = inl response
        <-> (process_status second.1 = "success"
             /\ process_result second.1 = Some response).
Proof.
  intros first second Hfirst.
  destruct (local_process_outcome_loaded modelConfig ollama s1 e1 modelKey text1 o1
              loadedModels Hfirst) as (cfg & Hcfg & Hin).
  fold first in Hin. exists cfg. split; [exact Hcfg|].
  subst second. unfold local_process at 1 2 3. rewrite Hcfg.
  rewrite (loadModel_already _ _ _ Hin). unfold makeRequest.
  destruct (ollama (ollama_request (config_model cfg) text2 (request_options cfg o2)))
    as [response'|e].
  - cbn. split; [reflexivity|]. intros response. split.
    + intros [= ->]. auto.
    + intros [_ [= ->]]. reflexivity.
  - destruct (bool_decide (error_code e = Some "ECONNREFUSED")); cbn;
      (split; [reflexivity|]); intros response; (split; [discriminate|]);
      intros [H _]; discriminate.
Qed.

Lemma loaded_model_is_not_warmed_up_again_witness :
  let first := local_process local_models answering_ollama 0 250 "classification"
                             "Hello" no_model_options ∅ in
  let second := local_process local_models answering_ollama 300 400 "classification"
                              "Again" no_model_options first.2 in
  exists cfg,
    config_entry local_models "classification" = Some cfg
    /\ second.2 = first.2
    /\ forall response,
        answering_ollama
          (ollama_request (config_model cfg) "Again" (request_options cfg no_model_options))
        = inl response
        <-> (process_status second.1 = "success"
             /\ process_result second.1 = Some response).
Proof.
  intros first second.
  apply (loaded_model_is_not_warmed_up_again local_models answering_ollama 0 250 300 400
           "classification" "Hello" "Again" no_model_options no_model_options ∅).
  reflexivity.
Defined.

(** X22. No request carries a falsy value among its options:
    [max_tokens], [temperature], [top_p] and [top_k] that are 0, [null],
    [false] or the empty string are replaced by 1000, 0.7, 0.9 and 40, as
    missing ones are. A key of the caller wins over the configuration
    whatever its value: a caller of [process] who gives the temperature 0 or
    [null] gets 0.7, and not the temperature of the configuration; any other
    value is sent as given. Without the key, the temperature of the
    configuration is sent, if it is not 0. *)
Theorem zero_options_are_replaced (modelName : option string) (prompt : string)
    (cfg : ModelConfig) (options : ModelOptions) :
  let request := ollama_request modelName prompt (request_options cfg options) in
  (truthy (num_predict request) = true /\ truthy (ollama_temperature request) = true
   /\ truthy (top_p request) = true /\ truthy (top_k request) = true)
  /\ (forall v, opt_temperature options = Some v ->
        ollama_temperature request = if truthy v then v else JsNum (7 # 10))
  /\ (opt_temperature options = None ->
      ollama_temperature request = JsNum (js_num_or (temperature cfg) (7 # 10)))
  /\ (opt_max_tokens options = None -> max_tokens cfg = None ->
      num_predict request = JsNum 1000).
Proof.
  cbn zeta. unfold ollama_request, request_options.
  cbn [num_predict ollama_temperature top_p top_k opt_max_tokens opt_temperature
       opt_top_p opt_top_k].
  split; [|split; [|split]].
  - repeat split; apply js_or_default_truthy; reflexivity.
  - intros v ->. reflexivity.
  - intros ->. unfold js_or_default, js_num_or.
    destruct (temperature cfg) as [t|]; cbn; [|reflexivity].
    destruct (Qeq_bool t 0); reflexivity.
  - intros -> ->. reflexivity.
Qed.

(** ** The counters of the cloud manager *)

Section CloudCounters.

Lemma count_fold_insert (m : gmap string Usage) (k : string) (u : Usage) :
  map_fold (fun _ stats sum => sum + usage_count stats) 0 (<[k := u]> m)
  + from_option usage_count 0 (m !! k)
  = map_fold (fun _ stats sum => sum + usage_count stats) 0 m + usage_count u.
Proof.
  assert (Hcomm : forall (m' : gmap string Usage) (j1 j2 : string) (z1 z2 : Usage) (y : nat),
             j1 <> j2 -> m' !! j1 = Some z1 -> m' !! j2 = Some z2 ->
             y + usage_count z2 + usage_count z1 = y + usage_count z1 + usage_count z2)
    by (intros; lia).
  destruct (m !! k) as [old|] eqn:Hk; cbn.
  - rewrite <- (insert_delete_eq m k u).
    rewrite map_fold_insert_L; [|apply Hcomm|apply lookup_delete_eq].
    rewrite (map_fold_delete_L _ _ k old m); [lia|apply Hcomm|exact Hk].
  - rewrite map_fold_insert_L; [lia|apply Hcomm|exact Hk].
Qed.

Lemma getTotalRequests_update now modelKey time cost st :
  getTotalRequests (updateUsageStats now modelKey time cost st)
  = S (getTotalRequests st).
Proof.
  unfold getTotalRequests, updateUsageStats. cbn [requestCount].
  pose proof (count_fold_insert (requestCount st) modelKey
                {| usage_count :=
                     S (usage_count (default {| usage_count := 0; totalTime := 0;
                                                totalCost := 0 |}
                                             (requestCount st !! modelKey)));
                   totalTime :=
                     totalTime (default {| usage_count := 0; totalTime := 0;
                                           totalCost := 0 |}
                                        (requestCount st !! modelKey)) + time;
                   totalCost :=
                     totalCost (default {| usage_count := 0; totalTime := 0;
                                           totalCost := 0 |}
                                        (requestCount st !! modelKey)) + cost |}) as H.
  cbn [usage_count] in H. destruct (requestCount st !! modelKey); cbn in H |- *; lia.
Qed.

Lemma cloud_getDailyCost_update now now' modelKey time cost st :
  cloud_getDailyCost now' (updateUsageStats now modelKey time cost st)
  = if bool_decide (Js.before "T" now' = Js.before "T" now)
    then (cloud_getDailyCost now st + cost)%Q
    else cloud_getDailyCost now' st.
Proof.
  unfold cloud_getDailyCost, updateUsageStats. cbn [cloud_costTracking].
  destruct (bool_decide (Js.before "T" now' = Js.before "T" now)) eqn:Hday.
  - apply bool_decide_eq_true in Hday. rewrite Hday, lookup_insert_eq. reflexivity.
  - apply bool_decide_eq_false in Hday.
    rewrite lookup_insert_ne by (intros H; apply Hday; symmetry; exact H). reflexivity.
Qed.

(** The three outcomes of [process] of the cloud manager. *)
Lemma cloud_process_cases cloudConfig abacus now s e modelKey text options st :
  (exists message,
      cloud_process cloudConfig abacus now s e modelKey text options st
      = (failed_process "cloud" modelKey message (e - s)%Q, st))
  \/ (exists cfg response,
        config_entry cloudConfig modelKey = Some cfg
        /\ cloud_process cloudConfig abacus now s e modelKey text options st
           = ({| process_result := response; process_error := None;
                 process_model := config_model cfg; processing_time := (e - s)%Q;
                 process_status := "success"; route_type := "cloud";
                 estimated_cost := Some (calculateCost cfg text response) |},
              updateUsageStats now modelKey (e - s)%Q (calculateCost cfg text response)
                               st)).
Proof.
  unfold cloud_process. destruct (config_entry cloudConfig modelKey) as [cfg|].
  - destruct (makeAbacusRequest abacus (config_model cfg) text
                (request_options cfg options)) as [response|message].
    + right. exists cfg, response. split; reflexivity.
    + left. exists message. reflexivity.
  - left. eexists. reflexivity.
Qed.

End CloudCounters.

(** X23. A request to the cloud that fails is neither counted nor billed:
    [process] then leaves the counters as they are and returns the status
    ['error'] without a cost. A request that succeeds is counted once by
    [getTotalRequests], and its estimated cost is added to the cost of the
    day of the call and to that of no other day. *)
Theorem cloud_process_counts_successes (cloudConfig : gmap string ModelConfig)
    (abacus : AbacusRequest -> option string + AbacusError) (now : string)
    (startTime endTime : Q) (modelKey text : string) (options : ModelOptions)
    (st : CloudManager) :
  let out := cloud_process cloudConfig abacus now startTime endTime modelKey text options
                           st in
  (process_status out.1 = "error" /\ out.2 = st /\ estimated_cost out.1 = None
   /\ is_Some (process_error out.1) /\ process_model out.1 = Some modelKey)
  \/ (process_status out.1 = "success"
      /\ getTotalRequests out.2 = S (getTotalRequests st)
      /\ exists cfg,
          config_entry cloudConfig modelKey = Some cfg
          /\ estimated_cost out.1
             = Some (calculateCost cfg text (process_result out.1))
          /\ cloud_getDailyCost now out.2
             = (cloud_getDailyCost now st
                + calculateCost cfg text (process_result out.1))%Q
          /\ forall now', Js.before "T" now' <> Js.before "T" now ->
               cloud_getDailyCost now' out.2 = cloud_getDailyCost now' st).
Proof.
  cbn zeta.
  destruct (cloud_process_cases cloudConfig abacus now startTime endTime modelKey text
              options st) as [[message ->] | (cfg & response & Hcfg & ->)].
  - left. cbn. repeat split; auto.
  - right. cbn [fst snd process_status process_result estimated_cost].
    split; [reflexivity|]. split; [apply getTotalRequests_update|].
    exists cfg. split; [exact Hcfg|]. split; [reflexivity|]. split.
    + rewrite cloud_getDailyCost_update, bool_decide_eq_true_2 by reflexivity.
      reflexivity.
    + intros now' Hday.
      rewrite cloud_getDailyCost_update, bool_decide_eq_false_2 by exact Hday.
      reflexivity.
Qed.

Section Costs.




End Costs.



(** ** The router and the configuration of the models *)

Lemma applyRoutingRules_routes text complexity classification options :
  let d := applyRoutingRules text complexity classification options in
  (route_to d, model d) ∈ routes.
Proof.
  cbn zeta. unfold applyRoutingRules, routes.
  repeat case_match; cbn [route_to model];
    repeat (apply elem_of_cons; first [left; reflexivity | right]).
Qed.

Lemma determineRoute_routes now r text contentType options :
  let d := determineRoute now r text contentType options in
  (route_to d, model d) ∈ routes.
Proof.
  cbn zeta. unfold determineRoute, optimizeRouting.
  set (d0 := applyRoutingRules _ _ _ _).
  assert (H0 : (route_to d0, model d0) ∈ routes) by apply applyRoutingRules_routes.
  assert (H1 : (route_to (cost_guard now r d0 options),
                model (cost_guard now r d0 options)) ∈ routes).
  { unfold cost_guard. repeat (case_match; try exact H0). cbn [route_to model].
    unfold routes. repeat (apply elem_of_cons; first [left; reflexivity | right]). }
  unfold latency_guard. repeat (case_match; try exact H1). cbn [route_to model].
  unfold routes. repeat (apply elem_of_cons; first [left; reflexivity | right]).
Qed.

(** X25. Whatever the text, the options and the counters of the router,
    the decision of [determineRoute] names a model that the configuration
    has for the backend it names: a key of [local_models] with the route
    ['local'], a key of [cloud_models] with the route ['cloud']. So the
    manager that [executeRouting] calls finds the model of the key, and not
    an inherited property. *)
Theorem routed_model_is_configured (now : string) (r : Router) (text : string)
    (contentType : option string) (options : Options) :
  let d := determineRoute now r text contentType options in
  (route_to d = "local"
   /\ exists cfg name, local_models !! model d = Some cfg
                       /\ config_entry local_models (model d) = Some cfg
                       /\ config_model cfg = Some name)
  \/ (route_to d = "cloud"
      /\ exists cfg name, cloud_models !! model d = Some cfg
                          /\ config_entry cloud_models (model d) = Some cfg
                          /\ config_model cfg = Some name).
Proof.
  cbn zeta. pose proof (determineRoute_routes now r text contentType options) as H.
  cbn zeta in H. unfold routes in H.
  repeat (apply elem_of_cons in H as [H|H];
          [injection H as -> ->;
           first [left; split; [reflexivity|]; eexists _, _; repeat split; reflexivity
                 |right; split; [reflexivity|]; eexists _, _; repeat split; reflexivity]|]).
  apply elem_of_nil in H. contradiction.
Qed.

(** ** [processBatch] for every batch size *)

(** X26. The batch size is the number given, and 10 when it is missing or
    0. With a size that is a whole number of 1 at least, and fuel for each
    item, [processBatch] returns for every list of items that are objects an
    entry for each item, in the order of the input, and the loop takes the
    items in consecutive groups of that size: as many groups as the number
    of items divided by the size, rounded up, every group but the last one
    full. With any size of 1 at least it returns the same entries, and the
    groups make up the items; with the size 2.5, seven items go in groups of
    2, 3 and 2. With a negative size and an item at least, the loop does not
    end, whatever the fuel. *)
Theorem processBatch_groups_of_batch_size
    (route : nat -> option string -> option string -> Options -> RoutingDecision)
    (localProcess cloudProcess :
       nat -> string -> option string -> Options -> JsValue + string)
    (objects : list Item) (options : Options) :
  (batch_size options = None -> batchSize options = 10%Q)
  /\ (forall size, batch_size options = Some size ->
        batchSize options = if Qeq_bool size 0 then 10%Q else size)
  /\ (forall fuel, (1 <= batchSize options)%Q -> List.length objects <= fuel ->
        exists results groups,
          processBatch route localProcess cloudProcess fuel (Some <$> objects)
                       (Some options) = Some (inl results)
          /\ processBatch_groups route localProcess cloudProcess fuel (Some <$> objects)
               options = Some (inl groups)
          /\ results = imap (item_entry route localProcess cloudProcess options) objects
          /\ List.concat groups = Some <$> objects
          /\ forall b, 1 <= b -> (batchSize options == inject_Z (Z.of_nat b))%Q ->
               List.length groups = (List.length objects + b - 1) / b
               /\ forall n g, groups !! n = Some g ->
                    g = List.firstn b (List.skipn (n * b) (Some <$> objects))
                    /\ 1 <= List.length g <= b
                    /\ (S n < List.length groups -> List.length g = b))
  /\ (batch_size options = Some (5 # 2) -> List.length objects = 7 ->
      exists groups,
        processBatch_groups route localProcess cloudProcess 7 (Some <$> objects) options
        = Some (inl groups)
        /\ List.map (@List.length (option Item)) groups = [2; 3; 2])
  /\ ((batchSize options < 0)%Q -> objects <> [] ->
      forall fuel,
        processBatch route localProcess cloudProcess fuel (Some <$> objects)
                     (Some options) = None).
Proof.
  assert (Hzero : forall len, slice_index len 0 = 0)
    by (intros len; apply (slice_index_whole len 0 0); reflexivity).
  assert (Hloop : forall fuel, (1 <= batchSize options)%Q -> List.length objects <= fuel ->
            batch_loop route localProcess cloudProcess (Some <$> objects) options
                       fuel 0 [] []
            = Some (inl (imap (item_entry route localProcess cloudProcess options)
                              objects,
                         loop_groups (Some <$> objects) (batchSize options) fuel 0))).
  { intros fuel Hone Hfuel.
    rewrite batch_loop_returns; [|exact Hone | discriminate | rewrite Hzero; lia].
    rewrite Hzero. cbn [List.app]. rewrite drop_0. reflexivity. }
  split; [apply batchSize_default|]. split; [|split; [|split]].
  - intros size Hsize. unfold batchSize. rewrite Hsize. reflexivity.
  - intros fuel Hone Hfuel.
    exists (imap (item_entry route localProcess cloudProcess options) objects),
           (loop_groups (Some <$> objects) (batchSize options) fuel 0).
    unfold processBatch, processBatch_groups. rewrite (Hloop fuel Hone Hfuel).
    cbn [fst snd].
    split; [reflexivity|]. split; [reflexivity|]. split; [reflexivity|]. split.
    + rewrite loop_groups_concat;
        [|exact Hone | discriminate | rewrite Hzero, length_fmap; lia].
      rewrite Hzero. apply drop_0.
    + intros b Hb Hwhole.
      rewrite (loop_groups_whole _ _ b fuel 0 0); [|exact Hwhole | exact Hb | reflexivity].
      pose proof (batch_groups_length (Some <$> objects) b fuel 0 Hb) as Hlen.
      rewrite length_fmap, Nat.sub_0_r in Hlen. specialize (Hlen ltac:(lia)).
      split; [exact Hlen|].
      intros n g Hg. rewrite Hlen.
      apply batch_groups_lookup in Hg; [|exact Hb]. cbn in Hg.
      destruct Hg as [Hg Hbound]. split; [exact Hg|]. split; [exact Hbound|].
      intros Hn. apply full_group in Hn; [|exact Hb].
      rewrite Hg, length_take, length_drop, length_fmap. lia.
  - intros Hsize Hlen.
    assert (Hsz : batchSize options = (5 # 2)%Q)
      by (unfold batchSize; rewrite Hsize; reflexivity).
    exists (loop_groups (Some <$> objects) (5 # 2) 7 0).
    unfold processBatch_groups.
    rewrite Hloop; [|rewrite Hsz; discriminate | lia]. rewrite Hsz. cbn [snd].
    split; [reflexivity|].
    do 7 (destruct objects as [|? objects]; [discriminate|]).
    destruct objects; [|discriminate].
    vm_compute. reflexivity.
  - intros Hneg Hobjects fuel. unfold processBatch.
    rewrite batch_loop_spins; [reflexivity | exact Hneg | discriminate | |].
    + destruct objects; [contradiction | discriminate].
    + intros Hin. apply list_elem_of_fmap in Hin as (item & [=] & _).
Qed.

(** ** The controller with its two managers *)

Section Assembled.

Variables localConfig cloudConfig : gmap string ModelConfig.
Variable ollama : nat -> OllamaRequest -> string + RequestError.
Variable abacus : nat -> AbacusRequest -> option string + AbacusError.
Variable clock : nat -> string.
Variables startTime endTime : nat -> Q.
Variable loadedModels : nat -> gset (option string).
Variable usage : nat -> CloudManager.
Variable model_options : Options -> ModelOptions.
Variable encode : ProcessResult -> JsValue.

(** A local manager whose server fails answers an error. *)
Lemma local_result_error pos modelKey text options :
  (forall request, exists e, ollama pos request = inr e) ->
  process_status
    (local_result localConfig ollama startTime endTime loadedModels model_options
                  pos modelKey text options) = "error".
Proof.
  intros Hserver. unfold local_result, local_process.
  destruct (config_entry localConfig modelKey) as [cfg|]; [|reflexivity].
  assert (Hrequest : forall prompt o, exists message,
             makeRequest (ollama pos) (config_model cfg) prompt o = inr message).
  { intros prompt o. unfold makeRequest.
    destruct (Hserver (ollama_request (config_model cfg) prompt o)) as [e ->].
    destruct (bool_decide (error_code e = Some "ECONNREFUSED")); eexists; reflexivity. }
  unfold loadModel. destruct (bool_decide (config_model cfg ∈ loadedModels pos)).
  - destruct (Hrequest text (request_options cfg (model_options options)))
      as [message ->]. reflexivity.
  - destruct (Hrequest "Hello" warmup_options) as [message ->]. reflexivity.
Qed.

Lemma cloud_result_status pos modelKey text options :
  process_status
    (cloud_result cloudConfig abacus clock startTime endTime usage model_options
                  pos modelKey text options) = "success"
  \/ process_status
       (cloud_result cloudConfig abacus clock startTime endTime usage model_options
                     pos modelKey text options) = "error".
Proof.
  unfold cloud_result.
  destruct (cloud_process_cases cloudConfig (abacus pos) (clock pos) (startTime pos)
              (endTime pos) modelKey text (model_options options) (usage pos))
    as [[message ->] | (cfg & response & _ & ->)]; cbn; auto.
Qed.

End Assembled.

(** X27. With the two managers as backends and a router that answers
    ['local'] or ['cloud'], as [determineRoute] does, no entry of a batch
    has the status ['failed']: [process] of a manager catches every error
    and returns an object, so that the [catch] of [processBatch] is reached
    for a [null] item only. With a batch size of 1 at least and fuel for
    each item, a batch of items that are objects returns an entry for each,
    with the status ['success'], the routing decision, and as result the
    object of the manager, whose own status is ['error'] when the request
    has failed: so it is for every item with a text that is routed to a
    local model while the Ollama server answers no request. A batch with a
    [null] item throws, and returns no entry. *)
Theorem batch_entries_report_success
    (localConfig cloudConfig : gmap string ModelConfig)
    (ollama : nat -> OllamaRequest -> string + RequestError)
    (abacus : nat -> AbacusRequest -> option string + AbacusError)
    (clock : nat -> string) (startTime endTime : nat -> Q)
    (loadedModels : nat -> gset (option string)) (usage : nat -> CloudManager)
    (model_options : Options -> ModelOptions) (encode : ProcessResult -> JsValue)
    (local_other cloud_other : nat -> string -> Options -> JsValue)
    (route : nat -> option string -> option string -> Options -> RoutingDecision)
    (objects : list Item) (items : list (option Item)) (options : Options)
    (fuel : nat) :
  let localProcess :=
    localModels_process localConfig ollama startTime endTime loadedModels model_options
                        encode local_other in
  let cloudProcess :=
    cloudModels_process cloudConfig abacus clock startTime endTime usage model_options
                        encode cloud_other in
  (forall pos content contentType o,
      route_to (route pos content contentType o) = "local"
      \/ route_to (route pos content contentType o) = "cloud") ->
  (1 <= batchSize options)%Q ->
  (List.length objects <= fuel ->
   exists results,
     processBatch route localProcess cloudProcess fuel (Some <$> objects) (Some options)
     = Some (inl results)
     /\ List.length results = List.length objects
     /\ forall pos entry,
         results !! pos = Some entry ->
         entry_status entry = "success" /\ error entry = None
         /\ exists item res,
             objects !! pos = Some item
             /\ entry_id entry = item_id item
             /\ routing_decision entry
                = Some (route pos (item_content item) (item_content_type item)
                              (in_batch_mode options))
             /\ entry_result entry = Some res
             /\ forall text, item_content item = Some text ->
                  exists r,
                    res = encode r
                    /\ (process_status r = "success" \/ process_status r = "error")
                    /\ ((forall request, exists e, ollama pos request = inr e) ->
                        route_to (route pos (item_content item) (item_content_type item)
                                        (in_batch_mode options)) = "local" ->
                        process_status r = "error"))
  /\ (None ∈ items -> List.length items <= fuel ->
      processBatch route localProcess cloudProcess fuel items (Some options)
      = Some (inr null_item_error)).
Proof.
  intros localProcess cloudProcess Hroute Hone.
  assert (Hzero : forall len, slice_index len 0 = 0)
    by (intros len; apply (slice_index_whole len 0 0); reflexivity).
  split.
  - intros Hfuel.
    exists (imap (item_entry route localProcess cloudProcess options) objects).
    split.
    { unfold processBatch.
      rewrite batch_loop_returns; [|exact Hone | discriminate | rewrite Hzero; lia].
      rewrite Hzero. cbn [List.app fst]. rewrite drop_0. reflexivity. }
    split; [apply length_imap|].
    intros pos entry Hentry. rewrite list_lookup_imap in Hentry.
    destruct (objects !! pos) as [item|] eqn:Hitem; [|discriminate].
    cbn in Hentry. injection Hentry as <-. unfold item_entry.
    set (d := route pos (item_content item) (item_content_type item)
                (in_batch_mode options)).
    unfold executeRouting.
    destruct (Hroute pos (item_content item) (item_content_type item)
                (in_batch_mode options)) as [Hd|Hd];
      fold d in Hd; rewrite Hd; cbn [String.eqb]; cbn.
    + split; [reflexivity|]. split; [reflexivity|]. eexists item, _.
      split; [reflexivity|]. split; [reflexivity|]. split; [reflexivity|].
      split; [reflexivity|]. intros text Htext. rewrite Htext.
      eexists. split; [reflexivity|]. split.
      * apply local_process_status.
      * intros Hserver _. apply local_result_error. exact Hserver.
    + split; [reflexivity|]. split; [reflexivity|]. eexists item, _.
      split; [reflexivity|]. split; [reflexivity|]. split; [reflexivity|].
      split; [reflexivity|]. intros text Htext. rewrite Htext.
      eexists. split; [reflexivity|]. split.
      * apply cloud_result_status.
      * intros _ H. rewrite <- Htext in H. fold d in H. rewrite Hd in H.
        discriminate H.
  - intros Hnull Hfuel. unfold processBatch.
    rewrite batch_loop_throws;
      [reflexivity | exact Hone | discriminate | rewrite Hzero; lia|].
    rewrite Hzero, drop_0. exact Hnull.
Qed.

Lemma batch_entries_report_success_witness :
  let route := router_route (new_router {| high_cost := 25 |}) sample_clock in
  let localProcess :=
    localModels_process local_models (fun _ => answering_ollama) (fun _ => 0%Q)
                        (fun _ => 250%Q) (fun _ => ∅) (fun _ => no_model_options)
                        status_only (fun _ _ _ => JsNull) in
  let cloudProcess :=
    cloudModels_process cloud_models (fun _ => answering_abacus) sample_clock
                        (fun _ => 0%Q) (fun _ => 250%Q) (fun _ => no_usage)
                        (fun _ => no_model_options) status_only (fun _ _ _ => JsNull) in
  (exists results,
      processBatch route localProcess cloudProcess 2 [Some sample_item; Some sample_item]
                   (Some no_options) = Some (inl results)
      /\ List.length results = 2
      /\ forall pos entry, results !! pos = Some entry -> entry_status entry = "success")
  /\ processBatch route localProcess cloudProcess 2 [Some sample_item; None]
                  (Some no_options) = Some (inr null_item_error).
Proof.
  intros route localProcess cloudProcess.
  destruct (batch_entries_report_success local_models cloud_models
              (fun _ => answering_ollama) (fun _ => answering_abacus) sample_clock
              (fun _ => 0%Q) (fun _ => 250%Q) (fun _ => ∅) (fun _ => no_usage)
              (fun _ => no_model_options) status_only (fun _ _ _ => JsNull)
              (fun _ _ _ => JsNull) route [sample_item; sample_item]
              [Some sample_item; None] no_options 2) as [Hobjects Hnull].
  - intros pos content contentType o. unfold route, router_route.
    destruct content as [text|]; [apply determineRoute_backend | left; reflexivity].
  - discriminate.
  - split.
    + destruct (Hobjects ltac:(cbn; lia)) as (results & Hresults & Hlength & Hentries).
      exists results. split; [exact Hresults|]. split; [exact Hlength|].
      intros pos entry Hentry. apply (Hentries pos entry Hentry).
    + apply Hnull; [|cbn; lia].
      apply elem_of_cons. right. apply elem_of_cons. left. reflexivity.
Defined.



(** ** The workflow engine *)

Section Workflows.

Lemma executeSteps_returns stamps l i data completed :
  executeSteps stamps l i data completed
  = (data,
     (completed
        ++ imap (fun j step =>
                   {| completed_step := step; completed_result := executeStep step data;
                      completed_timestamp := stamps (i + j) |}) l)%list).
Proof.
  revert i completed. induction l as [|step rest IH]; intros i completed.
  - cbn. rewrite app_nil_r. reflexivity.
  - cbn [executeSteps executeStep step_output].
    replace (if truthy data then data else data) with data by (destruct (truthy data); reflexivity).
    fold (executeStep step data). rewrite IH. cbn [imap]. rewrite <- List.app_assoc.
    cbn [List.app]. rewrite Nat.add_0_r. do 3 f_equal.
    apply imap_ext. intros j x _. cbn. do 2 f_equal. lia.
Qed.

(** A workflow with steps: the input is returned, each step is recorded. *)
Lemma execute_steps ws startTime endTime now stamps name input workflow l :
  ws !! name = Some workflow ->
  steps workflow = Some l ->
  execute ws startTime endTime now stamps name input
  = inl {| executed_workflow := name; execution_result := input;
           execution_duration := (endTime - startTime)%Q;
           steps_completed :=
             imap (fun j step =>
                     {| completed_step := step;
                        completed_result := executeStep step input;
                        completed_timestamp := stamps j |}) l;
           execution_status := "completed" |}.
Proof.
  intros Hname Hsteps. unfold execute. rewrite Hname, Hsteps.
  rewrite executeSteps_returns. reflexivity.
Qed.

Lemma shipped_workflows cron_error :
  workflows (initialize_engine cron_error workflow_orchestration).2
  = <["dynamic_workflows.automated_discovery" := no_definition]>
      (<["dynamic_workflows.user_triggered" := no_definition]>
         (<["scraping_workflows.deep_analysis" :=
              {| schedule := Some "0 2 * * *";
                 steps := Some ["retrieve_recent_content";
                                "batch_process_with_advanced_models";
                                "generate_comprehensive_reports";
                                "identify_trends_and_patterns"] |}]>
            (<["scraping_workflows.patreon_monitor" :=
                 {| schedule := Some "*/5 * * * *";
                    steps := Some ["extract_new_content"; "classify_content_type";
                                   "route_for_processing"; "extract_insights";
                                   "store_results"; "trigger_alerts_if_needed"] |}]> ∅))).
Proof. reflexivity. Qed.

End Workflows.

(** X28. With the workflows of config/workflow_config.json, [execute]
    completes for two names only, ['scraping_workflows.patreon_monitor'] and
    ['scraping_workflows.deep_analysis']: both have steps, so that the
    result is the input as it was given and [steps_completed] has the steps
    of the configuration in their order. Every other name throws: no
    business logic is ever run, and the name that the gateway sends for a
    search, ['dynamic_workflows.user_triggered.search_and_analyze'], is not
    found. *)
Theorem shipped_workflows_execute (cron_error : string -> option string)
    (startTime endTime : Q) (now : string) (stamps : nat -> string) (name : string)
    (input : JsValue) :
  let e := (initialize_engine cron_error workflow_orchestration).2 in
  let out := execute (workflows e) startTime endTime now stamps name input in
  ((exists x, out = inl x)
   <-> name = "scraping_workflows.patreon_monitor"
       \/ name = "scraping_workflows.deep_analysis")
  /\ (forall x, out = inl x ->
        execution_result x = input
        /\ execution_status x = "completed"
        /\ exists workflow,
            workflows e !! name = Some workflow
            /\ steps workflow = Some (List.map completed_step (steps_completed x)))
  /\ (forall message, out = inr message ->
        message = "Workflow not found: " +:+ name
        \/ message = "No business logic defined for workflow: " +:+ name)
  /\ (name = "dynamic_workflows.user_triggered.search_and_analyze" ->
      out = inr ("Workflow not found: " +:+ name)).
Proof.
  intros e out. subst e out. rewrite shipped_workflows.
  set (ws := <["dynamic_workflows.automated_discovery" := _]> _).
  destruct (decide (name = "scraping_workflows.patreon_monitor")) as [->|H1];
    [|destruct (decide (name = "scraping_workflows.deep_analysis")) as [->|H2]].
  - erewrite execute_steps; [|reflexivity|reflexivity].
    split; [split; [auto | eexists; reflexivity]|]. split; [|split; discriminate].
    intros x [= <-]. cbn [execution_result execution_status steps_completed].
    split; [reflexivity|]. split; [reflexivity|]. eexists. split; [reflexivity|].
    reflexivity.
  - erewrite execute_steps; [|reflexivity|reflexivity].
    split; [split; [auto | eexists; reflexivity]|]. split; [|split; discriminate].
    intros x [= <-]. cbn [execution_result execution_status steps_completed].
    split; [reflexivity|]. split; [reflexivity|]. eexists. split; [reflexivity|].
    reflexivity.
  - assert (Hout : execute ws startTime endTime now stamps name input
                   = inr ("Workflow not found: " +:+ name)
                   \/ execute ws startTime endTime now stamps name input
                      = inr ("No business logic defined for workflow: " +:+ name)).
    { unfold execute, ws.
      destruct (decide (name = "dynamic_workflows.automated_discovery")) as [->|H3];
        [right; reflexivity|].
      rewrite lookup_insert_ne by (intros H; apply H3; symmetry; exact H).
      destruct (decide (name = "dynamic_workflows.user_triggered")) as [->|H4];
        [right; reflexivity|].
      rewrite lookup_insert_ne by (intros H; apply H4; symmetry; exact H).
      rewrite lookup_insert_ne by (intros H; apply H2; symmetry; exact H).
      rewrite lookup_insert_ne by (intros H; apply H1; symmetry; exact H).
      rewrite lookup_empty. left. reflexivity. }
    split; [|split; [|split]].
    + split; [|intros [H|H]; contradiction].
      intros [x Hx]. destruct Hout as [Hout|Hout]; rewrite Hout in Hx; discriminate.
    + intros x Hx. destruct Hout as [Hout|Hout]; rewrite Hout in Hx; discriminate.
    + intros message Hm.
      destruct Hout as [Hout|Hout]; rewrite Hout in Hm; injection Hm as <-; auto.
    + intros ->. reflexivity.
Qed.

Section Jobs.

Lemma all_chars_app f s t :
  Js.all_chars f (s +:+ t) = Js.all_chars f s && Js.all_chars f t.
Proof.
  induction s as [|c s IH]; [reflexivity|].
  rewrite app_cons. cbn [Js.all_chars]. rewrite IH. apply andb_assoc.
Qed.

Lemma dotted_key category name : no_dot (category +:+ "." +:+ name) = false.
Proof.
  unfold no_dot. rewrite all_chars_app, app_cons. cbn. apply andb_false_r.
Qed.

Lemma category_keys category (entries : list (string * Workflow))
    (ws : gmap string Workflow) k :
  is_Some (List.fold_left
             (fun ws entry => <[category +:+ "." +:+ entry.1 := entry.2]> ws)
             entries ws !! k) ->
  is_Some (ws !! k) \/ no_dot k = false.
Proof.
  revert ws. induction entries as [|entry rest IH]; intros ws; cbn [List.fold_left];
    [auto|].
  intros H. apply IH in H as [H|H]; [|auto].
  destruct (decide (category +:+ "." +:+ entry.1 = k)) as [<-|Hne].
  - right. apply dotted_key.
  - rewrite lookup_insert_ne in H by exact Hne. auto.
Qed.

Lemma loadWorkflowTemplates_keys templates ws k :
  is_Some (loadWorkflowTemplates templates ws !! k) ->
  is_Some (ws !! k) \/ no_dot k = false.
Proof.
  unfold loadWorkflowTemplates. revert ws.
  induction templates as [|category rest IH]; intros ws; cbn [List.fold_left]; [auto|].
  intros H. apply IH in H as [H|H]; [|auto].
  apply category_keys in H. exact H.
Qed.

Lemma schedule_entries_keys cron_error entries jobs k :
  is_Some ((schedule_entries cron_error entries jobs).2 !! k) ->
  is_Some (jobs !! k) \/ k ∈ entries.*1.
Proof.
  revert jobs. induction entries as [|entry rest IH]; intros jobs;
    cbn [schedule_entries]; [auto|].
  destruct (Js.falsy (schedule entry.2)).
  - intros H. apply IH in H as [H|H]; [auto|]. right. cbn. apply elem_of_cons. auto.
  - destruct (cron_error (default "" (schedule entry.2))); cbn [snd]; [auto|].
    intros H. apply IH in H as [H|H].
    + destruct (decide (entry.1 = k)) as [<-|Hne].
      * right. cbn. apply elem_of_cons. auto.
      * rewrite lookup_insert_ne in H by exact Hne. auto.
    + right. cbn. apply elem_of_cons. auto.
Qed.

(** In every state of an engine the workflows are those loaded, and a job
    has the name of a scraping workflow. *)
Lemma engine_reachable_maps cron_error templates e :
  engine_reachable cron_error templates e ->
  workflows e = loadWorkflowTemplates templates ∅
  /\ forall k, is_Some (activeJobs e !! k) ->
       exists entries, get_category "scraping_workflows" templates = Some entries
                       /\ k ∈ entries.*1.
Proof.
  induction 1 as [|name e _ [IHw IHj]|name e _ [IHw IHj]].
  - split; [reflexivity|]. intros k. cbn. unfold scheduleAutomaticWorkflows.
    destruct (get_category "scraping_workflows" templates) as [entries|]; cbn.
    + intros H. apply schedule_entries_keys in H as [H|H].
      * rewrite lookup_empty in H. destruct H. discriminate.
      * exists entries. auto.
    + rewrite lookup_empty. intros [? ?]. discriminate.
  - unfold stopScheduledWorkflow. destruct (activeJobs e !! name); cbn; [|auto].
    split; [exact IHw|]. intros k Hk. apply IHj.
    destruct (decide (name = k)) as [<-|Hne].
    + rewrite lookup_delete_eq in Hk. destruct Hk. discriminate.
    + rewrite lookup_delete_ne in Hk by exact Hne. exact Hk.
  - unfold startScheduledWorkflow. destruct (activeJobs e !! name) eqn:Hjob; cbn; [|auto].
    split; [exact IHw|]. intros k Hk. apply IHj.
    destruct (decide (name = k)) as [<-|Hne].
    + rewrite Hjob. eexists. reflexivity.
    + rewrite lookup_insert_ne in Hk by exact Hne. exact Hk.
Qed.

End Jobs.

(** X29. A workflow that has been stopped cannot be started again:
    [stopScheduledWorkflow] deletes the job, so that
    [startScheduledWorkflow] finds none and returns [false]. And when the
    names of the scraping workflows have no dot, [getWorkflowStatus] never
    answers [exists] and [scheduled] together: the workflows are kept under
    their name after that of their category and a dot, the jobs under the
    name alone. *)
Theorem stopped_workflow_cannot_be_started (cron_error : string -> option string)
    (templates : WorkflowTemplates) (e : WorkflowEngine) (name : string) :
  (forall entries, get_category "scraping_workflows" templates = Some entries ->
                   Forall (fun entry => no_dot entry.1 = true) entries) ->
  engine_reachable cron_error templates e ->
  (startScheduledWorkflow name (stopScheduledWorkflow name e).2).1 = false
  /\ status_scheduled (getWorkflowStatus name (stopScheduledWorkflow name e).2) = false
  /\ workflows (stopScheduledWorkflow name e).2 = workflows e
  /\ ~ (status_exists (getWorkflowStatus name e) = true
        /\ status_scheduled (getWorkflowStatus name e) = true).
Proof.
  intros Hnames Hreach.
  assert (Hgone : activeJobs (stopScheduledWorkflow name e).2 !! name = None).
  { unfold stopScheduledWorkflow. destruct (activeJobs e !! name) eqn:Hjob; cbn.
    - apply lookup_delete_eq.
    - exact Hjob. }
  split; [|split; [|split]].
  - unfold startScheduledWorkflow at 1. rewrite Hgone. reflexivity.
  - unfold getWorkflowStatus. cbn [status_scheduled]. rewrite Hgone.
    apply bool_decide_eq_false_2. intros [? ?]. discriminate.
  - unfold stopScheduledWorkflow. destruct (activeJobs e !! name); reflexivity.
  - intros [Hexists Hscheduled]. unfold getWorkflowStatus in *.
    cbn [status_exists status_scheduled] in *.
    apply bool_decide_eq_true in Hexists, Hscheduled.
    destruct (engine_reachable_maps _ _ _ Hreach) as [Hw Hj].
    rewrite Hw in Hexists. apply loadWorkflowTemplates_keys in Hexists as [H|H].
    + rewrite lookup_empty in H. destruct H. discriminate.
    + destruct (Hj name Hscheduled) as (entries & Hentries & Hin).
      specialize (Hnames entries Hentries). rewrite Forall_forall in Hnames.
      apply list_elem_of_fmap in Hin as (entry & -> & Hin).
      rewrite (Hnames entry Hin) in H. discriminate.
Qed.

Lemma stopped_workflow_cannot_be_started_witness :
  let e := (initialize_engine (fun _ => None) workflow_orchestration).2 in
  (startScheduledWorkflow "patreon_monitor"
     (stopScheduledWorkflow "patreon_monitor" e).2).1 = false
  /\ status_scheduled
       (getWorkflowStatus "patreon_monitor"
          (stopScheduledWorkflow "patreon_monitor" e).2) = false
  /\ workflows (stopScheduledWorkflow "patreon_monitor" e).2 = workflows e
  /\ ~ (status_exists (getWorkflowStatus "patreon_monitor" e) = true
        /\ status_scheduled (getWorkflowStatus "patreon_monitor" e) = true).
Proof.
  intros e.
  apply (stopped_workflow_cannot_be_started (fun _ => None) workflow_orchestration e
           "patreon_monitor").
  - intros entries [= <-]. repeat constructor.
  - apply engine_initialized.
Defined.

(** ** The performance monitor *)

Section Monitor.

Context {V : Type}.

Implicit Types (m : list (string * V)) (key : string) (value : V).

Lemma map_set_fresh key value m :
  key ∉ m.*1 -> map_set key value m = (m ++ [(key, value)])%list.
Proof.
  induction m as [|entry rest IH]; intros Hkey; [reflexivity|].
  cbn [map_set]. cbn in Hkey. apply not_elem_of_cons in Hkey as [Hne Hrest].
  destruct (String.eqb entry.1 key) eqn:Heq.
  - apply String.eqb_eq in Heq. exfalso. apply Hne. symmetry. exact Heq.
  - rewrite IH by exact Hrest. reflexivity.
Qed.

Lemma map_set_known key value m :
  key ∈ m.*1 ->
  (map_set key value m).*1 = m.*1
  /\ List.length (map_set key value m) = List.length m.
Proof.
  induction m as [|entry rest IH]; intros Hkey; [apply elem_of_nil in Hkey; contradiction|].
  cbn [map_set]. destruct (String.eqb entry.1 key) eqn:Heq.
  - apply String.eqb_eq in Heq. cbn. rewrite Heq. auto.
  - cbn in Hkey. apply elem_of_cons in Hkey as [Hkey|Hkey].
    + apply String.eqb_neq in Heq. exfalso. apply Heq. symmetry. exact Hkey.
    + destruct (IH Hkey) as [Hkeys Hlen]. cbn. rewrite Hkeys, Hlen. auto.
Qed.

Lemma NoDup_tl {A} (l : list A) : NoDup l -> NoDup (List.tl l).
Proof. intros H. destruct H; [constructor|assumption]. Qed.

Lemma elem_of_drop {A} (x : A) n (l : list A) : x ∈ drop n l -> x ∈ l.
Proof.
  intros H. rewrite <- (take_drop n l). apply elem_of_app. right. exact H.
Qed.

End Monitor.

Section Collections.

Implicit Types (metrics : list (string * MetricsEntry))
  (run : list (option (JsValue * nat) * string)).

Lemma collectMetrics_bound observed timestamp metrics :
  List.length metrics <= 100 -> NoDup metrics.*1 ->
  List.length (collectMetrics observed timestamp metrics) <= 100
  /\ NoDup (collectMetrics observed timestamp metrics).*1.
Proof.
  intros Hlen Hdup. unfold collectMetrics. destruct observed as [answer|]; [|auto].
  set (entry := {| router_status := answer.1; ollama_models := answer.2;
                   entry_timestamp := timestamp |}).
  assert (Hset : List.length (map_set timestamp entry metrics) <= 101
                 /\ NoDup (map_set timestamp entry metrics).*1).
  { destruct (decide (timestamp ∈ metrics.*1)) as [Hin|Hout].
    - destruct (map_set_known timestamp entry metrics Hin) as [-> ->]. split; [lia|auto].
    - rewrite (map_set_fresh timestamp entry metrics Hout).
      rewrite List.length_app, fmap_app. cbn. split; [lia|].
      apply NoDup_app. split; [exact Hdup|]. split; [|apply NoDup_singleton].
      intros x Hx Hx'. apply list_elem_of_singleton in Hx'. subst x. contradiction. }
  destruct Hset as [Hlen' Hdup'].
  destruct (Nat.ltb 100 (List.length (map_set timestamp entry metrics))) eqn:Hfull.
  - destruct (map_set timestamp entry metrics) as [|first rest]; cbn in *; [lia|].
    split; [lia|]. apply NoDup_cons in Hdup'. apply Hdup'.
  - apply Nat.ltb_ge in Hfull. auto.
Qed.

Lemma collect_all_snoc run collection metrics :
  collect_all (run ++ [collection]) metrics
  = collectMetrics collection.1 collection.2 (collect_all run metrics).
Proof. unfold collect_all. rewrite List.fold_left_app. reflexivity. Qed.

Lemma collect_all_bound run :
  List.length (collect_all run []) <= 100 /\ NoDup (collect_all run []).*1.
Proof.
  induction run as [|collection run [IHlen IHdup]] using rev_ind.
  - cbn. split; [lia|constructor].
  - rewrite collect_all_snoc. apply collectMetrics_bound; assumption.
Qed.

Lemma stored_entries_snoc run collection :
  stored_entries (run ++ [collection])
  = (stored_entries run
       ++ match collection.1 with
          | Some answer =>
              [(collection.2,
                {| router_status := answer.1; ollama_models := answer.2;
                   entry_timestamp := collection.2 |})]
          | None => []
          end)%list.
Proof.
  unfold stored_entries. rewrite omap_app.
  destruct collection as [[answer|] timestamp]; reflexivity.
Qed.

Lemma collect_all_last run :
  NoDup (stored_entries run).*1 ->
  collect_all run []
  = drop (List.length (stored_entries run) - 100) (stored_entries run).
Proof.
  induction run as [|collection run IH] using rev_ind; intros Hdup; [reflexivity|].
  rewrite collect_all_snoc. rewrite stored_entries_snoc in *.
  destruct collection as [[answer|] timestamp]; cbn [fst snd] in *.
  2:{ cbn. rewrite app_nil_r in *. apply IH. exact Hdup. }
  set (stored := stored_entries run) in *.
  set (entry := {| router_status := answer.1; ollama_models := answer.2;
                   entry_timestamp := timestamp |}) in *.
  rewrite fmap_app in Hdup. apply NoDup_app in Hdup as (Hdup & Hfresh & _).
  rewrite (IH Hdup). unfold collectMetrics. fold entry.
  assert (Hout : timestamp ∉ (drop (List.length stored - 100) stored).*1).
  { rewrite fmap_drop. intros Hin. apply elem_of_drop in Hin.
    apply (Hfresh timestamp Hin). cbn. apply list_elem_of_singleton. reflexivity. }
  rewrite (map_set_fresh timestamp entry _ Hout).
  rewrite !List.length_app, length_drop. cbn [List.length].
  clearbody stored. clear IH Hdup Hfresh Hout.
  destruct (Nat.ltb 100 (List.length stored - (List.length stored - 100) + 1)) eqn:Hfull.
  - apply Nat.ltb_lt in Hfull.
    assert (Hlen : 100 <= List.length stored) by lia.
    rewrite drop_app_le by lia.
    replace (List.length stored + 1 - 100) with (S (List.length stored - 100)) by lia.
    destruct (drop (List.length stored - 100) stored) as [|first rest] eqn:Hdrop.
    + apply (f_equal (@List.length _)) in Hdrop. rewrite length_drop in Hdrop.
      cbn in Hdrop. lia.
    + cbn [List.tl List.app]. f_equal.
      replace (S (List.length stored - 100)) with (List.length stored - 100 + 1) by lia.
      rewrite <- drop_drop, Hdrop. reflexivity.
  - apply Nat.ltb_ge in Hfull.
    replace (List.length stored - 100) with 0 by lia.
    replace (List.length stored + 1 - 100) with 0 by lia. reflexivity.
Qed.

End Collections.

(** X30. The monitor keeps the last hundred collections: after any run
    of [collectMetrics], failed ones included, the map has 100 entries at
    most; a collection that fails leaves it as it is; and when the time
    stamps of the collections that succeed are all different, the map holds
    the last hundred of them, the oldest first. *)
Theorem metrics_keep_the_last_hundred
    (run : list (option (JsValue * nat) * string)) :
  let metrics := collect_all run [] in
  List.length metrics <= 100
  /\ NoDup metrics.*1
  /\ (forall timestamp, collectMetrics None timestamp metrics = metrics)
  /\ (NoDup (stored_entries run).*1 ->
      metrics = drop (List.length (stored_entries run) - 100) (stored_entries run)).
Proof.
  cbn zeta. split; [apply collect_all_bound|]. split; [apply collect_all_bound|].
  split; [reflexivity|]. apply collect_all_last.
Qed.
